(** * fetch_data_with_go: the concurrent pagination engine of [main.go]

    A shallow embedding of [buildPayload], [fetchData] and
    [FetchAllDataMultithread], followed by the properties of an export
    run that can be stated over it.

    Conventions of the embedding.
    - Go's [int] is the 64-bit signed integer of the amd64 build
      ([fetch_data.exe]); it is a [Z] and every arithmetic result goes
      through [wrap].
    - Go maps are reference values.  A map lives in a store ([Heap]) and is
      named by a location; copying a struct that holds a map copies the
      location, not the map.
    - Go strings are byte strings; [String.length] counts bytes as Go's
      [len] does.
    - The behaviour of the libraries and of the remote endpoint
      ([net/http], [encoding/json] decoding, [os.Create], [fmt]'s
      rendering of a [float64], the clock) is a field of the record
      [Env].
    - The goroutines of [FetchAllDataMultithread] are program counters
      over shared state; a run is an interleaving of their steps, chosen
      by a schedule.  A step is as coarse as one statement group of the
      source: the eight lines that patch the payload are one step, the
      call of [fetchData] is the next. *)

From stdpp Require Import gmap strings list.
From Stdlib Require Import ZArith Lia Floats.

Set Warnings "-register-all".
Local Open Scope string_scope.

(** ** Machine integers *)

Definition int_bits : Z := 64.
Definition min_int : Z := - 2 ^ (int_bits - 1).
Definition max_int : Z := 2 ^ (int_bits - 1) - 1.

(** Two's-complement wrap-around of Go's [int]. *)
Definition wrap (z : Z) : Z :=
  ((z - min_int) mod 2 ^ int_bits + min_int)%Z.

Definition int_add (a b : Z) : Z := wrap (a + b).
Definition int_sub (a b : Z) : Z := wrap (a - b).
Definition int_mul (a b : Z) : Z := wrap (a * b).
(** Go's [/] truncates toward zero; a zero divisor panics ([None]). *)
Definition int_div (a b : Z) : option Z :=
  if decide (b = 0%Z) then None else Some (wrap (Z.quot a b)).

(** ** The store of maps *)

Definition loc := positive.

(** A dynamic value ([interface{}]) as it occurs in the request template. *)
Inductive Value :=
| VNil
| VInt (n : Z)
| VStr (s : string)
| VMap (l : loc).

#[global] Instance Value_eq_dec : EqDecision Value.
Proof. solve_decision. Defined.

(** [PayloadBlock]; the anonymous [Meta] struct is flattened into three
    fields. *)
Record PayloadBlock := mkPayloadBlock {
  Meta_Desc : string;
  Meta_Attr : Value;
  Meta_Columns : list Value;
  Rows : list (list Value);
  Attr : Value
}.

#[global] Instance PayloadBlock_eq_dec : EqDecision PayloadBlock.
Proof. solve_decision. Defined.

(** The zero value, which indexing a map at a missing key returns. *)
Definition zero_PayloadBlock : PayloadBlock :=
  mkPayloadBlock "" VNil [] [] VNil.

(** [Payload]: the four map-typed fields hold locations. *)
Record Payload := mkPayload {
  ServiceName : string;
  MethodName : string;
  Context : loc;
  User : loc;
  Version : string;
  Sys : loc;
  Blocks : loc
}.

#[global] Instance Payload_eq_dec : EqDecision Payload.
Proof. solve_decision. Defined.

(** Two kinds of map objects exist in the program:
    [map[string]interface{}] and [map[string]PayloadBlock].  A location
    with no object is a nil map: reading it gives zero values, writing to
    it panics. *)
Record Heap := mkHeap {
  attrs : gmap loc (gmap string Value);
  blockmaps : gmap loc (gmap string PayloadBlock);
  next : loc
}.

Definition empty_heap : Heap := mkHeap ∅ ∅ 1%positive.

(** ** The world a run acts on *)

(** A JSON document as a tree: what [json.Marshal] makes of a payload. *)
Inductive Wire :=
| WNull
| WInt (n : Z)
| WStr (s : string)
| WArr (items : list Wire)
| WObj (fields : list (string * Wire)).

(** An HTTP POST as the transport sees it (the fixed headers of
    [buildHeaders] are left out). *)
Record Request := mkRequest {
  req_url : string;
  req_body : Wire
}.

(** The failures of [fetchData], one constructor per [fmt.Errorf]. *)
Inductive FetchError :=
| ErrMarshal (detail : string)                (* 序列化请求体失败 *)
| ErrNewRequest (detail : string)             (* 创建请求失败 *)
| ErrDo (detail : string)                     (* 请求失败 *)
| ErrReadBody (detail : string)               (* 读取响应失败 *)
| ErrStatus (code : Z) (body : string)        (* 服务器返回错误状态码 *)
| ErrDecode (detail : string) (preview : string). (* JSON解析失败 *)

(** The failures [FetchAllDataMultithread] returns. *)
Inductive RunError :=
| ErrFirstRequest (e : FetchError)            (* 首次请求失败 *)
| ErrResponseFormat                           (* 响应数据格式异常 *)
| ErrCreateFile (detail : string).            (* 创建CSV文件失败 *)

(** The lines [FetchAllDataMultithread] prints. *)
Inductive Line :=
| LStart (pageSize maxWorkers : Z) (csvFilename : string)
| LNoCount
| LTotals (totalCount totalPages : Z)
| LPageFailed (pageNum : Z) (e : FetchError)
| LPageFetched (pageNum offset : Z) (n : nat)
| LInterrupted (totalRows : Z)
| LCompleted (totalRows : Z).

(** The output file: the byte-order mark and the records the CSV writer
    wrote, in order, each a list of fields.  The writer's buffer is not
    modelled (the deferred [writer.Flush] empties it before the function
    returns), nor is the quoting of [encoding/csv]: reading the file back
    gives the fields that were written. *)
Record File := mkFile {
  bom : bool;
  records : list (list string)
}.

Record World := mkWorld {
  heap : Heap;
  sent : list Request;              (* requests handed to the transport, oldest first *)
  files : gmap string File;
  stdout : list Line                (* oldest first *)
}.

Definition initial_world (h : Heap) : World := mkWorld h [] ∅ [].

Definition set_heap (h : Heap) (w : World) : World :=
  mkWorld h (sent w) (files w) (stdout w).

(** ** A state-and-panic monad over the world *)

Inductive Outcome (A : Type) :=
| Done (a : A) (w : World)
| Panicked (reason : string).
Arguments Done {A} a w.
Arguments Panicked {A} reason.

Definition Go (A : Type) := World -> Outcome A.

#[global] Instance Go_ret : MRet Go := fun A a w => Done a w.
#[global] Instance Go_bind : MBind Go := fun A B k m w =>
  match m w with
  | Done a w' => k a w'
  | Panicked r => Panicked r
  end.
Definition panic {A} (reason : string) : Go A := fun _ => Panicked reason.
Definition get_heap : Go Heap := fun w => Done (heap w) w.

(** [fmt.Printf] / [fmt.Println]. *)
Definition print (l : Line) : Go unit :=
  fun w => Done tt (mkWorld (heap w) (sent w) (files w) (stdout w ++ [l])%list).

(** [map[string]interface{}{...}] and [make(map[string]interface{})]. *)
Definition new_map (entries : list (string * Value)) : Go loc :=
  fun w =>
    let h := heap w in
    Done (next h)
         (set_heap (mkHeap (<[next h := list_to_map entries]> (attrs h))
                           (blockmaps h) (Pos.succ (next h))) w).

(** [map[string]PayloadBlock{...}]. *)
Definition new_blockmap (entries : list (string * PayloadBlock)) : Go loc :=
  fun w =>
    let h := heap w in
    Done (next h)
         (set_heap (mkHeap (attrs h)
                           (<[next h := list_to_map entries]> (blockmaps h))
                           (Pos.succ (next h))) w).

(** [m[k]] on a [map[string]PayloadBlock]. *)
Definition read_block (m : loc) (k : string) : Go PayloadBlock :=
  fun w =>
    Done (default zero_PayloadBlock (blockmaps (heap w) !! m ≫= (.!! k))) w.

(** [m[k] = b] on a [map[string]PayloadBlock]. *)
Definition write_block (m : loc) (k : string) (b : PayloadBlock) : Go unit :=
  fun w =>
    let h := heap w in
    match blockmaps h !! m with
    | Some bm =>
        Done tt (set_heap (mkHeap (attrs h) (<[m := <[k := b]> bm]> (blockmaps h))
                                  (next h)) w)
    | None => Panicked "assignment to entry in nil map"
    end.

(** [m[k] = v] on a [map[string]interface{}]. *)
Definition write_attr (m : loc) (k : string) (v : Value) : Go unit :=
  fun w =>
    let h := heap w in
    match attrs h !! m with
    | Some am =>
        Done tt (set_heap (mkHeap (<[m := <[k := v]> am]> (attrs h)) (blockmaps h)
                                  (next h)) w)
    | None => Panicked "assignment to entry in nil map"
    end.

(** [v.(map[string]interface{})]: the single-result type assertion. *)
Definition assert_map (v : Value) : Go loc :=
  match v with
  | VMap l => mret l
  | _ => panic "interface conversion: not map[string]interface {}"
  end.

(** Pure reads used by the statements below. *)
Definition heap_block (h : Heap) (m : loc) (k : string) : PayloadBlock :=
  default zero_PayloadBlock (blockmaps h !! m ≫= (.!! k)).

Definition heap_attr (h : Heap) (m : loc) (k : string) : option Value :=
  attrs h !! m ≫= (.!! k).

(** The value stored under [key] in the Attr map of the "result" block of
    payload [p], as the store [h] has it now. *)
Definition result_attr (h : Heap) (p : Payload) (key : string) : option Value :=
  match Attr (heap_block h (Blocks p) "result") with
  | VMap l => heap_attr h l key
  | _ => None
  end.

(** ** [buildPayload] (main.go, 182-236) *)

Definition column (pos : Z) (name : string) : Go Value :=
  l ← new_map [("pos", VInt pos); ("name", VStr name)]; mret (VMap l).

Definition buildPayload : Go Payload :=
  context ← new_map [];
  user ← new_map [];
  sys ← new_map [("name", VStr ""); ("descName", VStr ""); ("msg", VStr "");
                  ("msgKey", VStr ""); ("detailMsg", VStr "");
                  ("status", VInt 0); ("traceId", VStr "")];
  result_attr_map ← new_map [("limit", VInt 10); ("offset", VInt 10);
                              ("showCount", VStr "true")];
  inqu_meta_attr ← new_map [];
  c0 ← column 0 "supplierCode";
  c1 ← column 1 "supplierName";
  c2 ← column 2 "companyType";
  c3 ← column 3 "offlineSupplier";
  c4 ← column 4 "unifiedSocialCode";
  c5 ← column 5 "aliveFlag";
  inqu_attr ← new_map [];
  blocks ← new_blockmap
    [("result",
      mkPayloadBlock "" VNil [] [[]] (VMap result_attr_map));
     ("inqu_status",
      mkPayloadBlock "" (VMap inqu_meta_attr) [c0; c1; c2; c3; c4; c5]
        [[VStr ""; VStr ""; VStr ""; VStr ""; VStr ""; VStr "1"]]
        (VMap inqu_attr))];
  mret (mkPayload "PSRM01" "querySupCm" context user "2.0" sys blocks).

(** ** Injecting [limit] and [offset] (main.go, 311-318 and 427-434)

    The same eight lines occur in the priming request and in the worker
    loop.  [payload := basePayload] copies the struct, so [Blocks payload]
    is the location [Blocks basePayload]; the two assignments through
    [resultAttr] and the assignment to [payload.Blocks["result"]] all
    write to objects the template refers to. *)
Definition pagedPayload (basePayload : Payload) (pageSize offset : Z) : Go Payload :=
  let payload := basePayload in
  b ← read_block (Blocks payload) "result";
  resultAttr ← assert_map (Attr b);
  write_attr resultAttr "limit" (VInt pageSize);;
  write_attr resultAttr "offset" (VInt offset);;
  block ← read_block (Blocks payload) "result";
  let block := mkPayloadBlock (Meta_Desc block) (Meta_Attr block)
                 (Meta_Columns block) (Rows block) (VMap resultAttr) in
  write_block (Blocks payload) "result" block;;
  mret payload.

(** ** Responses *)

(** A decoded JSON value held in an [interface{}]: what [json.Unmarshal]
    stores for null, booleans, numbers, strings, arrays and objects. *)
Inductive Cell :=
| CNil
| CBool (b : bool)
| CFloat (f : float)
| CStr (s : string)
| CArr (items : list Cell)
| CObj (fields : list (string * Cell)).  (* in key order *)

(** One entry of [Response.Blocks].  [Block_Rows] is [None] for a nil
    slice (the key "rows" absent or null). *)
Record ResponseBlock := mkResponseBlock {
  Block_Rows : option (list (list Cell));
  Attr_Count : Z
}.

Record Response := mkResponse {
  Response_Blocks : gmap string ResponseBlock
}.

Record PageResult := mkPageResult {
  PageNum : Z;
  Result_Rows : option (list (list Cell));
  Err : option FetchError
}.

(** What the HTTP client and [io.ReadAll] report for one request. *)
Inductive HttpOutcome :=
| DoError (detail : string)                 (* client.Do failed *)
| ReadError (detail : string)               (* io.ReadAll failed *)
| Reply (status : Z) (body : string).

(** The behaviour of the libraries and of the remote endpoint. *)
Record Env := mkEnv {
  (** [http.NewRequestWithContext]: the error for this URL, if any *)
  new_request_error : string -> option string;
  (** [client.Do] then [io.ReadAll] for the [n]-th request of the run *)
  transport : nat -> Request -> HttpOutcome;
  (** [json.Unmarshal] into a [Response]: the value or the error text *)
  json_Unmarshal : string -> Response + string;
  (** [%v] of a [float64] *)
  fmt_float : float -> string;
  (** [os.Create]: the error for this path, if any *)
  os_Create_error : string -> option string;
  (** [time.Now().Format("20060102_150405")] *)
  timestamp : string
}.

Record DataFetcher := mkDataFetcher {
  accessToken : string;
  pageSize : Z;
  requestDelay : Z;                      (* nanoseconds *)
  outputFilePrefix : string;
  baseURL : string;
  csvHeaders : list string;
  maxWorkers : Z
}.

(** ** [json.Marshal] of a payload

    The encoder follows map references through the store.  [fuel] bounds
    the nesting depth; a chain of references longer than the number of map
    objects is a cycle, which the encoder reports as an error ([None]). *)
Fixpoint marshal_value (fuel : nat) (h : Heap) (v : Value) : option Wire :=
  match v with
  | VNil => Some WNull
  | VInt n => Some (WInt n)
  | VStr s => Some (WStr s)
  | VMap l =>
      match attrs h !! l with
      | None => Some WNull
      | Some m =>
          match fuel with
          | O => None
          | S fuel' =>
              WObj <$> mapM (fun kv : string * Value =>
                               pair kv.1 <$> marshal_value fuel' h kv.2)
                            (map_to_list m)
          end
      end
  end.

Definition marshal_map (fuel : nat) (h : Heap) (l : loc) : option Wire :=
  marshal_value fuel h (VMap l).

(** The struct tags of [PayloadBlock]: [desc] and both [attr] fields are
    [omitempty]. *)
Definition marshal_block (fuel : nat) (h : Heap) (b : PayloadBlock) : option Wire :=
  meta_attr ← marshal_value fuel h (Meta_Attr b);
  columns ← mapM (marshal_value fuel h) (Meta_Columns b);
  rows ← mapM (fun r => WArr <$> mapM (marshal_value fuel h) r) (Rows b);
  attr ← marshal_value fuel h (Attr b);
  let meta :=
    ((if decide (Meta_Desc b = "") then [] else [("desc", WStr (Meta_Desc b))]) ++
     (if decide (Meta_Attr b = VNil) then [] else [("attr", meta_attr)]) ++
     [("columns", WArr columns)])%list in
  Some (WObj ([("meta", WObj meta); ("rows", WArr rows)] ++
              (if decide (Attr b = VNil) then [] else [("attr", attr)]))%list).

Definition json_Marshal (h : Heap) (payload : Payload) : option Wire :=
  let fuel := S (size (attrs h)) in
  context ← marshal_map fuel h (Context payload);
  user ← marshal_map fuel h (User payload);
  sys ← marshal_map fuel h (Sys payload);
  blocks ←
    match blockmaps h !! Blocks payload with
    | None => Some WNull
    | Some bm =>
        WObj <$> mapM (fun kb : string * PayloadBlock =>
                         pair kb.1 <$> marshal_block fuel h kb.2)
                      (map_to_list bm)
    end;
  Some (WObj [("serviceName", WStr (ServiceName payload));
              ("methodName", WStr (MethodName payload));
              ("__context__", context);
              ("__user__", user);
              ("__version__", WStr (Version payload));
              ("__sys__", sys);
              ("__blocks__", blocks)]).

(** Reading a request back: the member [k] of an object. *)
Definition wire_field (k : string) (w : Wire) : option Wire :=
  match w with
  | WObj fields => snd <$> List.find (fun kv => bool_decide (kv.1 = k)) fields
  | _ => None
  end.

(** The [limit] and [offset] a request carries in its "result" block. *)
Definition request_paging (r : Request) : option (Wire * Wire) :=
  blocks ← wire_field "__blocks__" (req_body r);
  result ← wire_field "result" blocks;
  attr ← wire_field "attr" result;
  limit ← wire_field "limit" attr;
  offset ← wire_field "offset" attr;
  Some (limit, offset).

(** ** [fetchData] (main.go, 239-288) *)

(** [client.Do(req)] followed by [io.ReadAll(resp.Body)]: the request is
    handed to the transport once. *)
Definition client_Do (env : Env) (req : Request) : Go HttpOutcome :=
  fun w =>
    Done (transport env (length (sent w)) req)
         (mkWorld (heap w) (sent w ++ [req])%list (files w) (stdout w)).

(** [preview := string(body); if len(preview) > 100 { preview =
    preview[:100] + "..." }]. *)
Definition body_preview (body : string) : string :=
  if decide (100 < String.length body)%nat
  then String.substring 0 100 body ++ "..."
  else body.

Definition StatusOK : Z := 200.

Definition fetchData (env : Env) (df : DataFetcher) (payload : Payload)
  : Go (Response + FetchError) :=
  h ← get_heap;
  match json_Marshal h payload with
  | None => mret (inr (ErrMarshal "json: unsupported value"))
  | Some jsonData =>
      match new_request_error env (baseURL df) with
      | Some detail => mret (inr (ErrNewRequest detail))
      | None =>
          outcome ← client_Do env (mkRequest (baseURL df) jsonData);
          match outcome with
          | DoError detail => mret (inr (ErrDo detail))
          | ReadError detail => mret (inr (ErrReadBody detail))
          | Reply status body =>
              if decide (status ≠ StatusOK)
              then mret (inr (ErrStatus status body))
              else
                match json_Unmarshal env body with
                | inr detail => mret (inr (ErrDecode detail (body_preview body)))
                | inl response => mret (inl response)
                end
          end
      end
  end.

(** ** The result consumer's row coercion (main.go, 376-387) *)

Definition tab : string := String (Ascii.ascii_of_nat 9) "".

(** [fmt]'s [%v] of a decoded JSON value. *)
Fixpoint fmt_v (env : Env) (c : Cell) : string :=
  match c with
  | CNil => "<nil>"
  | CBool true => "true"
  | CBool false => "false"
  | CFloat f => fmt_float env f
  | CStr s => s
  | CArr items => "[" ++ String.concat " " (map (fmt_v env) items) ++ "]"
  | CObj fields =>
      "map[" ++
      String.concat " " (map (fun kv => let '(k, v) := kv in
                                        k ++ ":" ++ fmt_v env v) fields) ++
      "]"
  end.

(** [if cell == nil { strRow[i] = "\t" } else { strRow[i] =
    fmt.Sprintf("\t%v", cell) }]. *)
Definition cellToString (env : Env) (cell : Cell) : string :=
  match cell with
  | CNil => tab
  | _ => tab ++ fmt_v env cell
  end.

Definition rowToStrings (env : Env) (row : list Cell) : list string :=
  map (cellToString env) row.

(** [writer.Write(record)] on the CSV writer over [csvFilename]. *)
Definition writer_Write (csvFilename : string) (record : list string) : Go unit :=
  fun w =>
    Done tt (mkWorld (heap w) (sent w)
               (alter (fun f => mkFile (bom f) (records f ++ [record])%list)
                      csvFilename (files w))
               (stdout w)).

(** The inner loop over [result.Rows]: one record and one [totalRows++]
    per row. *)
Fixpoint write_rows (env : Env) (csvFilename : string)
    (rows : list (list Cell)) (totalRows : Z) : Go Z :=
  match rows with
  | [] => mret totalRows
  | row :: rest =>
      writer_Write csvFilename (rowToStrings env row);;
      write_rows env csvFilename rest (int_add totalRows 1)
  end.

(** The body of [for result := range results] (main.go, 370-390). *)
Definition consume (env : Env) (csvFilename : string)
    (result : PageResult) (totalRows : Z) : Go Z :=
  match Err result with
  | Some e => print (LPageFailed (PageNum result) e);; mret totalRows
  | None =>
      match Result_Rows result with
      | None => mret totalRows
      | Some rows => write_rows env csvFilename rows totalRows
      end
  end.

(** ** The sequential head of [FetchAllDataMultithread] (main.go, 299-362) *)

(** [(totalCount + df.pageSize - 1) / df.pageSize]. *)
Definition totalPages_of (totalCount pageSize : Z) : option Z :=
  int_div (int_sub (int_add totalCount pageSize) 1) pageSize.

(** [os.Create], the byte-order mark and the header row. *)
Definition os_Create (env : Env) (csvFilename : string) : Go (option string) :=
  fun w =>
    match os_Create_error env csvFilename with
    | Some detail => Done (Some detail) w
    | None =>
        Done None (mkWorld (heap w) (sent w)
                     (<[csvFilename := mkFile false []]> (files w)) (stdout w))
    end.

Definition file_Write_BOM (csvFilename : string) : Go unit :=
  fun w =>
    Done tt (mkWorld (heap w) (sent w)
               (alter (fun f => mkFile true (records f)) csvFilename (files w))
               (stdout w)).

(** How the head ends: the function has returned, or the channels exist
    and the goroutines are about to start. *)
Inductive Head :=
| Returned (totalRows : Z) (err : option RunError)
| Started (csvFilename : string) (totalPages : Z).

(** The default output name (299-302). *)
Definition output_name (env : Env) (df : DataFetcher) (csvFilename : string) : string :=
  if decide (csvFilename = "")
  then outputFilePrefix df ++ "_" ++ timestamp env ++ ".csv"
  else csvFilename.

(** The priming request (310-320): the first page, fetched for its
    count. *)
Definition priming (env : Env) (df : DataFetcher) (basePayload : Payload)
  : Go (Response + FetchError) :=
  payload ← pagedPayload basePayload (pageSize df) 0;
  fetchData env df payload.

(** Lines 321-362: from the priming result to the channels. *)
Definition plan_run (env : Env) (df : DataFetcher) (csvFilename : string)
    (r : Response + FetchError) : Go Head :=
  match r with
  | inr err => mret (Returned 0 (Some (ErrFirstRequest err)))
  | inl response =>
      match Response_Blocks response !! "result" with
      | None => mret (Returned 0 (Some ErrResponseFormat))
      | Some resultBlock =>
          let totalCount := Attr_Count resultBlock in
          if decide (totalCount = 0%Z)
          then print LNoCount;; mret (Returned 0 None)
          else
            match totalPages_of totalCount (pageSize df) with
            | None => panic "integer divide by zero"
            | Some totalPages =>
                print (LTotals totalCount totalPages);;
                failed ← os_Create env csvFilename;
                match failed with
                | Some detail => mret (Returned 0 (Some (ErrCreateFile detail)))
                | None =>
                    file_Write_BOM csvFilename;;
                    writer_Write csvFilename (csvHeaders df);;
                    if decide (totalPages < 0)%Z
                    then panic "makechan: size out of range"
                    else if decide (maxWorkers df < 0)%Z
                    then panic "makechan: size out of range"
                    else mret (Started csvFilename totalPages)
                end
            end
      end
  end.

Definition head_of_run (env : Env) (df : DataFetcher) (basePayload : Payload)
    (csvFilename : string) : Go Head :=
  let csvFilename := output_name env df csvFilename in
  print (LStart (pageSize df) (maxWorkers df) csvFilename);;
  r ← priming env df basePayload;
  plan_run env df csvFilename r.

(** ** The goroutines of [FetchAllDataMultithread] (main.go, 364-472)

    After the head, the function is a set of goroutines over two channels.
    Each goroutine is a small program counter; a run is an interleaving of
    their steps, chosen by a schedule.  A channel is its queue of buffered
    values and a closed flag: a send is enabled while the queue is shorter
    than the capacity, a receive takes the oldest value, and a receive on
    an empty closed channel ends a [range] loop. *)

Record Task := mkTask {
  pageNum : Z;
  offset : Z
}.

#[global] Instance Task_eq_dec : EqDecision Task.
Proof. solve_decision. Defined.

(** The task-filling goroutine (394-410). *)
Inductive Producer :=
| PLoop (page : Z)          (* at the loop test, [page] tasks sent *)
| PExit.

(** A worker goroutine (416-456), one constructor per blocking point. *)
Inductive Worker :=
| WRange                                        (* for task := range tasks *)
| WCheck (task : Task)                          (* select on ctx.Done() *)
| WPatch (task : Task)                          (* 427-434 *)
| WFetch (task : Task) (payload : Payload)      (* 437-450 *)
| WSendErr (task : Task) (err : FetchError)     (* 439 *)
| WSendEmpty (task : Task)                      (* 445 *)
| WSendRows (task : Task) (rows : option (list (list Cell)))  (* 451 *)
| WSleep                                        (* 454 *)
| WExit.

(** The result-consuming goroutine (368-391). *)
Inductive Consumer :=
| CRange
| CExit.

(** The calling goroutine from [wg.Wait()] on (460-472). *)
Inductive Caller :=
| MWaitWorkers
| MWaitWriter
| MReturned (totalRows : Z).

(** What the goroutines did, in order: the instrumentation the statements
    about a run read. *)
Inductive Event :=
| EvSend (task : Task)                       (* the producer enqueued it *)
| EvRecv (worker : nat) (task : Task)        (* the worker dequeued it *)
| EvFetch (worker : nat) (task : Task)       (* the worker called fetchData *)
| EvEmit (worker : nat) (result : PageResult)
| EvSleep (worker : nat) (delay : Z)
| EvConsume (result : PageResult).

Record St := mkSt {
  world : World;
  ctx_done : bool;              (* ctx has been cancelled *)
  tasks : list Task;            (* oldest first *)
  tasks_closed : bool;
  results : list PageResult;    (* oldest first *)
  results_closed : bool;
  totalRows : Z;
  producer : Producer;
  workers : list Worker;
  consumer : Consumer;
  caller : Caller;
  events : list Event           (* oldest first *)
}.

(** The values fixed when the goroutines start. *)
Record Run := mkRun {
  run_env : Env;
  run_df : DataFetcher;
  run_basePayload : Payload;
  run_csvFilename : string;
  run_totalPages : Z
}.

Definition initial_state (R : Run) (w : World) : St :=
  mkSt w false [] false [] false 0 (PLoop 0)
       (replicate (Z.to_nat (maxWorkers (run_df R))) WRange)
       CRange MWaitWorkers [].

(** Who moves next.  [AProducer true] is the producer's [select] taking
    the [ctx.Done()] case, [AProducer false] the send case; [ACancel] is
    the signal handler calling [cancel()]. *)
Inductive Actor :=
| AProducer (take_done : bool)
| AWorker (i : nat)
| AConsumer
| ACaller
| ACancel.

Inductive Step :=
| Moved (s : St)
| Blocked
| Crashed (reason : string).

Definition log (e : Event) (s : St) : St :=
  mkSt (world s) (ctx_done s) (tasks s) (tasks_closed s) (results s)
       (results_closed s) (totalRows s) (producer s) (workers s)
       (consumer s) (caller s) (events s ++ [e]).

Definition set_world (w : World) (s : St) : St :=
  mkSt w (ctx_done s) (tasks s) (tasks_closed s) (results s)
       (results_closed s) (totalRows s) (producer s) (workers s)
       (consumer s) (caller s) (events s).

Definition set_worker (i : nat) (pc : Worker) (s : St) : St :=
  mkSt (world s) (ctx_done s) (tasks s) (tasks_closed s) (results s)
       (results_closed s) (totalRows s) (producer s) (<[i := pc]> (workers s))
       (consumer s) (caller s) (events s).

Definition set_tasks (q : list Task) (s : St) : St :=
  mkSt (world s) (ctx_done s) q (tasks_closed s) (results s)
       (results_closed s) (totalRows s) (producer s) (workers s)
       (consumer s) (caller s) (events s).

Definition set_results (q : list PageResult) (s : St) : St :=
  mkSt (world s) (ctx_done s) (tasks s) (tasks_closed s) q
       (results_closed s) (totalRows s) (producer s) (workers s)
       (consumer s) (caller s) (events s).

Definition set_producer (pc : Producer) (s : St) : St :=
  mkSt (world s) (ctx_done s) (tasks s) (tasks_closed s) (results s)
       (results_closed s) (totalRows s) pc (workers s)
       (consumer s) (caller s) (events s).

(** [close(tasks)]. *)
Definition close_tasks (s : St) : St :=
  mkSt (world s) (ctx_done s) (tasks s) true (results s)
       (results_closed s) (totalRows s) (producer s) (workers s)
       (consumer s) (caller s) (events s).

(** [close(results)]. *)
Definition close_results (s : St) : St :=
  mkSt (world s) (ctx_done s) (tasks s) (tasks_closed s) (results s)
       true (totalRows s) (producer s) (workers s)
       (consumer s) (caller s) (events s).

Definition set_totalRows (n : Z) (s : St) : St :=
  mkSt (world s) (ctx_done s) (tasks s) (tasks_closed s) (results s)
       (results_closed s) n (producer s) (workers s)
       (consumer s) (caller s) (events s).

Definition set_consumer (pc : Consumer) (s : St) : St :=
  mkSt (world s) (ctx_done s) (tasks s) (tasks_closed s) (results s)
       (results_closed s) (totalRows s) (producer s) (workers s)
       pc (caller s) (events s).

Definition set_caller (pc : Caller) (s : St) : St :=
  mkSt (world s) (ctx_done s) (tasks s) (tasks_closed s) (results s)
       (results_closed s) (totalRows s) (producer s) (workers s)
       (consumer s) pc (events s).

Definition cancel (s : St) : St :=
  mkSt (world s) true (tasks s) (tasks_closed s) (results s)
       (results_closed s) (totalRows s) (producer s) (workers s)
       (consumer s) (caller s) (events s).

(** The task of page index [page]: [{pageNum: page + 1, offset: page *
    df.pageSize}]. *)
Definition task_of_page (df : DataFetcher) (page : Z) : Task :=
  mkTask (int_add page 1) (int_mul page (pageSize df)).

(** One turn of the producer's loop (395-409). *)
Definition producer_step (R : Run) (take_done : bool) (s : St) : Step :=
  match producer s with
  | PExit => Blocked
  | PLoop page =>
      if decide (page < run_totalPages R)%Z then
        if take_done then
          if ctx_done s
          then Moved (set_producer PExit (close_tasks s))
          else Blocked
        else
          if decide (Z.of_nat (length (tasks s)) < run_totalPages R)%Z then
            let task := task_of_page (run_df R) page in
            Moved (set_producer (PLoop (int_add page 1))
                     (log (EvSend task) (set_tasks (tasks s ++ [task]) s)))
          else Blocked
      else Moved (set_producer PExit (close_tasks s))
  end.

(** [results <- r] by worker [i], which then goes on at [pc]. *)
Definition send_result (R : Run) (i : nat) (r : PageResult) (pc : Worker)
    (s : St) : Step :=
  if results_closed s then Crashed "send on closed channel"
  else if decide (Z.of_nat (length (results s)) < maxWorkers (run_df R))%Z then
    Moved (set_worker i pc (log (EvEmit i r) (set_results (results s ++ [r]) s)))
  else Blocked.

(** One step of worker [i] (418-455). *)
Definition worker_step (R : Run) (i : nat) (s : St) : Step :=
  let df := run_df R in
  match workers s !! i with
  | None => Blocked
  | Some WRange =>
      match tasks s with
      | task :: rest =>
          Moved (set_worker i (WCheck task) (log (EvRecv i task) (set_tasks rest s)))
      | [] => if tasks_closed s then Moved (set_worker i WExit s) else Blocked
      end
  | Some (WCheck task) =>
      if ctx_done s
      then Moved (set_worker i WExit s)
      else Moved (set_worker i (WPatch task) s)
  | Some (WPatch task) =>
      match pagedPayload (run_basePayload R) (pageSize df) (offset task) (world s) with
      | Done payload w => Moved (set_worker i (WFetch task payload) (set_world w s))
      | Panicked reason => Crashed reason
      end
  | Some (WFetch task payload) =>
      match fetchData (run_env R) df payload (world s) with
      | Done (inr err) w =>
          Moved (set_worker i (WSendErr task err) (log (EvFetch i task) (set_world w s)))
      | Done (inl response) w =>
          match Response_Blocks response !! "result" with
          | None =>
              Moved (set_worker i (WSendEmpty task)
                       (log (EvFetch i task) (set_world w s)))
          | Some resultBlock =>
              let rows := Block_Rows resultBlock in
              match print (LPageFetched (pageNum task) (offset task)
                             (length (default [] rows))) w with
              | Done _ w' =>
                  Moved (set_worker i (WSendRows task rows)
                           (log (EvFetch i task) (set_world w' s)))
              | Panicked reason => Crashed reason
              end
          end
      | Panicked reason => Crashed reason
      end
  | Some (WSendErr task err) =>
      send_result R i (mkPageResult (pageNum task) None (Some err)) WRange s
  | Some (WSendEmpty task) =>
      send_result R i (mkPageResult (pageNum task) (Some []) None) WRange s
  | Some (WSendRows task rows) =>
      send_result R i (mkPageResult (pageNum task) rows None) WSleep s
  | Some WSleep =>
      Moved (set_worker i WRange (log (EvSleep i (requestDelay df)) s))
  | Some WExit => Blocked
  end.

(** One turn of the consumer's loop (370-390). *)
Definition consumer_step (R : Run) (s : St) : Step :=
  match consumer s with
  | CExit => Blocked
  | CRange =>
      match results s with
      | result :: rest =>
          match consume (run_env R) (run_csvFilename R) result (totalRows s) (world s) with
          | Done n w =>
              Moved (set_totalRows n
                       (log (EvConsume result) (set_world w (set_results rest s))))
          | Panicked reason => Crashed reason
          end
      | [] => if results_closed s then Moved (set_consumer CExit s) else Blocked
      end
  end.

Definition all_exited (ws : list Worker) : bool :=
  forallb (fun pc => match pc with WExit => true | _ => false end) ws.

(** The caller: [wg.Wait(); close(results); writeWg.Wait()], the summary
    line and [return totalRows, nil] (460-472). *)
Definition caller_step (R : Run) (s : St) : Step :=
  match caller s with
  | MWaitWorkers =>
      if all_exited (workers s)
      then Moved (set_caller MWaitWriter (close_results s))
      else Blocked
  | MWaitWriter =>
      match consumer s with
      | CExit =>
          match print (if ctx_done s then LInterrupted (totalRows s)
                       else LCompleted (totalRows s)) (world s) with
          | Done _ w => Moved (set_caller (MReturned (totalRows s)) (set_world w s))
          | Panicked reason => Crashed reason
          end
      | CRange => Blocked
      end
  | MReturned _ => Blocked
  end.

Definition step (R : Run) (a : Actor) (s : St) : Step :=
  match a with
  | AProducer take_done => producer_step R take_done s
  | AWorker i => worker_step R i s
  | AConsumer => consumer_step R s
  | ACaller => caller_step R s
  | ACancel => Moved (cancel s)
  end.

(** A run under a schedule; it stops at the first actor that cannot move. *)
Fixpoint exec (R : Run) (schedule : list Actor) (s : St) : Step :=
  match schedule with
  | [] => Moved s
  | a :: rest =>
      match step R a s with
      | Moved s' => exec R rest s'
      | other => other
      end
  end.

(** A scheduler for examples: at each turn the first actor of
    [candidates] that can move. *)
Definition candidates (R : Run) : list Actor :=
  AProducer false :: ACaller :: AConsumer
    :: map AWorker (seq 0 (Z.to_nat (maxWorkers (run_df R)))).

Fixpoint first_enabled (R : Run) (cands : list Actor) (s : St) : option (Actor * St) :=
  match cands with
  | [] => None
  | a :: rest =>
      match step R a s with
      | Moved s' => Some (a, s')
      | _ => first_enabled R rest s
      end
  end.

Fixpoint run_to_end (R : Run) (fuel : nat) (s : St) : list Actor * St :=
  match fuel with
  | O => ([], s)
  | S fuel' =>
      match first_enabled R (candidates R) s with
      | None => ([], s)
      | Some (a, s') =>
          let '(sched, s'') := run_to_end R fuel' s' in (a :: sched, s'')
      end
  end.

(** ** [FetchAllDataMultithread] as a whole

    The function returns [(n, err)] in world [w'] either from its head, or
    after some schedule of the goroutines has brought the caller to its
    [return]. *)
Inductive Returns (env : Env) (df : DataFetcher) (basePayload : Payload)
    (csvFilename : string) (w : World) : Z -> option RunError -> World -> Prop :=
| Returns_head n err w' :
    head_of_run env df basePayload csvFilename w = Done (Returned n err) w' ->
    Returns env df basePayload csvFilename w n err w'
| Returns_run file totalPages w0 schedule s n :
    head_of_run env df basePayload csvFilename w = Done (Started file totalPages) w0 ->
    exec (mkRun env df basePayload file totalPages) schedule
         (initial_state (mkRun env df basePayload file totalPages) w0) = Moved s ->
    caller s = MReturned n ->
    Returns env df basePayload csvFilename w n None (world s).

(** ** Reading a trace *)

(** The descriptors the producer enqueued, in order. *)
Definition enqueued (evs : list Event) : list Task :=
  omap (fun e => match e with EvSend t => Some t | _ => None end) evs.

(** The deliveries: which worker dequeued which descriptor, in order. *)
Definition received (evs : list Event) : list (nat * Task) :=
  omap (fun e => match e with EvRecv i t => Some (i, t) | _ => None end) evs.

(** The results the consumer took off the results channel, in order. *)
Definition consumed (evs : list Event) : list PageResult :=
  omap (fun e => match e with EvConsume r => Some r | _ => None end) evs.

(** What one worker did, in order. *)
Definition of_worker (i : nat) (evs : list Event) : list Event :=
  List.filter (fun e => match e with
                        | EvRecv j _ | EvFetch j _ | EvEmit j _ | EvSleep j _ =>
                            bool_decide (i = j)
                        | _ => false
                        end) evs.

(** The page plan the loop at 395-408 spells out: pages [0 .. n-1]. *)
Definition page_plan (df : DataFetcher) (n : nat) : list Task :=
  (fun i => task_of_page df (Z.of_nat i)) <$> seq 0 n.

(** The failure lines of the log. *)
Definition failure_lines (out : list Line) : list (Z * FetchError) :=
  omap (fun l => match l with LPageFailed n e => Some (n, e) | _ => None end) out.

(** The results that carry an error, as the consumer reports them. *)
Definition errored (rs : list PageResult) : list (Z * FetchError) :=
  omap (fun r => pair (PageNum r) <$> Err r) rs.

(** The number of rows in the results that carry no error. *)
Definition rows_in (rs : list PageResult) : Z :=
  foldr (fun r acc =>
           match Err r with
           | Some _ => acc
           | None => (Z.of_nat (length (default [] (Result_Rows r))) + acc)%Z
           end) 0%Z rs.

(** ** Invariants of a run *)

(** The task queue: the producer has enqueued the first [k] pages of the
    plan, and what was enqueued is what the workers dequeued followed by
    what is still queued. *)
Definition task_inv (R : Run) (s : St) : Prop :=
  exists k : nat,
    (Z.of_nat k <= Z.max 0 (run_totalPages R))%Z /\
    enqueued (events s) = page_plan (run_df R) k /\
    (forall p, producer s = PLoop p -> p = Z.of_nat k) /\
    (producer s = PExit -> ctx_done s = false ->
     Z.of_nat k = Z.max 0 (run_totalPages R)) /\
    ((received (events s)).*2 ++ tasks s)%list = enqueued (events s).

(** The results the workers put on the results channel, in order. *)
Definition emitted (evs : list Event) : list PageResult :=
  omap (fun e => match e with EvEmit _ r => Some r | _ => None end) evs.

(** The result consumer: its row counter and its failure lines account for
    exactly the results it has taken, nothing emitted is lost, and the
    caller returns the counter after the consumer has drained the
    channel. *)
Definition sink_inv (w0 : World) (s : St) : Prop :=
  totalRows s = wrap (rows_in (consumed (events s))) /\
  failure_lines (stdout (world s)) =
    (failure_lines (stdout w0) ++ errored (consumed (events s)))%list /\
  emitted (events s) = (consumed (events s) ++ results s)%list /\
  (consumer s = CExit -> results s = [] /\ results_closed s = true) /\
  (forall n, caller s = MReturned n -> consumer s = CExit /\ n = totalRows s).

(** A world with another log. *)
Definition set_stdout (out : list Line) (w : World) : World :=
  mkWorld (heap w) (sent w) (files w) out.

(** ** Example inputs *)

(** A response whose "result" block announces [count] records and carries
    [n] rows of two cells. *)
Definition example_rows (n : nat) : list (list Cell) :=
  replicate n [CStr "a"; CNil].

Definition example_response (count : Z) (n : nat) : Response :=
  mkResponse {[ "result" := mkResponseBlock (Some (example_rows n)) count ]}.

(** An endpoint holding five records, served two to a page; the request
    for offset 4 is answered with status 500. *)
Definition example_env : Env :=
  mkEnv (fun _ => None)
        (fun _ r => match request_paging r with
                    | Some (_, WInt 0) => Reply 200 "page0"
                    | Some (_, WInt 2) => Reply 200 "page2"
                    | Some (_, WInt 4) => Reply 500 "busy"
                    | _ => Reply 200 "?"
                    end)
        (fun body => if decide (body = "page0") then inl (example_response 5 2)
                     else if decide (body = "page2") then inl (example_response 5 2)
                     else inr "invalid character")%string
        (fun _ => "1")
        (fun _ => None)
        "20250110_143022".

Definition example_df : DataFetcher :=
  mkDataFetcher "token" 2 500000000 "supplier_data" "https://one.cnncecp.com/cnnc-ps-api/"
                ["supplierName"; "unifiedSocialCode"] 2.

(** The template of [main], and the world it is built in. *)
Definition example_template : Payload * World :=
  match buildPayload (initial_world empty_heap) with
  | Done base w => (base, w)
  | Panicked _ => (mkPayload "" "" 1%positive 1%positive "" 1%positive 1%positive,
                   initial_world empty_heap)
  end.

Definition example_base : Payload := example_template.1.

Definition example_Run : Run :=
  mkRun example_env example_df example_base "out.csv" 3.

(** The world in which the goroutines of the example start. *)
Definition example_world : World :=
  match head_of_run example_env example_df example_base "out.csv" example_template.2 with
  | Done _ w => w
  | Panicked _ => example_template.2
  end.

(** The example run under the scheduler [run_to_end]. *)
Definition example_schedule : list Actor :=
  (run_to_end example_Run 100 (initial_state example_Run example_world)).1.

Definition example_final : St :=
  (run_to_end example_Run 100 (initial_state example_Run example_world)).2.

(** The head of the function followed by the scheduler [run_to_end], on
    the template of [main]. *)
Definition run_example (env : Env) (df : DataFetcher) : option St :=
  match head_of_run env df example_base "out.csv" example_template.2 with
  | Done (Started file totalPages) w =>
      let R := mkRun env df example_base file totalPages in
      Some (run_to_end R 100 (initial_state R w)).2
  | _ => None
  end.

(** The endpoint of [example_env], except that the request for offset 4 is
    answered with an empty page. *)
Definition quiet_env : Env :=
  mkEnv (fun _ => None)
        (fun _ r => match request_paging r with
                    | Some (_, WInt 0) => Reply 200 "page0"
                    | Some (_, WInt 2) => Reply 200 "page2"
                    | Some (_, WInt 4) => Reply 200 "page4"
                    | _ => Reply 200 "?"
                    end)
        (fun body => if decide (body = "page0") then inl (example_response 5 2)
                     else if decide (body = "page2") then inl (example_response 5 2)
                     else if decide (body = "page4") then inl (example_response 5 0)
                     else inr "invalid character")%string
        (fun _ => "1")
        (fun _ => None)
        "20250110_143022".

(** An endpoint that announces one record and serves two rows to every
    request. *)
Definition generous_env : Env :=
  mkEnv (fun _ => None)
        (fun _ _ => Reply 200 "page")
        (fun _ => inl (example_response 1 2))
        (fun _ => "1")
        (fun _ => None)
        "20250110_143022".

Definition generous_df : DataFetcher :=
  mkDataFetcher "token" 1 500000000 "supplier_data" "https://one.cnncecp.com/cnnc-ps-api/"
                ["supplierName"; "unifiedSocialCode"] 1.

(** The endpoint of [example_env] behind a transport that fails the second
    request of the run (the first request of a worker). *)
Definition flaky_env : Env :=
  mkEnv (fun _ => None)
        (fun n r => if decide (n = 1%nat) then DoError "timeout"
                    else transport example_env n r)
        (json_Unmarshal example_env)
        (fun _ => "1")
        (fun _ => None)
        "20250110_143022".

Definition single_df : DataFetcher :=
  mkDataFetcher "token" 2 500000000 "supplier_data" "https://one.cnncecp.com/cnnc-ps-api/"
                ["supplierName"; "unifiedSocialCode"] 1.

(** The world a computation leaves behind. *)
Definition world_after {A} (m : Go A) (w : World) : World :=
  match m w with
  | Done _ w' => w'
  | Panicked _ => w
  end.

(** An endpoint that holds no records. *)
Definition empty_env : Env :=
  mkEnv (fun _ => None)
        (fun _ _ => Reply 200 "none")
        (fun _ => inl (example_response 0 0))
        (fun _ => "1")
        (fun _ => None)
        "20250110_143022".

(** An endpoint that cannot be reached. *)
Definition down_env : Env :=
  mkEnv (fun _ => None)
        (fun _ _ => DoError "connection refused")
        (json_Unmarshal example_env)
        (fun _ => "1")
        (fun _ => None)
        "20250110_143022".

(** An endpoint whose replies decode but hold no "result" block. *)
Definition blockless_env : Env :=
  mkEnv (fun _ => None)
        (fun _ _ => Reply 200 "{}")
        (fun _ => inl (mkResponse ∅))
        (fun _ => "1")
        (fun _ => None)
        "20250110_143022".

(** A worker of the example run holding page 2 when the context is
    cancelled. *)
Definition example_cancelled : St :=
  cancel (set_worker 0 (WCheck (mkTask 2 2))
                     (initial_state example_Run example_world)).

(** ** More invariants of a run *)

(** The template can be patched: its block map exists, and the Attr of its
    "result" block is a map that exists. *)
Definition template_ok (h : Heap) (base : Payload) : Prop :=
  exists bm l am,
    blockmaps h !! Blocks base = Some bm /\
    Attr (default zero_PayloadBlock (bm !! "result")) = VMap l /\
    attrs h !! l = Some am.

(** How the goroutines and the channels stand to each other. *)
Definition run_inv (R : Run) (s : St) : Prop :=
  template_ok (heap (world s)) (run_basePayload R) /\
  (producer s = PExit <-> tasks_closed s = true) /\
  (forall page, producer s = PLoop page ->
                (0 <= page)%Z /\ (Z.of_nat (length (tasks s)) <= page)%Z) /\
  (results_closed s = true -> all_exited (workers s) = true) /\
  (consumer s = CExit -> results_closed s = true /\ results s = []) /\
  (caller s = MWaitWorkers <-> results_closed s = false) /\
  (forall n, caller s = MReturned n -> consumer s = CExit) /\
  length (workers s) = Z.to_nat (maxWorkers (run_df R)).

(** The steps a goroutine has left at most, counting what it holds. *)
Definition worker_weight (pc : Worker) : nat :=
  match pc with
  | WRange => 1
  | WCheck _ => 8
  | WPatch _ => 7
  | WFetch _ _ => 6
  | WSendErr _ _ | WSendEmpty _ | WSendRows _ _ => 5
  | WSleep => 2
  | WExit => 0
  end.

Definition producer_weight (R : Run) (pc : Producer) : nat :=
  match pc with
  | PLoop page => 1 + 9 * Z.to_nat (run_totalPages R - page)
  | PExit => 0
  end.

Definition consumer_weight (pc : Consumer) : nat :=
  match pc with CRange => 1 | CExit => 0 end.

Definition caller_weight (pc : Caller) : nat :=
  match pc with MWaitWorkers => 2 | MWaitWriter => 1 | MReturned _ => 0 end.

(** A bound on the steps a run has left. *)
Definition steps_left (R : Run) (s : St) : nat :=
  producer_weight R (producer s) + 8 * length (tasks s) +
  sum_list (worker_weight <$> workers s) + length (results s) +
  consumer_weight (consumer s) + caller_weight (caller s).

(** The steps of a schedule that are steps of the program, not of the
    signal handler. *)
Definition program_steps (schedule : list Actor) : nat :=
  length (List.filter (fun a => match a with ACancel => false | _ => true end) schedule).

(** The records the consumer writes for a sequence of results: the rows
    of the results that carry no error, coerced, in order. *)
Definition rows_written (env : Env) (rs : list PageResult) : list (list string) :=
  rs ≫= (fun r => match Err r with
                  | Some _ => []
                  | None => rowToStrings env <$> default [] (Result_Rows r)
                  end).

(** The output file holds what it held at the start followed by the
    records of the results consumed; no other file is touched. *)
Definition file_inv (R : Run) (w0 : World) (s : St) : Prop :=
  files (world s) !! run_csvFilename R =
    (fun f => mkFile (bom f)
                (records f ++ rows_written (run_env R) (consumed (events s)))%list)
      <$> files w0 !! run_csvFilename R /\
  forall f, f <> run_csvFilename R -> files (world s) !! f = files w0 !! f.

(** The descriptors the workers called [fetchData] for, in order. *)
Definition fetched (evs : list Event) : list Task :=
  omap (fun e => match e with EvFetch _ t => Some t | _ => None end) evs.

(** The descriptor a worker holds and has not fetched yet. *)
Definition unfetched (pc : Worker) : list Task :=
  match pc with
  | WCheck t | WPatch t | WFetch t _ => [t]
  | _ => []
  end.

(** The page number of the result a worker has fetched and not sent yet. *)
Definition unsent (pc : Worker) : list Z :=
  match pc with
  | WSendErr t _ | WSendEmpty t | WSendRows t _ => [pageNum t]
  | _ => []
  end.

(** The bookkeeping of pages: every fetch is for a descriptor that was
    dequeued, each dequeued descriptor accounts for at most one fetch,
    every fetch accounts for exactly one result with its page number, sent
    or about to be, and a fetch hands at most one request to the
    transport. *)
Definition page_inv (w0 : World) (s : St) : Prop :=
  (fetched (events s) ++ (workers s ≫= unfetched))%list ⊆+ (received (events s)).*2 /\
  ((PageNum <$> emitted (events s)) ++ (workers s ≫= unsent))%list
    ≡ₚ pageNum <$> fetched (events s) /\
  (length (sent (world s)) <= length (sent w0) + length (fetched (events s)))%nat.

(** The "result" block of the template asks for [ps] records from [off]
    on. *)
Definition template_paging (h : Heap) (base : Payload) (ps off : Z) : Prop :=
  exists bm b l am,
    blockmaps h !! Blocks base = Some bm /\ bm !! "result" = Some b /\
    Attr b = VMap l /\ attrs h !! l = Some am /\
    am !! "limit" = Some (VInt ps) /\ am !! "offset" = Some (VInt off).

(** The request goes to the fetcher's URL and asks for one page of
    [pageSize] records at an offset accepted by [good]. *)
Definition request_ok (df : DataFetcher) (good : Z -> Prop) (r : Request) : Prop :=
  req_url r = baseURL df /\
  exists off, request_paging r = Some (WInt (pageSize df), WInt off) /\ good off.

(** The offset of a descriptor some worker has dequeued. *)
Definition dequeued_offset (s : St) (off : Z) : Prop :=
  exists t, t ∈ (received (events s)).*2 /\ offset t = off.

(** The requests of the goroutines: the template always asks for
    [pageSize] records, at the offset of the priming request or of a
    dequeued descriptor; a worker about to fetch holds a copy of the
    template, patched for a dequeued descriptor; and every request sent
    since the goroutines started asks for [pageSize] records at the offset
    of a dequeued descriptor. *)
Definition request_inv (R : Run) (w0 : World) (s : St) : Prop :=
  (exists off, template_paging (heap (world s)) (run_basePayload R)
                 (pageSize (run_df R)) off /\
               (off = 0%Z \/ dequeued_offset s off)) /\
  (forall i t p, workers s !! i = Some (WFetch t p) ->
                 p = run_basePayload R /\
                 exists off, template_paging (heap (world s)) (run_basePayload R)
                               (pageSize (run_df R)) off /\ dequeued_offset s off) /\
  exists reqs, sent (world s) = (sent w0 ++ reqs)%list /\
               Forall (request_ok (run_df R) (dequeued_offset s)) reqs.

(** The result a worker is about to send (439, 445, 451). *)
Definition pending_result (pc : Worker) : option PageResult :=
  match pc with
  | WSendErr task err => Some (mkPageResult (pageNum task) None (Some err))
  | WSendEmpty task => Some (mkPageResult (pageNum task) (Some []) None)
  | WSendRows task rows => Some (mkPageResult (pageNum task) rows None)
  | _ => None
  end.

(** Since the trace was [evs0], worker [i] is still at the send [pc] or it
    has emitted [r]. *)
Definition emission_inv (i : nat) (pc : Worker) (r : PageResult)
    (evs0 : list Event) (s : St) : Prop :=
  exists new, events s = (evs0 ++ new)%list /\
              (workers s !! i = Some pc \/ EvEmit i r ∈ new).

(** An endpoint whose first reply announces five records and whose later
    replies decode but hold no "result" block. *)
Definition partial_env : Env :=
  mkEnv (fun _ => None)
        (fun n _ => if decide (n = 0%nat) then Reply 200 "page0" else Reply 200 "{}")
        (fun body => if decide (body = "page0") then inl (example_response 5 2)
                     else inl (mkResponse ∅))%string
        (fun _ => "1")
        (fun _ => None)
        "20250110_143022".

Definition partial_Run : Run :=
  mkRun partial_env example_df example_base "out.csv" 3.

(** The world in which the goroutines start under [partial_env]. *)
Definition partial_world : World :=
  world_after (head_of_run partial_env example_df example_base "out.csv")
              example_template.2.

(** The producer enqueues page 1; worker 0 dequeues it, finds the context
    live and patches the template. *)
Definition partial_schedule : list Actor :=
  [AProducer false; AWorker 0; AWorker 0; AWorker 0].

(** Worker 0 of that run about to fetch page 1. *)
Definition partial_fetching : St :=
  match exec partial_Run partial_schedule (initial_state partial_Run partial_world) with
  | Moved s => s
  | _ => initial_state partial_Run partial_world
  end.

(** Worker 0 of the example run about to fetch page 1. *)
Definition example_patched : St :=
  match exec example_Run partial_schedule (initial_state example_Run example_world) with
  | Moved s => s
  | _ => initial_state example_Run example_world
  end.


(** An endpoint that announces [count] records and serves no rows. *)
Definition announcing_env (count : Z) : Env :=
  mkEnv (fun _ => None)
        (fun _ _ => Reply 200 "page")
        (fun _ => inl (example_response count 0))
        (fun _ => "1")
        (fun _ => None)
        "20250110_143022".

(** The example endpoint on a file system that refuses to create the
    output file. *)
Definition readonly_env : Env :=
  mkEnv (new_request_error example_env) (transport example_env)
        (json_Unmarshal example_env) (fmt_float example_env)
        (fun _ => Some "permission denied")
        (timestamp example_env).

(** A fetcher whose page size is zero. *)
Definition zero_df : DataFetcher :=
  mkDataFetcher "token" 0 500000000 "supplier_data" "https://one.cnncecp.com/cnnc-ps-api/"
                ["supplierName"; "unifiedSocialCode"] 2.

(** A value that is not a reference to a map. *)
Definition scalar (v : Value) : Prop :=
  match v with VMap _ => False | _ => True end.

(** A map that holds no reference to another map. *)
Definition flat_map (m : gmap string Value) : Prop :=
  forall k v, m !! k = Some v -> scalar v.

(** The world in which the goroutines start when the endpoint announces
    -2 records. *)
Definition announced_world : World :=
  world_after (head_of_run (announcing_env (-2)) example_df example_base "out.csv")
              example_template.2.

Definition announced_Run : Run :=
  mkRun (announcing_env (-2)) example_df example_base "out.csv" 0.

(** * Properties *)

Local Open Scope list_scope.

(** ** Machine arithmetic *)

Lemma wrap_small z : (min_int <= z <= max_int)%Z -> wrap z = z.
Proof.
  unfold wrap, min_int, max_int, int_bits. intros Hz.
  rewrite Z.mod_small; lia.
Qed.

Lemma wrap_range z : (min_int <= wrap z <= max_int)%Z.
Proof.
  unfold wrap, min_int, max_int, int_bits.
  pose proof (Z.mod_pos_bound (z - - 2 ^ (64 - 1)) (2 ^ 64) ltac:(lia)). lia.
Qed.

Lemma int_add_wrap a b : int_add (wrap a) b = wrap (a + b).
Proof.
  unfold int_add, wrap. f_equal.
  replace ((a - min_int) mod 2 ^ int_bits + min_int + b - min_int)%Z
    with ((a - min_int) mod 2 ^ int_bits + b)%Z by lia.
  rewrite Zplus_mod_idemp_l. f_equal. lia.
Qed.

Lemma int_sub_wrap a b : int_sub (wrap a) b = wrap (a - b).
Proof.
  unfold int_sub, wrap. f_equal.
  replace ((a - min_int) mod 2 ^ int_bits + min_int - b - min_int)%Z
    with ((a - min_int) mod 2 ^ int_bits + (- b))%Z by lia.
  rewrite Zplus_mod_idemp_l. f_equal. lia.
Qed.

Lemma max_int_value : max_int = 9223372036854775807%Z.
Proof. reflexivity. Qed.

(** The ceiling division the code intends, where nothing wraps. *)
Lemma totalPages_of_ceil totalCount pageSize :
  (0 <= totalCount)%Z -> (0 < pageSize)%Z ->
  (totalCount + pageSize - 1 <= max_int)%Z ->
  exists n, totalPages_of totalCount pageSize = Some n /\
            (0 <= n <= max_int)%Z /\
            (pageSize * (n - 1) < totalCount <= pageSize * n)%Z.
Proof.
  intros Hc Hp Hmax.
  assert (Hmin : (min_int < 0)%Z) by reflexivity.
  exists ((totalCount + pageSize - 1) / pageSize)%Z.
  unfold totalPages_of, int_div.
  destruct (decide (pageSize = 0%Z)) as [->|_]; [lia|].
  unfold int_add. rewrite int_sub_wrap.
  rewrite (wrap_small (totalCount + pageSize - 1)) by lia.
  rewrite Z.quot_div_nonneg by lia.
  pose proof (Z.div_pos (totalCount + pageSize - 1) pageSize ltac:(lia) Hp).
  pose proof (Z.div_le_upper_bound (totalCount + pageSize - 1) pageSize max_int Hp
                ltac:(nia)).
  rewrite wrap_small by lia.
  split; [done|]. split; [lia|].
  pose proof (Z.mul_div_le (totalCount + pageSize - 1) pageSize Hp).
  pose proof (Z.mul_succ_div_gt (totalCount + pageSize - 1) pageSize Hp).
  nia.
Qed.

(** ** The task queue *)

Lemma enqueued_snoc evs e :
  enqueued (evs ++ [e]) =
  enqueued evs ++ match e with EvSend t => [t] | _ => [] end.
Proof. unfold enqueued. rewrite omap_app. simpl. by destruct e. Qed.

Lemma received_snoc evs e :
  received (evs ++ [e]) =
  received evs ++ match e with EvRecv i t => [(i, t)] | _ => [] end.
Proof. unfold received. rewrite omap_app. simpl. by destruct e. Qed.

Lemma page_plan_S df k :
  page_plan df (S k) = page_plan df k ++ [task_of_page df (Z.of_nat k)].
Proof. unfold page_plan. by rewrite seq_S, fmap_app. Qed.

Lemma length_page_plan df k : length (page_plan df k) = k.
Proof. unfold page_plan. by rewrite length_fmap, length_seq. Qed.

Lemma page_plan_lookup df k i :
  (i < k)%nat -> page_plan df k !! i = Some (task_of_page df (Z.of_nat i)).
Proof.
  intros Hi. unfold page_plan. rewrite list_lookup_fmap.
  by rewrite (proj2 (lookup_seq 0 k i i)).
Qed.

Ltac step_cases H :=
  unfold step, producer_step, worker_step, send_result, consumer_step,
    caller_step in H;
  repeat case_match; simplify_eq.

Section TaskQueue.
Variable R : Run.
Hypothesis totalPages_int : (run_totalPages R <= max_int)%Z.

Lemma task_inv_initial w : task_inv R (initial_state R w).
Proof.
  exists 0%nat. simpl. split_and!; try done; try lia.
  intros p [= <-]. done.
Qed.

Lemma task_inv_step a s s' :
  task_inv R s -> step R a s = Moved s' -> task_inv R s'.
Proof.
  intros (k & Hk & Henq & Hp & Hexit & Hq) Hstep.
  step_cases Hstep.
  all: try match goal with
         | Hp : forall p, PLoop ?page = PLoop p -> _ |- _ =>
             pose proof (Hp page eq_refl); subst page
         end.
  all: lazymatch goal with
       | |- task_inv _ (set_producer (PLoop _) _) =>
           (* the producer enqueues page [k] *)
           exists (S k); simpl;
           rewrite enqueued_snoc, received_snoc, page_plan_S; simpl;
           rewrite app_nil_r, app_assoc, Hq, Henq;
           unfold int_add; rewrite wrap_small by (unfold min_int, int_bits; lia);
           split_and!; [lia | done | intros ? [= <-]; lia | done | done]
       | |- _ =>
           exists k; simpl;
           rewrite ?enqueued_snoc, ?received_snoc; simpl;
           rewrite ?fmap_app, ?app_nil_r; simpl;
           split_and!;
           first [ done | congruence | lia | by auto
                 | intros; simplify_eq; first [done | congruence | lia]
                 | idtac ]
       end.
  - (* a worker dequeues the oldest descriptor *)
    by rewrite <- Hq, <- app_assoc.
Qed.

Lemma task_inv_exec schedule s s' :
  task_inv R s -> exec R schedule s = Moved s' -> task_inv R s'.
Proof.
  revert s. induction schedule as [|a rest IH]; intros s Hinv Hexec; simpl in Hexec.
  - by simplify_eq.
  - destruct (step R a s) as [s1| |] eqn:Hstep; try done.
    eauto using task_inv_step.
Qed.

(** The pages of the plan are pairwise distinct: they differ in their
    page number. *)
Lemma page_plan_NoDup (k : nat) :
  (Z.of_nat k <= Z.max 0 (run_totalPages R))%Z -> NoDup (page_plan (run_df R) k).
Proof.
  intros Hk. unfold page_plan.
  apply (NoDup_fmap_1 pageNum). rewrite <- list_fmap_compose.
  apply NoDup_alt. intros i j x Hi Hj.
  rewrite list_lookup_fmap in Hi, Hj.
  destruct (seq 0 k !! i) as [i'|] eqn:Ei; [|done].
  destruct (seq 0 k !! j) as [j'|] eqn:Ej; [|done].
  apply lookup_seq in Ei as [-> ?], Ej as [-> ?]. simpl in *.
  simplify_eq. unfold int_add in *.
  rewrite !wrap_small in * by (unfold min_int, int_bits; lia). lia.
Qed.
End TaskQueue.

Lemma example_head :
  head_of_run example_env example_df example_base "out.csv" example_template.2
  = Done (Started "out.csv" 3) example_world.
Proof. vm_compute. reflexivity. Qed.

Lemma example_exec :
  exec example_Run example_schedule (initial_state example_Run example_world)
  = Moved example_final.
Proof. vm_compute. reflexivity. Qed.


Lemma snd_NoDup_agree {A B} (l : list (A * B)) a1 a2 b :
  NoDup l.*2 -> (a1, b) ∈ l -> (a2, b) ∈ l -> a1 = a2.
Proof.
  induction l as [|[a b'] l IH]; intros Hnd H1 H2.
  - by apply elem_of_nil in H1.
  - simpl in Hnd. apply NoDup_cons in Hnd as [Hnotin Hnd].
    apply elem_of_cons in H1 as [H1|H1], H2 as [H2|H2]; simplify_eq; auto.
    + exfalso. apply Hnotin. apply list_elem_of_fmap. by exists (a2, b').
    + exfalso. apply Hnotin. apply list_elem_of_fmap. by exists (a1, b').
Qed.

(** C9.  In every run, under every schedule of any number of workers, the
    descriptors the workers dequeue are pairwise distinct, so no descriptor
    is delivered to two workers (nor twice to one). *)
Theorem descriptor_delivered_once (R : Run) (w : World) (schedule : list Actor) (s : St) :
  (run_totalPages R <= max_int)%Z ->
  exec R schedule (initial_state R w) = Moved s ->
  NoDup (received (events s)).*2 /\
  forall i j t, (i, t) ∈ received (events s) -> (j, t) ∈ received (events s) -> i = j.
Proof.
  intros Hint Hexec.
  destruct (task_inv_exec R Hint schedule _ _ (task_inv_initial R w) Hexec)
    as (k & Hk & Henq & _ & _ & Hq).
  assert (Hnd : NoDup (received (events s)).*2).
  { pose proof (page_plan_NoDup R Hint k Hk) as Hplan.
    rewrite <- Henq, <- Hq in Hplan. by apply NoDup_app in Hplan as [? _]. }
  split; [done|]. intros i j t. by apply snd_NoDup_agree.
Qed.

Lemma descriptor_delivered_once_witness :
  NoDup (received (events example_final)).*2 /\
  forall i j t, (i, t) ∈ received (events example_final) ->
                (j, t) ∈ received (events example_final) -> i = j.
Proof.
  apply (descriptor_delivered_once example_Run example_world example_schedule).
  - vm_compute. discriminate.
  - exact example_exec.
Defined.

(** ** The page plan *)

Section ProducerRuns.
Variable R : Run.

(** Left alone and not cancelled, the producer enqueues page after
    page. *)
Lemma producer_sends (k : nat) : forall (j : nat) (s : St),
  producer s = PLoop (Z.of_nat j) ->
  length (tasks s) = j ->
  ctx_done s = false ->
  (Z.of_nat (j + k) <= run_totalPages R)%Z ->
  (run_totalPages R <= max_int)%Z ->
  exists s', exec R (replicate k (AProducer false)) s = Moved s' /\
             producer s' = PLoop (Z.of_nat (j + k)) /\
             length (tasks s') = (j + k)%nat /\
             ctx_done s' = false.
Proof.
  induction k as [|k IH]; intros j s Hp Hlen Hctx Hle Hint.
  - exists s. rewrite Nat.add_0_r. by simpl.
  - simpl. unfold producer_step. rewrite Hp, Hlen.
    rewrite decide_True by lia. rewrite decide_True by lia.
    destruct (IH (S j)
                (set_producer (PLoop (int_add (Z.of_nat j) 1))
                   (log (EvSend (task_of_page (run_df R) (Z.of_nat j)))
                      (set_tasks (tasks s ++ [task_of_page (run_df R) (Z.of_nat j)]) s))))
      as (s' & Hexec & Hp' & Hlen' & Hctx').
    + simpl. unfold int_add. rewrite wrap_small by (unfold min_int, int_bits; lia).
      f_equal. lia.
    + simpl. rewrite length_app. simpl. lia.
    + done.
    + lia.
    + done.
    + exists s'. rewrite <- Nat.add_succ_comm. by rewrite Hexec.
Qed.

Lemma producer_finishes w :
  (0 <= run_totalPages R <= max_int)%Z ->
  exists s, exec R (replicate (S (Z.to_nat (run_totalPages R))) (AProducer false))
                 (initial_state R w) = Moved s /\
            producer s = PExit /\ ctx_done s = false.
Proof.
  intros Hn.
  destruct (producer_sends (Z.to_nat (run_totalPages R)) 0 (initial_state R w))
    as (s & Hexec & Hp & Hlen & Hctx); try done; try lia.
  replace (S (Z.to_nat (run_totalPages R)))
    with (Z.to_nat (run_totalPages R) + 1)%nat by lia.
  rewrite replicate_add. simpl in Hp.
  exists (set_producer PExit (close_tasks s)). split; [|done].
  revert Hexec. generalize (replicate (Z.to_nat (run_totalPages R)) (AProducer false)).
  generalize (initial_state R w).
  intros s0 l. revert s0. induction l as [|a l IH]; intros s0 Hexec; simpl in *.
  - simplify_eq. unfold producer_step. rewrite Hp.
    by rewrite decide_False by lia.
  - destruct (step R a s0); try done. by apply IH.
Qed.
End ProducerRuns.

(** C4.  Where the sum [totalCount + pageSize - 1] fits a Go [int], the
    page count is the ceiling of [totalCount / pageSize]; the producer can
    run to its end; at every point of every run the [i]-th descriptor
    enqueued is page [i + 1] at offset [i * pageSize]; and once the
    producer has ended with the context not cancelled, exactly
    [totalPages] descriptors have been enqueued. *)
Theorem page_plan_exact (df : DataFetcher) (totalCount : Z) :
  (0 <= totalCount)%Z -> (0 < pageSize df)%Z ->
  (totalCount + pageSize df - 1 <= max_int)%Z ->
  exists totalPages,
    totalPages_of totalCount (pageSize df) = Some totalPages /\
    (pageSize df * (totalPages - 1) < totalCount <= pageSize df * totalPages)%Z /\
    forall env base file w,
      let R := mkRun env df base file totalPages in
      (exists schedule s,
          exec R schedule (initial_state R w) = Moved s /\
          producer s = PExit /\ ctx_done s = false) /\
      forall schedule s,
        exec R schedule (initial_state R w) = Moved s ->
        (forall (i : nat) t,
            enqueued (events s) !! i = Some t ->
            (Z.of_nat i < totalPages)%Z /\
            t = mkTask (Z.of_nat i + 1) (Z.of_nat i * pageSize df)) /\
        (producer s = PExit -> ctx_done s = false ->
         length (enqueued (events s)) = Z.to_nat totalPages).
Proof.
  intros Hc Hp Hmax.
  destruct (totalPages_of_ceil totalCount (pageSize df) Hc Hp Hmax)
    as (n & Hn & Hrange & Hceil).
  exists n. split; [done|]. split; [done|].
  intros env base file w R. split.
  - destruct (producer_finishes R w) as (s & Hexec & ? & ?); [done|]. eauto.
  - intros schedule s Hexec.
    destruct (task_inv_exec R (proj2 Hrange) schedule _ _ (task_inv_initial R w) Hexec)
      as (k & Hk & Henq & _ & Hexit & _).
    simpl in Hk, Hexit. rewrite Henq. split.
    + intros i t Hi.
      assert (i < k)%nat as Hik.
      { apply lookup_lt_Some in Hi. by rewrite length_page_plan in Hi. }
      rewrite page_plan_lookup in Hi by done. simplify_eq.
      split; [lia|]. unfold task_of_page, int_add, int_mul. simpl.
      assert (min_int < 0)%Z by reflexivity.
      rewrite !wrap_small by nia. done.
    + intros Hpe Hctx. rewrite length_page_plan.
      specialize (Hexit Hpe Hctx). lia.
Qed.

Lemma page_plan_exact_witness :
  exists totalPages,
    totalPages_of 2500 (pageSize (mkDataFetcher "" 1000 0 "" "" [] 3)) = Some totalPages /\
    (1000 * (totalPages - 1) < 2500 <= 1000 * totalPages)%Z /\
    forall env base file w,
      let R := mkRun env (mkDataFetcher "" 1000 0 "" "" [] 3) base file totalPages in
      (exists schedule s,
          exec R schedule (initial_state R w) = Moved s /\
          producer s = PExit /\ ctx_done s = false) /\
      forall schedule s,
        exec R schedule (initial_state R w) = Moved s ->
        (forall (i : nat) t,
            enqueued (events s) !! i = Some t ->
            (Z.of_nat i < totalPages)%Z /\
            t = mkTask (Z.of_nat i + 1) (Z.of_nat i * 1000)) /\
        (producer s = PExit -> ctx_done s = false ->
         length (enqueued (events s)) = Z.to_nat totalPages).
Proof.
  apply (page_plan_exact (mkDataFetcher "" 1000 0 "" "" [] 3) 2500).
  - lia.
  - simpl. lia.
  - vm_compute. discriminate.
Defined.

(** The ceiling fails where the sum wraps, and a cancelled producer stops
    short of the plan. *)
Lemma page_plan_exact_counterexample :
  totalPages_of 9223372036854775807 2 = Some (-4611686018427387904)%Z /\
  match exec example_Run [AProducer false; ACancel; AProducer true]
             (initial_state example_Run example_world) with
  | Moved s => producer s = PExit /\ run_totalPages example_Run = 3%Z /\
               enqueued (events s) = [mkTask 1 0]
  | _ => False
  end.
Proof. vm_compute. auto. Qed.

(** ** The request template *)

Ltac go_unfold :=
  unfold mbind, mret, Go_bind, Go_ret, panic, get_heap, print, read_block,
    write_block, write_attr, assert_map, set_heap in *.

(** Injecting the paging writes through to the template: the payload
    handed to [fetchData] is the template itself, and the template's
    "result" attributes now hold the injected values. *)
Lemma pagedPayload_writes_template base ps off w p w' :
  pagedPayload base ps off w = Done p w' ->
  p = base /\
  result_attr (heap w') base "limit" = Some (VInt ps) /\
  result_attr (heap w') base "offset" = Some (VInt off).
Proof.
  unfold pagedPayload. intros H. go_unfold. simpl in H.
  repeat (case_match; go_unfold; simpl in *; simplify_eq).
  repeat match goal with
         | H : <[_ := _]> _ !! _ = Some _ |- _ =>
             rewrite lookup_insert_eq in H; simplify_eq
         end.
  unfold result_attr, heap_block, heap_attr. simpl.
  rewrite !lookup_insert_eq. simpl. rewrite !lookup_insert_eq. simpl.
  split; [done|]. split.
  - rewrite lookup_insert_eq. simpl.
    rewrite lookup_insert_ne by done. by rewrite lookup_insert_eq.
  - rewrite lookup_insert_eq. simpl. by rewrite lookup_insert_eq.
Qed.

(** C1.  The template [buildPayload] makes holds limit 10 and offset 10.
    After the priming request of the example run (page size 2) the
    template itself holds limit 2 and offset 0; and under the schedule
    below, worker 0 patches offset 0, worker 1 then patches offset 2, and
    the request worker 0 sends for page 1 carries offset 2. *)
Theorem template_shared_by_fetches :
  result_attr (heap example_template.2) example_base "limit" = Some (VInt 10) /\
  result_attr (heap example_template.2) example_base "offset" = Some (VInt 10) /\
  match priming example_env example_df example_base example_template.2 with
  | Done _ w =>
      result_attr (heap w) example_base "limit" = Some (VInt 2) /\
      result_attr (heap w) example_base "offset" = Some (VInt 0)
  | Panicked _ => False
  end /\
  match exec example_Run
          [AProducer false; AProducer false;
           AWorker 0; AWorker 0; AWorker 0;
           AWorker 1; AWorker 1; AWorker 1;
           AWorker 0]
          (initial_state example_Run example_world) with
  | Moved s =>
      of_worker 0 (events s) = [EvRecv 0 (mkTask 1 0); EvFetch 0 (mkTask 1 0)] /\
      request_paging <$> last (sent (world s)) = Some (Some (WInt 2, WInt 2))
  | _ => False
  end.
Proof. vm_compute. auto 10. Qed.

(** ** The row coercion *)

Lemma append_cons a (s x : string) :
  (String a s ++ x)%string = String a (s ++ x)%string.
Proof. reflexivity. Qed.

Lemma append_empty (x : string) : ("" ++ x)%string = x.
Proof. reflexivity. Qed.

Lemma tab_append_inv (x : string) : (tab ++ x)%string = tab -> x = "".
Proof. unfold tab. rewrite append_cons, append_empty. by intros [= ->]. Qed.

(** Booleans, arrays and objects never render as the empty string. *)
Lemma fmt_v_empty env c :
  fmt_v env c = "" ->
  c = CStr "" \/ exists f, c = CFloat f /\ fmt_float env f = "".
Proof.
  destruct c as [|[]|f|s|items|fields]; simpl;
    rewrite ?append_cons; try discriminate.
  - intros H. right. by exists f.
  - intros ->. by left.
Qed.

(** C2.  A cell is written as the bare tab, which is what a null cell is
    written as, exactly when it is null, the empty string, or a number
    that [fmt] renders as the empty string: null is told apart from every
    other cell, but not from the empty string. *)
Theorem null_cell_image (env : Env) (c : Cell) :
  cellToString env c = cellToString env CNil <->
  c = CNil \/ c = CStr "" \/ exists f, c = CFloat f /\ fmt_float env f = "".
Proof.
  split.
  - destruct c as [|b|f|s|items|fields]; simpl; auto;
      intros H%tab_append_inv; right; by apply (fmt_v_empty env).
  - intros [->|[->|(f & -> & Hf)]]; simpl; [done|done|].
    by rewrite Hf.
Qed.

(** A page whose only cell is null and a page whose only cell is the empty
    string leave the same output file behind. *)
Lemma null_cell_image_counterexample :
  consume example_env "out.csv" (mkPageResult 1 (Some [[CNil]]) None) 0 example_world
  = consume example_env "out.csv" (mkPageResult 1 (Some [[CStr ""]]) None) 0 example_world
  /\ match consume example_env "out.csv" (mkPageResult 1 (Some [[CNil]]) None) 0
             example_world with
     | Done n w => n = 1%Z /\
                   records <$> files w !! "out.csv"
                   = Some [["supplierName"; "unifiedSocialCode"]; [tab]]
     | Panicked _ => False
     end.
Proof. vm_compute. auto. Qed.

(** ** The result consumer *)

Lemma first_enabled_step R cands s a s' :
  first_enabled R cands s = Some (a, s') -> step R a s = Moved s'.
Proof.
  induction cands as [|c cands IH]; cbn [first_enabled]; [done|].
  destruct (step R c s) eqn:Hc; auto. by intros [= <- <-].
Qed.

Lemma run_to_end_exec R fuel : forall s,
  exec R (run_to_end R fuel s).1 s = Moved (run_to_end R fuel s).2.
Proof.
  induction fuel as [|fuel IH]; intros s; [done|].
  cbn [run_to_end].
  destruct (first_enabled R (candidates R) s) as [[a s']|] eqn:Hfe; [|done].
  apply first_enabled_step in Hfe.
  specialize (IH s'). destruct (run_to_end R fuel s') as [sched s''].
  cbn [exec fst snd] in *. by rewrite Hfe.
Qed.

Lemma consumed_snoc evs e :
  consumed (evs ++ [e]) =
  consumed evs ++ match e with EvConsume r => [r] | _ => [] end.
Proof. unfold consumed. rewrite omap_app. simpl. by destruct e. Qed.

Lemma emitted_snoc evs e :
  emitted (evs ++ [e]) =
  emitted evs ++ match e with EvEmit _ r => [r] | _ => [] end.
Proof. unfold emitted. rewrite omap_app. simpl. by destruct e. Qed.

Lemma failure_lines_snoc out l :
  failure_lines (out ++ [l]) =
  failure_lines out ++ match l with LPageFailed n e => [(n, e)] | _ => [] end.
Proof. unfold failure_lines. rewrite omap_app. simpl. by destruct l. Qed.

Lemma rows_in_snoc rs r :
  rows_in (rs ++ [r]) =
  (rows_in rs + match Err r with
                | Some _ => 0
                | None => Z.of_nat (length (default [] (Result_Rows r)))
                end)%Z.
Proof.
  induction rs as [|r' rs IH]; simpl.
  - destruct (Err r); lia.
  - rewrite IH. destruct (Err r'), (Err r); lia.
Qed.

Lemma errored_snoc rs r :
  errored (rs ++ [r]) =
  errored rs ++ match Err r with Some e => [(PageNum r, e)] | None => [] end.
Proof. unfold errored. rewrite omap_app. simpl. by destruct (Err r). Qed.

(** What the senders of requests leave alone. *)
Lemma pagedPayload_frame base ps off w p w' :
  pagedPayload base ps off w = Done p w' ->
  stdout w' = stdout w /\ files w' = files w /\ sent w' = sent w.
Proof.
  unfold pagedPayload. intros H. go_unfold. simpl in H.
  repeat (case_match; go_unfold; simpl in *; simplify_eq). done.
Qed.

Lemma fetchData_frame env df payload w r w' :
  fetchData env df payload w = Done r w' ->
  stdout w' = stdout w /\ files w' = files w /\ heap w' = heap w.
Proof.
  unfold fetchData, client_Do. intros H. go_unfold. simpl in H.
  repeat (case_match; go_unfold; simpl in *; simplify_eq); done.
Qed.

(** A fetch hands at most one request to the transport, and exactly one
    when it succeeds. *)
Lemma fetchData_sent env df payload w r w' :
  fetchData env df payload w = Done r w' ->
  (sent w' = sent w \/ exists req, sent w' = sent w ++ [req]) /\
  (forall response, r = inl response -> exists req, sent w' = sent w ++ [req]).
Proof.
  unfold fetchData, client_Do. intros H. go_unfold. simpl in H.
  repeat (case_match; go_unfold; simpl in *; simplify_eq);
    (split; [eauto | intros; simplify_eq; eauto]).
Qed.

(** The inner loop adds one to the counter per row and prints nothing. *)
Lemma write_rows_spec env file rows : forall x w,
  exists w', write_rows env file rows (wrap x) w
             = Done (wrap (x + Z.of_nat (length rows))) w' /\
             stdout w' = stdout w /\ sent w' = sent w /\ heap w' = heap w.
Proof.
  induction rows as [|row rows IH]; intros x w; simpl.
  - exists w. by rewrite Z.add_0_r.
  - unfold mbind, Go_bind, writer_Write. simpl.
    rewrite int_add_wrap.
    edestruct IH as (w' & -> & ? & ? & ?).
    exists w'. split; [f_equal; f_equal; lia|]. done.
Qed.

(** One result through the consumer's loop body. *)
Lemma consume_spec env file r x w :
  exists w',
    consume env file r (wrap x) w
    = Done (wrap (x + match Err r with
                      | Some _ => 0
                      | None => Z.of_nat (length (default [] (Result_Rows r)))
                      end)) w' /\
    stdout w' = stdout w ++ match Err r with
                            | Some e => [LPageFailed (PageNum r) e]
                            | None => []
                            end /\
    sent w' = sent w /\ heap w' = heap w.
Proof.
  unfold consume. destruct (Err r) as [e|].
  - eexists. unfold mbind, Go_bind, print, mret, Go_ret. simpl.
    by rewrite Z.add_0_r.
  - rewrite app_nil_r. destruct (Result_Rows r) as [rows|]; simpl.
    + apply write_rows_spec.
    + exists w. by rewrite Z.add_0_r.
Qed.

Section Sink.
Variable R : Run.
Variable w0 : World.

Lemma sink_inv_initial : sink_inv w0 (initial_state R w0).
Proof.
  unfold sink_inv. simpl. rewrite app_nil_r. split_and!; try done.
Qed.

Lemma sink_inv_step a s s' :
  sink_inv w0 s -> step R a s = Moved s' -> sink_inv w0 s'.
Proof.
  intros (Hrows & Hlines & Hem & Hexit & Hret) Hstep.
  destruct a as [take_done|i| | |].
  3: { (* the consumer *)
    simpl in Hstep. unfold consumer_step in Hstep.
    destruct (consumer s) eqn:Hc; [|done].
    destruct (results s) as [|r rest] eqn:Hres.
    - destruct (results_closed s) eqn:Hcl; [|done]. simplify_eq.
      unfold sink_inv. simpl. rewrite Hres in *.
      split_and!; try done.
      intros n Hn. by destruct (Hret n Hn).
    - rewrite Hrows in Hstep.
      destruct (consume_spec (run_env R) (run_csvFilename R) r
                  (rows_in (consumed (events s))) (world s))
        as (w' & Hcons & Hout & _ & _).
      rewrite Hcons in Hstep. simplify_eq.
      unfold sink_inv. simpl.
      rewrite consumed_snoc, emitted_snoc, rows_in_snoc, errored_snoc. simpl.
      rewrite app_nil_r, Hout, Hem, <- app_assoc. simpl.
      split_and!; try done.
      + destruct (Err r); simpl.
        * by rewrite failure_lines_snoc, Hlines, app_assoc.
        * by rewrite !app_nil_r.
      + congruence.
      + intros n Hn. destruct (Hret n Hn). congruence. }
  all: step_cases Hstep.
  all: repeat match goal with
         | H : pagedPayload _ _ _ _ = Done _ _ |- _ =>
             apply pagedPayload_frame in H as (? & ? & ?)
         | H : fetchData _ _ _ _ = Done _ _ |- _ =>
             apply fetchData_frame in H as (? & ? & ?)
         | H : print _ _ = Done _ _ |- _ => unfold print in H; simplify_eq
         end.
  all: unfold sink_inv; simpl;
    rewrite ?consumed_snoc, ?emitted_snoc, ?failure_lines_snoc; simpl;
    rewrite ?app_nil_r.
  all: try (split_and!;
            first [ done | congruence
                  | intros; simplify_eq; first [done | congruence | by auto]
                  | idtac ]).
  all: first [ by rewrite Hem, <- app_assoc
             | intros Hc; destruct (Hexit Hc); done ].
Qed.

Lemma sink_inv_exec schedule s s' :
  sink_inv w0 s -> exec R schedule s = Moved s' -> sink_inv w0 s'.
Proof.
  revert s. induction schedule as [|a rest IH]; intros s Hinv Hexec; simpl in Hexec.
  - by simplify_eq.
  - destruct (step R a s) as [s1| |] eqn:Hstep; try done.
    eauto using sink_inv_step.
Qed.
End Sink.

(** C3.  In every run the row counter is the number of rows of the
    error-free results consumed, and each consumed result that carries an
    error has added one failure line (page number and error) to the log and
    nothing else; no count of failed pages is kept.  When the function
    returns, every result the workers emitted has been consumed and the
    value returned is the row counter. *)
Theorem sink_counts (R : Run) (w : World) (schedule : list Actor) (s : St) :
  exec R schedule (initial_state R w) = Moved s ->
  totalRows s = wrap (rows_in (consumed (events s))) /\
  failure_lines (stdout (world s)) =
    failure_lines (stdout w) ++ errored (consumed (events s)) /\
  forall n, caller s = MReturned n ->
            consumed (events s) = emitted (events s) /\
            n = wrap (rows_in (emitted (events s))).
Proof.
  intros Hexec.
  destruct (sink_inv_exec R w schedule _ _ (sink_inv_initial R w) Hexec)
    as (Hrows & Hlines & Hem & Hexit & Hret).
  split; [done|]. split; [done|].
  intros n Hn. destruct (Hret n Hn) as [Hc ->].
  destruct (Hexit Hc) as [Hres _]. rewrite Hres, app_nil_r in Hem.
  by rewrite Hem.
Qed.

Lemma sink_counts_witness :
  totalRows example_final = wrap (rows_in (consumed (events example_final))) /\
  failure_lines (stdout (world example_final)) =
    failure_lines (stdout example_world) ++ errored (consumed (events example_final)) /\
  forall n, caller example_final = MReturned n ->
            consumed (events example_final) = emitted (events example_final) /\
            n = wrap (rows_in (emitted (events example_final))).
Proof.
  apply (sink_counts example_Run example_world example_schedule).
  exact example_exec.
Defined.

(** Two runs that end in the same summary, one with a failed page and one
    with none; and a run that writes two rows where the endpoint announced
    one record. *)
Lemma sink_counts_counterexample :
  match run_example example_env example_df, run_example quiet_env example_df with
  | Some a, Some b =>
      (caller a, last (stdout (world a))) = (caller b, last (stdout (world b))) /\
      caller a = MReturned 4 /\
      last (stdout (world a)) = Some (LCompleted 4) /\
      length (errored (emitted (events a))) = 1%nat /\
      length (errored (emitted (events b))) = 0%nat
  | _, _ => False
  end /\
  match run_example generous_env generous_df with
  | Some c =>
      stdout (world c) !! 1%nat = Some (LTotals 1 1) /\
      caller c = MReturned 2 /\
      length (errored (emitted (events c))) = 0%nat
  | None => False
  end.
Proof.
  vm_compute. split_and!; reflexivity.
Qed.

(** ** A single fetch *)

Lemma length_append (s1 s2 : string) :
  String.length (s1 ++ s2)%string = (String.length s1 + String.length s2)%nat.
Proof.
  induction s1 as [|a s1 IH]; [done|].
  rewrite append_cons. simpl. by rewrite IH.
Qed.

Lemma length_substring_0 (m : nat) : forall s : string,
  String.length (String.substring 0 m s) = Nat.min m (String.length s).
Proof.
  induction m as [|m IH]; intros [|a s]; simpl; try done.
  by rewrite IH.
Qed.

(** The preview is the body when that has at most 100 bytes, and otherwise
    its first 100 bytes followed by three dots. *)
Lemma body_preview_length body :
  (String.length (body_preview body) <= 103)%nat /\
  ((String.length body <= 100)%nat -> body_preview body = body) /\
  ((100 < String.length body)%nat ->
   body_preview body = (String.substring 0 100 body ++ "...")%string /\
   String.length (body_preview body) = 103%nat).
Proof.
  unfold body_preview.
  destruct (decide (100 < String.length body)%nat) as [Hlong|Hshort].
  - rewrite length_append, length_substring_0.
    change (String.length "...") with 3%nat.
    split_and!; [lia | lia | intros _; split; [done | lia]].
  - split_and!; [lia | done | lia].
Qed.

(** C5.  [fetchData] always returns.  A payload that cannot be encoded, or
    a URL no request can be built for, fails without anything being sent.
    Otherwise exactly one request is sent, and the fetch succeeds exactly
    when the reply has status 200 and a body that decodes; any other
    status fails with that status and the whole body, an undecodable body
    with a preview of at most 103 bytes, a transport or read error with
    its detail. *)
Theorem fetchData_outcomes (env : Env) (df : DataFetcher) (payload : Payload) (w : World) :
  exists r w',
    fetchData env df payload w = Done r w' /\
    heap w' = heap w /\ files w' = files w /\ stdout w' = stdout w /\
    match json_Marshal (heap w) payload, new_request_error env (baseURL df) with
    | None, _ => (exists detail, r = inr (ErrMarshal detail)) /\ sent w' = sent w
    | Some _, Some detail => r = inr (ErrNewRequest detail) /\ sent w' = sent w
    | Some jsonData, None =>
        let req := mkRequest (baseURL df) jsonData in
        let outcome := transport env (length (sent w)) req in
        sent w' = sent w ++ [req] /\
        (forall response,
            r = inl response <->
            exists body, outcome = Reply 200 body /\
                         json_Unmarshal env body = inl response) /\
        (forall code body,
            outcome = Reply code body -> code <> 200%Z ->
            r = inr (ErrStatus code body)) /\
        (forall body detail,
            outcome = Reply 200 body -> json_Unmarshal env body = inr detail ->
            r = inr (ErrDecode detail (body_preview body)) /\
            (String.length (body_preview body) <= 103)%nat) /\
        (forall detail, outcome = DoError detail -> r = inr (ErrDo detail)) /\
        (forall detail, outcome = ReadError detail -> r = inr (ErrReadBody detail))
    end.
Proof.
  unfold fetchData, client_Do. go_unfold. simpl.
  destruct (json_Marshal (heap w) payload) as [jsonData|];
    [|by eauto 10].
  destruct (new_request_error env (baseURL df)) as [detail|];
    [by eauto 10|].
  destruct (transport env (length (sent w)) (mkRequest (baseURL df) jsonData))
    as [d|d|status body] eqn:Hout.
  all: try (unfold StatusOK; destruct (decide (status ≠ 200%Z)) as [Hne|Heq];
            [|apply dec_stable in Heq; subst status;
              destruct (json_Unmarshal env body) as [response|detail] eqn:Hdec]).
  all: do 2 eexists; split_and!; try done.
  all: try (intros; simplify_eq; done).
  all: try (intros response'; split;
            [ intros; simplify_eq; eauto
            | intros (? & ? & ?); simplify_eq; done ]).
  - intros response'. split.
    + intros [= <-]. eauto.
    + intros (? & [= <-] & ?). congruence.
  - intros ? ? [= <-] ?. congruence.
  - intros response'. split; [done|].
    intros (? & [= <-] & ?). congruence.
  - intros ? ? [= <-] ?. split; [congruence|]. apply body_preview_length.
Qed.

(** A reply with status 201 and a body that decodes is a failure, and the
    preview of a 101-byte body that does not decode has 103 bytes. *)
Lemma fetchData_outcomes_counterexample :
  match fetchData
          (mkEnv (fun _ => None) (fun _ _ => Reply 201 "page0")
                 (json_Unmarshal example_env) (fun _ => "1") (fun _ => None) "")
          example_df example_base example_template.2 with
  | Done r _ => r = inr (ErrStatus 201 "page0")
  | Panicked _ => False
  end /\
  json_Unmarshal example_env "page0" = inl (example_response 5 2) /\
  String.length
    (body_preview
       "0123456789012345678901234567890123456789012345678901234567890123456789012345678901234567890123456789X")
  = 103%nat.
Proof. vm_compute. auto. Qed.

(** ** The worker loop *)

(** C6.  One worker, three pages, and a transport that fails the worker's
    first request: the worker emits a result for page 1 and dequeues page 2
    with no sleep in between; it sleeps only after page 2, which came back
    with rows. *)
Theorem failed_fetch_is_not_paced :
  match run_example flaky_env single_df with
  | Some s =>
      of_worker 0 (events s) =
        [EvRecv 0 (mkTask 1 0);
         EvFetch 0 (mkTask 1 0);
         EvEmit 0 (mkPageResult 1 None (Some (ErrDo "timeout")));
         EvRecv 0 (mkTask 2 2);
         EvFetch 0 (mkTask 2 2);
         EvEmit 0 (mkPageResult 2 (Some (example_rows 2)) None);
         EvSleep 0 500000000;
         EvRecv 0 (mkTask 3 4);
         EvFetch 0 (mkTask 3 4);
         EvEmit 0 (mkPageResult 3 None (Some (ErrStatus 500 "busy")))] /\
      caller s = MReturned 2
  | None => False
  end.
Proof. vm_compute. auto. Qed.

(** ** The head of the run *)

Lemma pagedPayload_stdout base ps off w out r w1 :
  pagedPayload base ps off w = Done r w1 ->
  pagedPayload base ps off (set_stdout out w) = Done r (set_stdout out w1).
Proof.
  unfold pagedPayload, set_stdout. intros H. go_unfold. simpl in *.
  repeat (case_match; go_unfold; simpl in *; simplify_eq); done.
Qed.

Lemma fetchData_stdout env df payload w out r w1 :
  fetchData env df payload w = Done r w1 ->
  fetchData env df payload (set_stdout out w) = Done r (set_stdout out w1).
Proof.
  unfold fetchData, client_Do, set_stdout. intros H. go_unfold. simpl in *.
  repeat (case_match; go_unfold; simpl in *; simplify_eq); done.
Qed.

Lemma priming_stdout env df base w out r w1 :
  priming env df base w = Done r w1 ->
  priming env df base (set_stdout out w) = Done r (set_stdout out w1).
Proof.
  unfold priming, mbind, Go_bind. intros H.
  destruct (pagedPayload base (pageSize df) 0 w) as [p w0|] eqn:Hp; [|done].
  rewrite (pagedPayload_stdout _ _ _ _ out _ _ Hp).
  by apply fetchData_stdout.
Qed.

(** The priming call leaves the files alone and sends at most one
    request. *)
Lemma priming_frame env df base w r w1 :
  priming env df base w = Done r w1 ->
  files w1 = files w /\ stdout w1 = stdout w /\
  (sent w1 = sent w \/ exists req, sent w1 = sent w ++ [req]) /\
  (forall response, r = inl response -> exists req, sent w1 = sent w ++ [req]).
Proof.
  unfold priming, mbind, Go_bind. intros H.
  destruct (pagedPayload base (pageSize df) 0 w) as [p w0|] eqn:Hp; [|done].
  apply pagedPayload_frame in Hp as (Hout & Hfiles & Hsent).
  destruct (fetchData_frame _ _ _ _ _ _ H) as (Hout' & Hfiles' & _).
  destruct (fetchData_sent _ _ _ _ _ _ H) as (Hsent1 & Hsent2).
  rewrite <- Hsent. split; [congruence|]. split; [congruence|]. done.
Qed.

Lemma head_of_run_unfold env df base file w r w1 :
  priming env df base w = Done r w1 ->
  head_of_run env df base file w =
  plan_run env df (output_name env df file) r
    (set_stdout (stdout w ++ [LStart (pageSize df) (maxWorkers df)
                                (output_name env df file)]) w1).
Proof.
  intros H. unfold head_of_run.
  unfold mbind, Go_bind, print.
  pose proof (priming_stdout env df base w
                (stdout w ++ [LStart (pageSize df) (maxWorkers df)
                                (output_name env df file)]) r w1 H) as H'.
  unfold set_stdout in H' at 1. by rewrite H'.
Qed.

(** A head that has returned is the whole function. *)
Lemma Returns_of_head env df base file w n err w' :
  head_of_run env df base file w = Done (Returned n err) w' ->
  Returns env df base file w n err w' /\
  forall n' err' w'', Returns env df base file w n' err' w'' ->
                      n' = n /\ err' = err /\ w'' = w'.
Proof.
  intros Hhead. split; [by constructor|].
  intros n' err' w'' Hret.
  inversion Hret as [? ? ? H|? ? ? ? ? ? H]; rewrite Hhead in H; by simplify_eq.
Qed.

(** C7.  When the priming response announces a count of zero, the function
    returns [(0, nil)] from its head: no file is created, the priming
    request is the only request sent, and the channels and goroutines are
    never set up. *)
Theorem zero_count_ends_run (env : Env) (df : DataFetcher) (base : Payload)
    (file : string) (w : World) (response : Response) (w1 : World)
    (resultBlock : ResponseBlock) :
  priming env df base w = Done (inl response) w1 ->
  Response_Blocks response !! "result" = Some resultBlock ->
  Attr_Count resultBlock = 0%Z ->
  exists w',
    head_of_run env df base file w = Done (Returned 0 None) w' /\
    files w' = files w /\
    (exists req, sent w' = sent w ++ [req]) /\
    Returns env df base file w 0 None w' /\
    forall n err w'', Returns env df base file w n err w'' ->
                      n = 0%Z /\ err = None /\ w'' = w'.
Proof.
  intros Hprime Hblock Hcount.
  pose proof (head_of_run_unfold env df base file w _ _ Hprime) as Hhead.
  unfold plan_run in Hhead. rewrite Hblock, Hcount in Hhead.
  rewrite decide_True in Hhead by done.
  unfold mbind, Go_bind, print, mret, Go_ret, set_stdout in Hhead. simpl in Hhead.
  destruct (priming_frame env df base w _ _ Hprime) as (Hfiles & _ & _ & Hsent).
  destruct (Hsent response eq_refl) as [req Hreq].
  eexists. split; [exact Hhead|]. simpl.
  split; [done|]. split; [by exists req|].
  by apply Returns_of_head.
Qed.

Lemma zero_count_ends_run_witness :
  exists w',
    head_of_run empty_env example_df example_base "out.csv" example_template.2
    = Done (Returned 0 None) w' /\
    files w' = files example_template.2 /\
    (exists req, sent w' = sent example_template.2 ++ [req]) /\
    Returns empty_env example_df example_base "out.csv" example_template.2 0 None w' /\
    forall n err w'',
      Returns empty_env example_df example_base "out.csv" example_template.2 n err w'' ->
      n = 0%Z /\ err = None /\ w'' = w'.
Proof.
  apply (zero_count_ends_run empty_env example_df example_base "out.csv"
           example_template.2 (example_response 0 0)
           (world_after (priming empty_env example_df example_base) example_template.2)
           (mkResponseBlock (Some []) 0)).
  - vm_compute. reflexivity.
  - vm_compute. reflexivity.
  - reflexivity.
Defined.

(** C8.  When the priming fetch fails, whatever the failure, the function
    returns that failure from its head: no file is created, and the
    channels and goroutines are never set up. *)
Theorem priming_failure_fails_run (env : Env) (df : DataFetcher) (base : Payload)
    (file : string) (w : World) (err : FetchError) (w1 : World) :
  priming env df base w = Done (inr err) w1 ->
  exists w',
    head_of_run env df base file w
    = Done (Returned 0 (Some (ErrFirstRequest err))) w' /\
    files w' = files w /\
    Returns env df base file w 0 (Some (ErrFirstRequest err)) w' /\
    forall n e w'', Returns env df base file w n e w'' ->
                    n = 0%Z /\ e = Some (ErrFirstRequest err) /\ w'' = w'.
Proof.
  intros Hprime.
  pose proof (head_of_run_unfold env df base file w _ _ Hprime) as Hhead.
  unfold plan_run, mret, Go_ret in Hhead.
  destruct (priming_frame env df base w _ _ Hprime) as (Hfiles & _).
  eexists. split; [exact Hhead|]. split; [done|].
  by apply Returns_of_head.
Qed.

Lemma priming_failure_fails_run_witness :
  exists w',
    head_of_run down_env example_df example_base "out.csv" example_template.2
    = Done (Returned 0 (Some (ErrFirstRequest (ErrDo "connection refused")))) w' /\
    files w' = files example_template.2 /\
    Returns down_env example_df example_base "out.csv" example_template.2 0
            (Some (ErrFirstRequest (ErrDo "connection refused"))) w' /\
    forall n e w'',
      Returns down_env example_df example_base "out.csv" example_template.2 n e w'' ->
      n = 0%Z /\ e = Some (ErrFirstRequest (ErrDo "connection refused")) /\ w'' = w'.
Proof.
  apply (priming_failure_fails_run down_env example_df example_base "out.csv"
           example_template.2 (ErrDo "connection refused")
           (world_after (priming down_env example_df example_base) example_template.2)).
  vm_compute. reflexivity.
Defined.

(** ** Further properties of the worker loop *)

(** A worker that finds the context cancelled when it checks exits with
    the descriptor in hand: no request is sent and no result emitted. *)
Theorem cancelled_worker_exits (R : Run) (i : nat) (s : St) (task : Task) :
  workers s !! i = Some (WCheck task) ->
  ctx_done s = true ->
  exists s', worker_step R i s = Moved s' /\
             workers s' !! i = Some WExit /\
             world s' = world s /\ results s' = results s /\
             events s' = events s /\
             worker_step R i s' = Blocked.
Proof.
  intros Hpc Hctx. pose proof (lookup_lt_Some _ _ _ Hpc) as Hi.
  eexists. split.
  - unfold worker_step. by rewrite Hpc, Hctx.
  - simpl. rewrite list_lookup_insert_eq by done. split_and!; try done.
    unfold worker_step. simpl. by rewrite list_lookup_insert_eq.
Qed.

Lemma cancelled_worker_exits_witness :
  exists s', worker_step example_Run 0 example_cancelled = Moved s' /\
             workers s' !! 0%nat = Some WExit /\
             world s' = world example_cancelled /\
             results s' = results example_cancelled /\
             events s' = events example_cancelled /\
             worker_step example_Run 0 s' = Blocked.
Proof.
  apply (cancelled_worker_exits example_Run 0 example_cancelled (mkTask 2 2));
    reflexivity.
Defined.

Local Open Scope list_scope.

(** ** Patching the template *)

(** [pagedPayload] succeeds exactly on a template that can be patched. *)
Lemma pagedPayload_ok base ps off w :
  template_ok (heap w) base ->
  exists w', pagedPayload base ps off w = Done base w' /\
             template_ok (heap w') base.
Proof.
  intros (bm & l & am & Hbm & Hattr & Ham).
  destruct (pagedPayload base ps off w) as [p w'|reason] eqn:H.
  - destruct (pagedPayload_writes_template _ _ _ _ _ _ H) as (-> & _).
    exists w'. split; [done|].
    unfold pagedPayload in H. go_unfold. simpl in H.
    rewrite Hbm in H. simpl in H. rewrite Hattr in H. simpl in H.
    rewrite Ham in H. simpl in H.
    repeat (case_match; go_unfold; simpl in *; simplify_eq).
    unfold template_ok. simpl.
    eexists. exists l. eexists.
    split; [apply lookup_insert_eq|]. rewrite lookup_insert_eq. simpl.
    split; [done|]. apply lookup_insert_eq.
  - exfalso. unfold pagedPayload in H. go_unfold. simpl in H.
    rewrite Hbm in H. simpl in H. rewrite Hattr in H. simpl in H.
    rewrite Ham in H. simpl in H.
    repeat (case_match; go_unfold; simpl in *; simplify_eq).
    all: repeat match goal with
           | H : <[_ := _]> _ !! _ = None |- _ =>
               rewrite lookup_insert_eq in H; simplify_eq
           end.
    simpl in *. congruence.
Qed.

Lemma fetchData_returns env df payload w :
  exists r w', fetchData env df payload w = Done r w'.
Proof.
  unfold fetchData, client_Do. go_unfold. simpl.
  repeat case_match; eauto.
Qed.

Lemma write_rows_returns env file rows : forall n w,
  exists n' w', write_rows env file rows n w = Done n' w' /\ heap w' = heap w.
Proof.
  induction rows as [|row rows IH]; intros n w; simpl; [by eauto|].
  unfold mbind, Go_bind, writer_Write. simpl.
  edestruct IH as (n' & w' & -> & Hh). eauto.
Qed.

Lemma consume_returns env file r n w :
  exists n' w', consume env file r n w = Done n' w' /\ heap w' = heap w.
Proof.
  unfold consume. destruct (Err r); [by eauto|].
  destruct (Result_Rows r); [apply write_rows_returns | by eauto].
Qed.

(** ** Safety and progress of a run *)

Lemma all_exited_lookup ws i pc :
  all_exited ws = true -> ws !! i = Some pc -> pc = WExit.
Proof.
  revert i. induction ws as [|w ws IH]; intros i Hall Hi; [done|].
  simpl in Hall. apply andb_prop in Hall as [Hw Hall].
  destruct i as [|i]; simpl in Hi.
  - simplify_eq. by destruct pc.
  - by apply (IH i).
Qed.

Lemma not_all_exited ws :
  all_exited ws = false -> exists i pc, ws !! i = Some pc /\ pc <> WExit.
Proof.
  induction ws as [|w ws IH]; simpl; [done|].
  destruct w; try (intros _; by eexists 0%nat, _).
  intros (i & pc & ? & ?)%IH. by exists (S i), pc.
Qed.

Lemma pagedPayload_ok_inv base ps off w p w' :
  pagedPayload base ps off w = Done p w' ->
  template_ok (heap w) base ->
  p = base /\ template_ok (heap w') base /\ True.
Proof.
  intros H Hok. destruct (pagedPayload_ok base ps off w Hok) as (w1 & H1 & Hok1).
  rewrite H1 in H. by simplify_eq.
Qed.

Lemma consume_heap env file r n w n' w' :
  consume env file r n w = Done n' w' -> heap w' = heap w.
Proof.
  intros H. destruct (consume_returns env file r n w) as (? & ? & H1 & ?).
  rewrite H1 in H. by simplify_eq.
Qed.

Section RunInvariant.
Variable R : Run.
Hypothesis totalPages_int : (run_totalPages R <= max_int)%Z.

Lemma run_inv_initial w :
  template_ok (heap w) (run_basePayload R) -> run_inv R (initial_state R w).
Proof.
  intros Hok. unfold run_inv. simpl. rewrite length_replicate.
  split_and!; try done.
  intros page [= <-]. lia.
Qed.

Lemma run_inv_step a s s' :
  run_inv R s -> step R a s = Moved s' -> run_inv R s'.
Proof.
  intros (Hok & Hprod & Hpage & Hclosed & Hcons & Hcall & Hret & Hlen) Hstep.
  assert (Hlive : forall i pc, workers s !! i = Some pc -> pc <> WExit ->
                               results_closed s = false).
  { intros i pc Hi Hne. destruct (results_closed s) eqn:Hc; [|done].
    by rewrite (all_exited_lookup _ _ _ (Hclosed eq_refl) Hi) in Hne. }
  step_cases Hstep.
  all: repeat match goal with
         | H : pagedPayload _ _ _ ?w = Done _ _ |- _ =>
             apply pagedPayload_ok_inv in H as (-> & ? & ?); [|done]
         | H : fetchData _ _ _ _ = Done _ _ |- _ =>
             apply fetchData_frame in H as (? & ? & ?)
         | H : print _ _ = Done _ _ |- _ => unfold print in H; simplify_eq
         | H : consume _ _ _ _ _ = Done _ _ |- _ =>
             apply consume_heap in H
         end.
  all: try match goal with
         | H : workers ?s0 !! ?i = Some ?pc |- _ =>
             assert (results_closed s0 = false) by (by apply (Hlive i pc))
         end.
  all: unfold run_inv; simpl; rewrite ?length_insert.
  all: split_and!; try assumption.
  all: try (intros; congruence).
  all: try tauto.
  all: try (split; intros; simplify_eq; fail).
  all: try (intros Hc; destruct (Hcons Hc); congruence).
  all: try (intros n Hn; apply Hret in Hn; done).
  all: try (intros page0 Hp0; destruct (Hpage page0 Hp0) as [? Hl];
            split; [done|]; revert Hl;
            repeat match goal with H : tasks _ = _ |- _ => rewrite H end;
            simpl; lia).
  - split; [done|]. intros Ht. by apply Hprod in Ht.
  - intros page0 [= <-]. destruct (Hpage page eq_refl) as [? Hl].
    unfold int_add. rewrite wrap_small by (unfold min_int, int_bits; lia).
    rewrite length_app. simpl. lia.
  - split; [done|]. intros Hf. apply Hcall in Hf. done.
  - split; [done|]. intros Hf. apply Hcall in Hf. done.
Qed.

Lemma run_inv_exec schedule s s' :
  run_inv R s -> exec R schedule s = Moved s' -> run_inv R s'.
Proof.
  revert s. induction schedule as [|a rest IH]; intros s Hinv Hexec; simpl in Hexec.
  - by simplify_eq.
  - destruct (step R a s) as [s1| |] eqn:Hstep; try done.
    eauto using run_inv_step.
Qed.
End RunInvariant.

Section RunProgress.
Variable R : Run.
Hypothesis totalPages_int : (run_totalPages R <= max_int)%Z.

(** No step of a run whose template can be patched panics, and no worker
    ever sends on the closed results channel. *)
Lemma step_never_crashes a s reason :
  run_inv R s -> step R a s <> Crashed reason.
Proof.
  intros (Hok & Hprod & Hpage & Hclosed & Hcons & Hcall & Hret & Hlen) Hstep.
  assert (Hlive : forall i pc, workers s !! i = Some pc -> pc <> WExit ->
                               results_closed s = false).
  { intros i pc Hi Hne. destruct (results_closed s) eqn:Hc; [|done].
    by rewrite (all_exited_lookup _ _ _ (Hclosed eq_refl) Hi) in Hne. }
  step_cases Hstep.
  all: try match goal with
         | H : workers ?s0 !! ?i = Some ?pc |- _ =>
             assert (results_closed s0 = false) by (by apply (Hlive i pc))
         end.
  all: try congruence.
  all: try match goal with
         | H : pagedPayload ?b ?ps ?off ?w = Panicked _ |- _ =>
             destruct (pagedPayload_ok b ps off w Hok) as (? & ? & _); congruence
         | H : fetchData ?e ?d ?p ?w = Panicked _ |- _ =>
             destruct (fetchData_returns e d p w) as (? & ? & ?); congruence
         | H : consume ?e ?f ?r ?n ?w = Panicked _ |- _ =>
             destruct (consume_returns e f r n w) as (? & ? & ? & _); congruence
         | H : print _ _ = Panicked _ |- _ => by unfold print in H
         end.
  all: match goal with
       | H : workers _ !! ?i = Some ?pc |- _ =>
           by specialize (Hlive i pc H ltac:(done))
       end.
Qed.


Lemma sum_weight_insert (ws : list Worker) i old new :
  ws !! i = Some old ->
  (sum_list (worker_weight <$> <[i:=new]> ws) + worker_weight old =
   sum_list (worker_weight <$> ws) + worker_weight new)%nat.
Proof.
  revert i. induction ws as [|w ws IH]; intros [|i] Hi; simplify_eq/=; [lia|].
  specialize (IH i Hi). lia.
Qed.

(** Every step of the program uses up some of the steps left. *)
Lemma steps_left_step a s s' :
  run_inv R s -> step R a s = Moved s' -> a <> ACancel ->
  (steps_left R s' < steps_left R s)%nat.
Proof.
  intros (Hok & Hprod & Hpage & Hclosed & Hcons & Hcall & Hret & Hlen) Hstep Ha.
  step_cases Hstep.
  all: unfold steps_left; simpl; rewrite ?length_app; simpl.
  all: try match goal with
         | H : workers ?s0 !! ?i = Some ?old |- context [<[?i := ?new]> (workers ?s0)] =>
             pose proof (sum_weight_insert (workers s0) i old new H) as Hsum;
             simpl in Hsum
         end.
  all: repeat match goal with
         | H : _ = _ |- _ => rewrite H
         end; simpl.
  all: try lia.
  destruct (Hpage page eq_refl) as [? _].
  unfold int_add. rewrite wrap_small by (unfold min_int, int_bits; lia). lia.
Qed.

Lemma steps_left_exec schedule : forall s s',
  run_inv R s -> exec R schedule s = Moved s' ->
  (program_steps schedule + steps_left R s' <= steps_left R s)%nat.
Proof.
  induction schedule as [|a rest IH]; intros s s' Hinv Hexec; simpl in Hexec.
  - simplify_eq. unfold program_steps. simpl. lia.
  - destruct (step R a s) as [s1| |] eqn:Hstep; try done.
    pose proof (run_inv_step R totalPages_int a s s1 Hinv Hstep) as Hinv1.
    specialize (IH s1 s' Hinv1 Hexec).
    assert (a = ACancel \/ a <> ACancel) as [->|Hne]
      by (destruct a; (by left) || (by right)).
    + simpl in Hstep. simplify_eq. unfold program_steps in *. simpl in *.
      unfold steps_left in *. simpl in *. lia.
    + pose proof (steps_left_step a s s1 Hinv Hstep Hne).
      unfold program_steps in *. simpl. destruct a; simpl; try done; lia.
Qed.

(** A run that has not returned can take a step: some goroutine is
    neither blocked nor finished. *)
Lemma can_step s :
  run_inv R s -> (forall n, caller s <> MReturned n) ->
  exists a s', a ∈ candidates R /\ step R a s = Moved s'.
Proof.
  intros (Hok & Hprod & Hpage & Hclosed & Hcons & Hcall & Hret & Hlen) Hrun.
  assert (Hconsume : forall r rest, results s = r :: rest -> consumer s = CRange ->
            exists s', step R AConsumer s = Moved s').
  { intros r rest Hres Hc. simpl. unfold consumer_step. rewrite Hc, Hres.
    destruct (consume_returns (run_env R) (run_csvFilename R) r (totalRows s) (world s))
      as (n' & w' & -> & _). eauto. }
  assert (Hcand_cons : AConsumer ∈ candidates R).
  { unfold candidates. do 2 apply list_elem_of_further. apply list_elem_of_here. }
  assert (Hcand_call : ACaller ∈ candidates R).
  { unfold candidates. apply list_elem_of_further, list_elem_of_here. }
  assert (Hcand_prod : AProducer false ∈ candidates R).
  { unfold candidates. apply list_elem_of_here. }
  destruct (caller s) as [| |n0] eqn:Hcaller.
  - (* waiting for the workers *)
    destruct (all_exited (workers s)) eqn:Hall.
    { exists ACaller. eexists. split; [done|]. simpl. unfold caller_step.
      by rewrite Hcaller, Hall. }
    apply not_all_exited in Hall as (i & pc & Hi & Hne).
    assert (Hopen : results_closed s = false) by (by apply Hcall).
    assert (Hcand : AWorker i ∈ candidates R).
    { unfold candidates. do 3 apply list_elem_of_further.
      apply list_elem_of_fmap. exists i. split; [done|].
      apply elem_of_seq. apply lookup_lt_Some in Hi. lia. }
    assert (Hsend : forall r next,
              (exists s', send_result R i r next s = Moved s') \/
              exists s', step R AConsumer s = Moved s').
    { intros r next. unfold send_result. rewrite Hopen.
      destruct (decide (Z.of_nat (length (results s)) < maxWorkers (run_df R))%Z);
        [by eauto|].
      right. destruct (results s) as [|r0 rest] eqn:Hres.
      - apply lookup_lt_Some in Hi. simpl in *. lia.
      - apply (Hconsume r0 rest eq_refl).
        destruct (consumer s) eqn:Hc; [done|].
        destruct (Hcons eq_refl). congruence. }
    destruct pc; try done.
    + (* at the head of the loop *)
      destruct (tasks s) as [|t rest] eqn:Htasks.
      * destruct (tasks_closed s) eqn:Hcl.
        -- exists (AWorker i). eexists. split; [done|]. simpl.
           unfold worker_step. by rewrite Hi, Htasks, Hcl.
        -- destruct (producer s) as [page|] eqn:Hp.
           2: { destruct Hprod as [Hprod _]. by specialize (Hprod eq_refl). }
           exists (AProducer false). destruct (Hpage page eq_refl) as [? ?].
           simpl. unfold producer_step. rewrite Hp.
           destruct (decide (page < run_totalPages R)%Z); [|by eauto].
           rewrite decide_True by (rewrite Htasks; simpl; lia). eauto.
      * exists (AWorker i). eexists. split; [done|]. simpl.
        unfold worker_step. by rewrite Hi, Htasks.
    + exists (AWorker i). simpl. unfold worker_step. rewrite Hi.
      destruct (ctx_done s); eauto.
    + exists (AWorker i). simpl. unfold worker_step. rewrite Hi.
      destruct (pagedPayload_ok (run_basePayload R) (pageSize (run_df R))
                  (offset task) (world s) Hok) as (w' & -> & _). eauto.
    + exists (AWorker i). simpl. unfold worker_step. rewrite Hi.
      destruct (fetchData_returns (run_env R) (run_df R) payload (world s))
        as ([response|err] & w' & ->); [|by eauto].
      destruct (Response_Blocks response !! "result"); by eauto.
    + destruct (Hsend (mkPageResult (pageNum task) None (Some err)) WRange)
        as [[s' Hs]|[s' Hs]]; [|by eauto].
      exists (AWorker i), s'. split; [done|]. simpl. unfold worker_step. by rewrite Hi.
    + destruct (Hsend (mkPageResult (pageNum task) (Some []) None) WRange)
        as [[s' Hs]|[s' Hs]]; [|by eauto].
      exists (AWorker i), s'. split; [done|]. simpl. unfold worker_step. by rewrite Hi.
    + destruct (Hsend (mkPageResult (pageNum task) rows None) WSleep)
        as [[s' Hs]|[s' Hs]]; [|by eauto].
      exists (AWorker i), s'. split; [done|]. simpl. unfold worker_step. by rewrite Hi.
    + exists (AWorker i). simpl. unfold worker_step. rewrite Hi. eauto.
  - (* waiting for the consumer *)
    destruct (consumer s) eqn:Hc.
    + destruct (results s) as [|r rest] eqn:Hres.
      * exists AConsumer. eexists. split; [done|]. simpl. unfold consumer_step.
        rewrite Hc, Hres.
        destruct (results_closed s) eqn:Hcl; [done|].
        destruct Hcall as [_ Hcall]. by specialize (Hcall eq_refl).
      * destruct (Hconsume r rest eq_refl eq_refl) as [s' Hs]. eauto.
    + exists ACaller. eexists. split; [done|]. simpl. unfold caller_step.
      by rewrite Hcaller, Hc.
  - by destruct (Hrun n0).
Qed.
End RunProgress.

Lemma first_enabled_complete R cands s a s' :
  a ∈ cands -> step R a s = Moved s' ->
  exists a' s'', first_enabled R cands s = Some (a', s'').
Proof.
  induction cands as [|c cands IH]; intros Hin Hstep.
  - by apply elem_of_nil in Hin.
  - cbn [first_enabled]. destruct (step R c s) eqn:Hc; try by eauto.
    + apply elem_of_cons in Hin as [->|Hin]; [congruence|]. by apply IH.
    + apply elem_of_cons in Hin as [->|Hin]; [congruence|]. by apply IH.
Qed.

Lemma first_enabled_elem R cands s a s' :
  first_enabled R cands s = Some (a, s') -> a ∈ cands.
Proof.
  induction cands as [|c cands IH]; cbn [first_enabled]; [done|].
  destruct (step R c s); intros H; simplify_eq;
    first [ apply list_elem_of_here | apply list_elem_of_further; auto ].
Qed.

Lemma first_enabled_not_cancel R s a s' :
  first_enabled R (candidates R) s = Some (a, s') -> a <> ACancel.
Proof.
  intros Hin%first_enabled_elem. unfold candidates in Hin.
  repeat (apply elem_of_cons in Hin as [->|Hin]; [done|]).
  apply list_elem_of_fmap in Hin as (i & -> & _). done.
Qed.

Lemma run_to_end_no_cancel R fuel : forall s,
  program_steps (run_to_end R fuel s).1 = length (run_to_end R fuel s).1.
Proof.
  induction fuel as [|fuel IH]; intros s; [done|].
  cbn [run_to_end].
  destruct (first_enabled R (candidates R) s) as [[a s']|] eqn:Hfe; [|done].
  pose proof (first_enabled_not_cancel _ _ _ _ Hfe) as Hne.
  specialize (IH s'). destruct (run_to_end R fuel s') as [sched s''].
  unfold program_steps in *. simpl in *. destruct a; simpl; try done; by rewrite IH.
Qed.

Section RunCompletes.
Variable R : Run.
Hypothesis totalPages_int : (run_totalPages R <= max_int)%Z.

(** With fuel for the steps left, the scheduler [run_to_end] brings a run
    to its return. *)
Lemma run_to_end_returns fuel : forall s,
  run_inv R s -> (steps_left R s <= fuel)%nat ->
  exists n, caller (run_to_end R fuel s).2 = MReturned n.
Proof.
  induction fuel as [|fuel IH]; intros s Hinv Hfuel.
  - simpl. unfold steps_left in Hfuel.
    destruct (caller s); simpl in Hfuel; try lia. eauto.
  - cbn [run_to_end].
    destruct (first_enabled R (candidates R) s) as [[a s']|] eqn:Hfe.
    + pose proof (first_enabled_not_cancel _ _ _ _ Hfe) as Hne.
      apply first_enabled_step in Hfe.
      pose proof (steps_left_step R totalPages_int a s s' Hinv Hfe Hne).
      destruct (IH s') as [n Hn]; [by eapply run_inv_step | lia |].
      destruct (run_to_end R fuel s') as [sched s'']. simpl in *. eauto.
    + simpl. destruct (caller s) eqn:Hc; [| |by eauto].
      * destruct (can_step R s Hinv) as (a & s' & Hin & Hstep); [congruence|].
        destruct (first_enabled_complete _ _ _ _ _ Hin Hstep) as (? & ? & ?).
        congruence.
      * destruct (can_step R s Hinv) as (a & s' & Hin & Hstep); [congruence|].
        destruct (first_enabled_complete _ _ _ _ _ Hin Hstep) as (? & ? & ?).
        congruence.
Qed.
End RunCompletes.

Lemma sum_weight_replicate n :
  sum_list (worker_weight <$> replicate n WRange) = n.
Proof.
  induction n as [|n IH]; [done|].
  change (replicate (S n) WRange) with (WRange :: replicate n WRange).
  rewrite fmap_cons. cbn [sum_list worker_weight]. by rewrite IH.
Qed.

Lemma steps_left_initial R w :
  steps_left R (initial_state R w) =
  (4 + 9 * Z.to_nat (run_totalPages R) + Z.to_nat (maxWorkers (run_df R)))%nat.
Proof.
  unfold steps_left, initial_state.
  cbn [producer tasks workers results consumer caller producer_weight
       consumer_weight caller_weight length].
  rewrite sum_weight_replicate, Z.sub_0_r. lia.
Qed.

(** [pagedPayload] returns only on a template that can be patched. *)
Lemma pagedPayload_done base ps off w p w' :
  pagedPayload base ps off w = Done p w' -> template_ok (heap w) base.
Proof.
  unfold pagedPayload. intros H. go_unfold. simpl in H.
  destruct (blockmaps (heap w) !! Blocks base) as [bm|] eqn:Hbm; simpl in H.
  - destruct (Attr (default zero_PayloadBlock (bm !! "result"))) as [| | |l] eqn:Hattr;
      simpl in H; try done.
    destruct (attrs (heap w) !! l) as [am|] eqn:Ham; simpl in H; [|done].
    by exists bm, l, am.
  - done.
Qed.

(** What holds when the head hands over to the goroutines. *)
Lemma head_started env df base file w f totalPages w0 :
  head_of_run env df base file w = Done (Started f totalPages) w0 ->
  f = output_name env df file /\
  template_ok (heap w0) base /\
  (0 <= totalPages <= max_int)%Z /\
  (0 <= maxWorkers df)%Z /\
  files w0 !! f = Some (mkFile true [csvHeaders df]) /\
  (exists count, count <> 0%Z /\ totalPages_of count (pageSize df) = Some totalPages) /\
  exists req, sent w0 = sent w ++ [req].
Proof.
  unfold head_of_run. unfold mbind at 1 2, Go_bind. unfold print at 1.
  set (w1 := mkWorld _ _ _ _).
  destruct (priming env df base w1) as [r w2|] eqn:Hprime; [|done].
  intros Hplan.
  assert (Hok2 : template_ok (heap w2) base).
  { unfold priming, mbind, Go_bind in Hprime.
    destruct (pagedPayload base (pageSize df) 0 w1) as [p w'|] eqn:Hp; [|done].
    pose proof (pagedPayload_done _ _ _ _ _ _ Hp) as Hok.
    destruct (pagedPayload_ok base (pageSize df) 0 w1 Hok) as (w'' & Hp' & Hok').
    rewrite Hp in Hp'. simplify_eq.
    apply fetchData_frame in Hprime as (_ & _ & ->). done. }
  destruct (priming_frame _ _ _ _ _ _ Hprime) as (Hfiles & _ & _ & Hsent).
  unfold plan_run in Hplan.
  destruct r as [response|err]; [|done].
  destruct (Hsent response eq_refl) as [req Hreq].
  destruct (Response_Blocks response !! "result") as [rb|]; [|done].
  destruct (decide (Attr_Count rb = 0%Z)) as [|Hcount]; [done|].
  destruct (totalPages_of (Attr_Count rb) (pageSize df)) as [tp|] eqn:Htp; [|done].
  unfold mbind, Go_bind, print, os_Create, file_Write_BOM, writer_Write, mret, Go_ret
    in Hplan. simpl in Hplan.
  destruct (os_Create_error env (output_name env df file)); [done|]. simpl in Hplan.
  destruct (decide (tp < 0)%Z); [done|].
  destruct (decide (maxWorkers df < 0)%Z); [done|].
  simplify_eq. simpl.
  split; [done|]. split; [done|]. split.
  { split; [lia|]. unfold totalPages_of, int_div in Htp.
    destruct (decide (pageSize df = 0%Z)); [done|]. simplify_eq. apply wrap_range. }
  split; [lia|]. split.
  { rewrite !lookup_alter_eq, lookup_insert_eq. done. }
  split; [by eauto|]. exists req. by rewrite Hreq.
Qed.

Lemma example_template_ok : template_ok (heap example_world) example_base.
Proof.
  by destruct (head_started _ _ _ _ _ _ _ _ example_head) as (_ & ? & _).
Qed.



(** A run is never stuck: in every state a run can reach, either the
    function has returned or some goroutine can take a step. *)
Theorem run_never_stuck (R : Run) (w : World) (schedule : list Actor) (s : St) :
  template_ok (heap w) (run_basePayload R) ->
  (run_totalPages R <= max_int)%Z ->
  exec R schedule (initial_state R w) = Moved s ->
  (exists n, caller s = MReturned n) \/
  (exists a s', a <> ACancel /\ step R a s = Moved s').
Proof.
  intros Hok Hint Hexec.
  pose proof (run_inv_exec R Hint schedule _ _ (run_inv_initial R w Hok) Hexec) as Hinv.
  destruct (caller s) eqn:Hc; [| |by eauto].
  all: right; destruct (can_step R s Hinv) as (a & s' & Hin & Hstep); [congruence|].
  all: destruct (first_enabled_complete _ _ _ _ _ Hin Hstep) as (a' & s'' & Hfe).
  all: exists a', s''; split;
    [by eapply first_enabled_not_cancel | by eapply first_enabled_step].
Qed.

Lemma run_never_stuck_witness :
  (exists n, caller example_final = MReturned n) \/
  (exists a s', a <> ACancel /\ step example_Run a example_final = Moved s').
Proof.
  apply (run_never_stuck example_Run example_world example_schedule).
  - exact example_template_ok.
  - vm_compute. discriminate.
  - exact example_exec.
Defined.

(** A run takes at most [4 + 9 * totalPages + maxWorkers] steps of the
    program, however the steps are interleaved and whenever the context is
    cancelled. *)
Theorem run_steps_bounded (R : Run) (w : World) (schedule : list Actor) (s : St) :
  template_ok (heap w) (run_basePayload R) ->
  (run_totalPages R <= max_int)%Z ->
  exec R schedule (initial_state R w) = Moved s ->
  (program_steps schedule + steps_left R s <=
   4 + 9 * Z.to_nat (run_totalPages R) + Z.to_nat (maxWorkers (run_df R)))%nat.
Proof.
  intros Hok Hint Hexec. rewrite <- (steps_left_initial R w).
  apply steps_left_exec; [done | by apply run_inv_initial | done].
Qed.

Lemma run_steps_bounded_witness :
  (program_steps example_schedule + steps_left example_Run example_final <=
   4 + 9 * Z.to_nat (run_totalPages example_Run)
   + Z.to_nat (maxWorkers (run_df example_Run)))%nat.
Proof.
  apply (run_steps_bounded example_Run example_world example_schedule example_final).
  - exact example_template_ok.
  - vm_compute. discriminate.
  - exact example_exec.
Defined.

(** From every state a run can reach, the run can be brought to the
    function's return without cancelling, in no more steps than
    [steps_left] counts. *)
Theorem run_completes (R : Run) (w : World) (schedule : list Actor) (s : St) :
  template_ok (heap w) (run_basePayload R) ->
  (run_totalPages R <= max_int)%Z ->
  exec R schedule (initial_state R w) = Moved s ->
  exists rest s' n,
    exec R rest s = Moved s' /\ caller s' = MReturned n /\
    program_steps rest = length rest /\
    (length rest <= steps_left R s)%nat.
Proof.
  intros Hok Hint Hexec.
  pose proof (run_inv_exec R Hint schedule _ _ (run_inv_initial R w Hok) Hexec) as Hinv.
  destruct (run_to_end_returns R Hint (steps_left R s) s Hinv (le_n _)) as [n Hn].
  pose proof (run_to_end_exec R (steps_left R s) s) as Hrun.
  pose proof (run_to_end_no_cancel R (steps_left R s) s) as Hnc.
  exists (run_to_end R (steps_left R s) s).1, (run_to_end R (steps_left R s) s).2, n.
  split_and!; try done.
  pose proof (steps_left_exec R Hint _ _ _ Hinv Hrun). lia.
Qed.

Lemma run_completes_witness :
  exists rest s' n,
    exec example_Run rest (initial_state example_Run example_world) = Moved s' /\
    caller s' = MReturned n /\
    program_steps rest = length rest /\
    (length rest <= steps_left example_Run (initial_state example_Run example_world))%nat.
Proof.
  apply (run_completes example_Run example_world []).
  - exact example_template_ok.
  - vm_compute. discriminate.
  - reflexivity.
Defined.

(** ** The output file *)

Lemma write_rows_files env file rows : forall n w,
  exists n' w',
    write_rows env file rows n w = Done n' w' /\
    files w' !! file =
      (fun f => mkFile (bom f) (records f ++ (rowToStrings env <$> rows)))
        <$> files w !! file /\
    forall f, f <> file -> files w' !! f = files w !! f.
Proof.
  induction rows as [|row rows IH]; intros n w; simpl.
  - exists n, w. split; [done|]. split; [|done].
    destruct (files w !! file) as [[b recs]|]; simpl; [|done].
    by rewrite app_nil_r.
  - unfold mbind, Go_bind, writer_Write. simpl.
    edestruct IH as (n' & w' & -> & Hfile & Hother).
    exists n', w'. split; [done|]. simpl in *. split.
    + rewrite Hfile, lookup_alter_eq.
      destruct (files w !! file) as [[b recs]|]; simpl; [|done].
      by rewrite <- app_assoc.
    + intros f Hf. rewrite Hother by done. by rewrite lookup_alter_ne.
Qed.

Lemma consume_files env file r n w :
  exists n' w',
    consume env file r n w = Done n' w' /\
    files w' !! file =
      (fun f => mkFile (bom f) (records f ++ rows_written env [r]))
        <$> files w !! file /\
    forall f, f <> file -> files w' !! f = files w !! f.
Proof.
  unfold consume, rows_written. simpl. rewrite app_nil_r.
  destruct (Err r) as [e|].
  - unfold mbind, Go_bind, print, mret, Go_ret.
    eexists _, _. split; [reflexivity|]. simpl. split; [|done].
    destruct (files w !! file) as [[b recs]|]; simpl; [|done].
    by rewrite app_nil_r.
  - destruct (Result_Rows r) as [rows|]; simpl.
    + apply write_rows_files.
    + exists n, w. split; [done|]. split; [|done].
      destruct (files w !! file) as [[b recs]|]; simpl; [|done].
      by rewrite app_nil_r.
Qed.

Lemma rows_written_snoc env rs r :
  rows_written env (rs ++ [r]) = rows_written env rs ++ rows_written env [r].
Proof. unfold rows_written. by rewrite bind_app. Qed.

Lemma rows_written_cons env r rs :
  rows_written env (r :: rs) =
  match Err r with
  | Some _ => []
  | None => rowToStrings env <$> default [] (Result_Rows r)
  end ++ rows_written env rs.
Proof. reflexivity. Qed.

Lemma length_rows_written env rs :
  Z.of_nat (length (rows_written env rs)) = rows_in rs.
Proof.
  induction rs as [|r rs IH]; [done|].
  rewrite rows_written_cons, length_app, Nat2Z.inj_add, IH. simpl.
  destruct (Err r); simpl; [done|]. by rewrite length_fmap.
Qed.

Section OutputFile.
Variable R : Run.
Variable w0 : World.

Lemma file_inv_initial : file_inv R w0 (initial_state R w0).
Proof.
  split; [|done]. simpl.
  destruct (files w0 !! run_csvFilename R) as [[b recs]|]; simpl; [|done].
  by rewrite app_nil_r.
Qed.

Lemma file_inv_step a s s' :
  file_inv R w0 s -> step R a s = Moved s' -> file_inv R w0 s'.
Proof.
  intros [Hfile Hother] Hstep.
  destruct a as [take_done|i| | |].
  3: { simpl in Hstep. unfold consumer_step in Hstep.
       destruct (consumer s); [|done].
       destruct (results s) as [|r rest]; [by case_match; simplify_eq|].
       destruct (consume_files (run_env R) (run_csvFilename R) r (totalRows s) (world s))
         as (n' & w' & Hc & Hf & Ho).
       rewrite Hc in Hstep. simplify_eq. split; simpl.
       - rewrite consumed_snoc, rows_written_snoc. simpl. rewrite Hf, Hfile.
         destruct (files w0 !! run_csvFilename R) as [[b recs]|]; simpl; [|done].
         by rewrite <- app_assoc.
       - intros f Hne. rewrite Ho by done. by apply Hother. }
  all: step_cases Hstep.
  all: repeat match goal with
         | H : pagedPayload _ _ _ _ = Done _ _ |- _ =>
             apply pagedPayload_frame in H as (? & ? & ?)
         | H : fetchData _ _ _ _ = Done _ _ |- _ =>
             apply fetchData_frame in H as (? & ? & ?)
         | H : print _ _ = Done _ _ |- _ => unfold print in H; simplify_eq
         end.
  all: split; simpl; rewrite ?consumed_snoc; simpl; rewrite ?app_nil_r.
  all: first [ done | congruence
             | by (intros ? Hne; rewrite <- Hother by done; congruence) ].
Qed.

Lemma file_inv_exec schedule s s' :
  file_inv R w0 s -> exec R schedule s = Moved s' -> file_inv R w0 s'.
Proof.
  revert s. induction schedule as [|a rest IH]; intros s Hinv Hexec; simpl in Hexec.
  - by simplify_eq.
  - destruct (step R a s) as [s1| |] eqn:Hstep; try done.
    eauto using file_inv_step.
Qed.
End OutputFile.

(** ** Pages, fetches and results *)

Lemma fetched_snoc evs e :
  fetched (evs ++ [e]) =
  fetched evs ++ match e with EvFetch _ t => [t] | _ => [] end.
Proof. unfold fetched. rewrite omap_app. simpl. by destruct e. Qed.

Lemma bind_insert_perm {A} (f : Worker -> list A) ws i old new :
  ws !! i = Some old ->
  f old ++ (<[i:=new]> ws ≫= f) ≡ₚ f new ++ (ws ≫= f).
Proof.
  revert i. induction ws as [|w ws IH]; intros [|i] Hi; simplify_eq/=.
  - solve_Permutation.
  - specialize (IH i Hi).
    rewrite (Permutation_app_swap_app (f old)), IH. solve_Permutation.
Qed.

Lemma consume_sent env file r n w n' w' :
  consume env file r n w = Done n' w' -> sent w' = sent w.
Proof.
  unfold consume. destruct (Err r).
  - unfold mbind, Go_bind, print, mret, Go_ret. by intros [= <- <-].
  - destruct (Result_Rows r) as [rows|]; [|by intros [= <- <-]].
    revert n w. induction rows as [|row rows IH]; intros n w; simpl.
    + by intros [= <- <-].
    + unfold mbind, Go_bind, writer_Write. simpl. intros H%IH. done.
Qed.

Section Pages.
Variable R : Run.
Variable w0 : World.

Lemma page_inv_initial : page_inv w0 (initial_state R w0).
Proof.
  unfold page_inv. simpl.
  assert (forall {A} (f : Worker -> list A) n, (forall pc, pc = WRange -> f pc = []) ->
            replicate n WRange ≫= f = []) as Hrep.
  { intros A f n Hf. induction n as [|n IH]; [done|].
    change (replicate (S n) WRange) with (WRange :: replicate n WRange).
    rewrite bind_cons, IH, Hf; done. }
  rewrite !Hrep by (by intros ? ->). split_and!; try done. lia.
Qed.

Lemma page_inv_step a s s' :
  page_inv w0 s -> step R a s = Moved s' -> page_inv w0 s'.
Proof.
  intros (Hfetch & Hemit & Hsent) Hstep.
  step_cases Hstep.
  all: repeat match goal with
         | H : pagedPayload _ _ _ _ = Done _ _ |- _ =>
             apply pagedPayload_frame in H as (? & ? & ?)
         | H : fetchData _ _ _ _ = Done _ _ |- _ =>
             apply fetchData_sent in H as (? & _)
         | H : print _ _ = Done _ _ |- _ => unfold print in H; simplify_eq
         | H : consume _ _ _ _ _ = Done _ _ |- _ => apply consume_sent in H
         end.
  all: unfold page_inv; simpl;
    rewrite ?fetched_snoc, ?received_snoc, ?emitted_snoc; simpl;
    rewrite ?fmap_app, ?app_nil_r; simpl.
  all: try (split_and!; first [done | congruence | lia]; fail).
  all: try match goal with
         | H : workers ?s0 !! ?i = Some ?old
           |- context [<[?i := ?new]> (workers ?s0)] =>
             pose proof (bind_insert_perm unfetched (workers s0) i old new H) as Hu;
             pose proof (bind_insert_perm unsent (workers s0) i old new H) as Hs;
             simpl in Hu, Hs
         end.
  all: try apply Permutation_cons_inv in Hu.
  all: try apply Permutation_cons_inv in Hs.
  all: first [ rewrite Hu | rewrite <- Hu in Hfetch ].
  all: first [ rewrite Hs | rewrite <- Hs in Hemit ].
  all: split_and!.
  all: try (rewrite <- Hfetch; solve_submseteq).
  all: try (rewrite <- Hemit; solve_Permutation).
  all: try match goal with
         | H : sent _ = sent _ \/ _ |- _ =>
             destruct H as [->|[? ->]]; rewrite ?length_app; simpl; lia
         end.
  all: try (rewrite ?length_app; simpl; first [lia | congruence]).
  etrans; [|apply submseteq_skips_r, Hfetch].
  apply Permutation_submseteq. solve_Permutation.
Qed.

Lemma page_inv_exec schedule s s' :
  page_inv w0 s -> exec R schedule s = Moved s' -> page_inv w0 s'.
Proof.
  revert s. induction schedule as [|a rest IH]; intros s Hinv Hexec; simpl in Hexec.
  - by simplify_eq.
  - destruct (step R a s) as [s1| |] eqn:Hstep; try done.
    eauto using page_inv_step.
Qed.
End Pages.

Lemma submseteq_NoDup {A} (l k : list A) : l ⊆+ k -> NoDup k -> NoDup l.
Proof.
  intros [k' Hk]%submseteq_Permutation Hnd. rewrite Hk in Hnd.
  by apply NoDup_app in Hnd as [? _].
Qed.

Lemma all_exited_unsent ws : all_exited ws = true -> ws ≫= unsent = [].
Proof.
  induction ws as [|w ws IH]; [done|].
  unfold all_exited in *. cbn [forallb].
  intros [Hw Hws]%andb_prop. rewrite bind_cons, IH by done. by destruct w.
Qed.

Lemma page_numbers_NoDup (R : Run) (k : nat) :
  (run_totalPages R <= max_int)%Z ->
  (Z.of_nat k <= Z.max 0 (run_totalPages R))%Z ->
  NoDup (pageNum <$> page_plan (run_df R) k).
Proof.
  intros Hint Hk. unfold page_plan. rewrite <- list_fmap_compose.
  apply NoDup_alt. intros i j x Hi Hj.
  rewrite list_lookup_fmap in Hi, Hj.
  destruct (seq 0 k !! i) as [i'|] eqn:Ei; [|done].
  destruct (seq 0 k !! j) as [j'|] eqn:Ej; [|done].
  apply lookup_seq in Ei as [-> ?], Ej as [-> ?]. simpl in *.
  simplify_eq. unfold int_add in *.
  rewrite !wrap_small in * by (unfold min_int, int_bits; lia). lia.
Qed.

(** In every run each descriptor is fetched at most once and only after a
    worker dequeued it; so a run calls [fetchData] at most [totalPages]
    times and sends at most [totalPages] requests: no page is retried. *)
Theorem each_page_fetched_once (R : Run) (w : World) (schedule : list Actor) (s : St) :
  (run_totalPages R <= max_int)%Z ->
  exec R schedule (initial_state R w) = Moved s ->
  NoDup (fetched (events s)) /\
  fetched (events s) ⊆+ (received (events s)).*2 /\
  (length (fetched (events s)) <= Z.to_nat (run_totalPages R))%nat /\
  (length (sent (world s)) <= length (sent w) + Z.to_nat (run_totalPages R))%nat.
Proof.
  intros Hint Hexec.
  destruct (task_inv_exec R Hint schedule _ _ (task_inv_initial R w) Hexec)
    as (k & Hk & Henq & _ & _ & Hq).
  destruct (page_inv_exec R w schedule _ _ (page_inv_initial R w) Hexec)
    as (Hfetch & _ & Hsent).
  assert (Hsub : fetched (events s) ⊆+ (received (events s)).*2).
  { etrans; [|exact Hfetch]. by apply submseteq_inserts_r. }
  assert (Hplan : (received (events s)).*2 ⊆+ page_plan (run_df R) k).
  { rewrite <- Henq, <- Hq. by apply submseteq_inserts_r. }
  assert (Hlen : (length (fetched (events s)) <= k)%nat).
  { rewrite <- (length_page_plan (run_df R) k).
    apply submseteq_length. by etrans. }
  split_and!; [|done|lia|lia].
  eapply submseteq_NoDup; [by etrans|]. by apply page_plan_NoDup.
Qed.

Lemma each_page_fetched_once_witness :
  NoDup (fetched (events example_final)) /\
  fetched (events example_final) ⊆+ (received (events example_final)).*2 /\
  (length (fetched (events example_final)) <= Z.to_nat (run_totalPages example_Run))%nat /\
  (length (sent (world example_final)) <=
   length (sent example_world) + Z.to_nat (run_totalPages example_Run))%nat.
Proof.
  apply (each_page_fetched_once example_Run example_world example_schedule).
  - vm_compute. discriminate.
  - exact example_exec.
Defined.

(** In every run the results the workers emit carry pairwise distinct page
    numbers, each the page number of a fetched descriptor; and when the
    function returns there is exactly one result for every fetch. *)
Theorem one_result_per_fetch (R : Run) (w : World) (schedule : list Actor) (s : St) :
  template_ok (heap w) (run_basePayload R) ->
  (run_totalPages R <= max_int)%Z ->
  exec R schedule (initial_state R w) = Moved s ->
  NoDup (PageNum <$> emitted (events s)) /\
  (PageNum <$> emitted (events s)) ⊆+ (pageNum <$> fetched (events s)) /\
  forall n, caller s = MReturned n ->
            PageNum <$> emitted (events s) ≡ₚ pageNum <$> fetched (events s).
Proof.
  intros Hok Hint Hexec.
  destruct (task_inv_exec R Hint schedule _ _ (task_inv_initial R w) Hexec)
    as (k & Hk & Henq & _ & _ & Hq).
  destruct (page_inv_exec R w schedule _ _ (page_inv_initial R w) Hexec)
    as (Hfetch & Hemit & _).
  pose proof (run_inv_exec R Hint schedule _ _ (run_inv_initial R w Hok) Hexec)
    as (_ & _ & _ & Hclosed & _ & Hcall & _ & _).
  assert (Hsub : (PageNum <$> emitted (events s)) ⊆+ (pageNum <$> fetched (events s))).
  { rewrite <- Hemit. by apply submseteq_inserts_r. }
  split_and!; [|done|].
  - eapply submseteq_NoDup; [exact Hsub|].
    eapply submseteq_NoDup; [|by apply (page_numbers_NoDup R k)].
    apply fmap_submseteq.
    transitivity ((received (events s)).*2).
    + transitivity (fetched (events s) ++ (workers s ≫= unfetched)); [|done].
      by apply submseteq_inserts_r.
    + rewrite <- Henq, <- Hq. by apply submseteq_inserts_r.
  - intros n Hn. rewrite <- Hemit.
    rewrite all_exited_unsent; [by rewrite app_nil_r|].
    apply Hclosed. destruct (results_closed s) eqn:Hc; [done|].
    destruct Hcall as [_ Hcall]. specialize (Hcall eq_refl). congruence.
Qed.

Lemma one_result_per_fetch_witness :
  NoDup (PageNum <$> emitted (events example_final)) /\
  (PageNum <$> emitted (events example_final))
    ⊆+ (pageNum <$> fetched (events example_final)) /\
  forall n, caller example_final = MReturned n ->
            PageNum <$> emitted (events example_final)
            ≡ₚ pageNum <$> fetched (events example_final).
Proof.
  apply (one_result_per_fetch example_Run example_world example_schedule).
  - exact example_template_ok.
  - vm_compute. discriminate.
  - exact example_exec.
Defined.

(** ** The function as a whole *)

(** At every point of every run the output file holds the byte-order
    mark, the header row and then the coerced rows of the error-free
    results consumed so far, in the order in which they were consumed; when
    the function returns these are the rows of all results emitted, and
    their number is the value returned. *)
Theorem output_file_content (env : Env) (df : DataFetcher) (base : Payload)
    (file : string) (w : World) (f : string) (totalPages : Z) (w0 : World)
    (schedule : list Actor) (s : St) :
  head_of_run env df base file w = Done (Started f totalPages) w0 ->
  exec (mkRun env df base f totalPages) schedule
       (initial_state (mkRun env df base f totalPages) w0) = Moved s ->
  files (world s) !! f =
    Some (mkFile true (csvHeaders df :: rows_written env (consumed (events s)))) /\
  forall n, caller s = MReturned n ->
            consumed (events s) = emitted (events s) /\
            n = wrap (Z.of_nat (length (rows_written env (emitted (events s))))).
Proof.
  intros Hhead Hexec.
  destruct (head_started _ _ _ _ _ _ _ _ Hhead) as (_ & _ & _ & _ & Hfile & _).
  set (R := mkRun env df base f totalPages) in *.
  destruct (file_inv_exec R w0 schedule _ _ (file_inv_initial R w0) Hexec)
    as [Hf _].
  destruct (sink_inv_exec R w0 schedule _ _ (sink_inv_initial R w0) Hexec)
    as (Hrows & _ & Hem & Hexit & Hret).
  split.
  - simpl in Hf. by rewrite Hf, Hfile.
  - intros n Hn. destruct (Hret n Hn) as [Hc ->].
    destruct (Hexit Hc) as [Hres _]. rewrite Hres, app_nil_r in Hem.
    split; [done|]. by rewrite Hrows, length_rows_written, Hem.
Qed.

Lemma output_file_content_witness :
  files (world example_final) !! "out.csv" =
    Some (mkFile true (csvHeaders example_df
                         :: rows_written example_env (consumed (events example_final)))) /\
  forall n, caller example_final = MReturned n ->
            consumed (events example_final) = emitted (events example_final) /\
            n = wrap (Z.of_nat (length (rows_written example_env
                                          (emitted (events example_final))))).
Proof.
  apply (output_file_content example_env example_df example_base "out.csv"
           example_template.2 "out.csv" 3 example_world example_schedule).
  - exact example_head.
  - exact example_exec.
Defined.

(** What holds when the head hands over to the goroutines: the template
    can be patched, the page count is a non-negative [int] computed from a
    count other than zero, [maxWorkers] is not negative, exactly the priming
    request has been sent, and the output file holds the byte-order mark
    and the header row and nothing else. *)
Theorem started_state (env : Env) (df : DataFetcher) (base : Payload)
    (file : string) (w : World) (f : string) (totalPages : Z) (w0 : World) :
  head_of_run env df base file w = Done (Started f totalPages) w0 ->
  f = output_name env df file /\
  template_ok (heap w0) base /\
  (0 <= totalPages <= max_int)%Z /\
  (0 <= maxWorkers df)%Z /\
  files w0 !! f = Some (mkFile true [csvHeaders df]) /\
  (exists count, count <> 0%Z /\ totalPages_of count (pageSize df) = Some totalPages) /\
  exists req, sent w0 = sent w ++ [req].
Proof. apply head_started. Qed.

Lemma started_state_witness :
  "out.csv" = output_name example_env example_df "out.csv" /\
  template_ok (heap example_world) example_base /\
  (0 <= 3 <= max_int)%Z /\
  (0 <= maxWorkers example_df)%Z /\
  files example_world !! "out.csv" = Some (mkFile true [csvHeaders example_df]) /\
  (exists count, count <> 0%Z /\ totalPages_of count (pageSize example_df) = Some 3%Z) /\
  exists req, sent example_world = sent example_template.2 ++ [req].
Proof.
  apply (started_state example_env example_df example_base "out.csv"
           example_template.2 "out.csv" 3 example_world).
  exact example_head.
Defined.

(** ** More on patching the template *)

(** The whole effect of [pagedPayload]: it returns the template itself,
    and in the store it sets "limit" and "offset" in the Attr map of the
    "result" block and changes nothing else. *)
Lemma pagedPayload_effect base ps off w p w' :
  pagedPayload base ps off w = Done p w' ->
  exists l am,
    Attr (heap_block (heap w) (Blocks base) "result") = VMap l /\
    attrs (heap w) !! l = Some am /\
    p = base /\
    w' = set_heap (mkHeap (<[l := <["offset" := VInt off]> (<["limit" := VInt ps]> am)]>
                             (attrs (heap w)))
                          (blockmaps (heap w)) (next (heap w))) w.
Proof.
  intros H. pose proof (pagedPayload_done _ _ _ _ _ _ H) as (bm & l & am & Hbm & Hattr & Ham).
  exists l, am. unfold heap_block. rewrite Hbm. simpl. split; [done|]. split; [done|].
  unfold pagedPayload in H. go_unfold. simpl in H.
  rewrite Hbm in H. simpl in H. rewrite Hattr in H. simpl in H.
  rewrite Ham in H. simpl in H.
  rewrite lookup_insert_eq in H. simpl in H. rewrite Hbm in H.
  simplify_eq. split; [done|]. unfold set_heap. simpl.
  f_equal. f_equal.
  - by rewrite insert_insert_eq.
  - destruct (bm !! "result") as [b|] eqn:Hb; simpl in *; [|done].
    rewrite (insert_id bm "result").
    + by apply insert_id.
    + rewrite Hb. f_equal. destruct b. simpl in *. by subst.
Qed.

(** [pagedPayload] returns exactly on a template whose "result" block has
    a map that exists as its Attr; on any other template (no "result"
    block, an Attr that is nil or not a map, a nil map) it panics. *)
Theorem patch_succeeds_iff (base : Payload) (ps off : Z) (w : World) :
  (exists p w', pagedPayload base ps off w = Done p w') <->
  template_ok (heap w) base.
Proof.
  split.
  - intros (p & w' & H). by eapply pagedPayload_done.
  - intros Hok. destruct (pagedPayload_ok base ps off w Hok) as (w' & H & _). eauto.
Qed.

(** Patching changes nothing but the two paging attributes: the block maps,
    every other attribute of the "result" block (such as "showCount"),
    every other map of the store, the requests sent, the files and the log
    are as they were. *)
Theorem patch_changes_only_paging (base : Payload) (ps off : Z) (w : World)
    (p : Payload) (w' : World) :
  pagedPayload base ps off w = Done p w' ->
  blockmaps (heap w') = blockmaps (heap w) /\
  next (heap w') = next (heap w) /\
  (forall key, key <> "limit" -> key <> "offset" ->
               result_attr (heap w') base key = result_attr (heap w) base key) /\
  (forall l key, Attr (heap_block (heap w) (Blocks base) "result") <> VMap l ->
                 heap_attr (heap w') l key = heap_attr (heap w) l key) /\
  sent w' = sent w /\ files w' = files w /\ stdout w' = stdout w.
Proof.
  intros H. destruct (pagedPayload_effect _ _ _ _ _ _ H) as (l & am & Hattr & Ham & -> & ->).
  simpl. split_and!; try done.
  - intros key Hl Ho. unfold result_attr, heap_block in *. simpl.
    rewrite Hattr. unfold heap_attr. simpl. rewrite lookup_insert_eq, Ham. simpl.
    by rewrite !lookup_insert_ne.
  - intros l' key Hne. unfold heap_attr. simpl.
    rewrite lookup_insert_ne; [done|]. intros ->. by apply Hne.
Qed.

Lemma patch_changes_only_paging_witness :
  blockmaps (heap (world_after (pagedPayload example_base 7 14) example_template.2))
    = blockmaps (heap example_template.2) /\
  next (heap (world_after (pagedPayload example_base 7 14) example_template.2))
    = next (heap example_template.2) /\
  (forall key, key <> "limit" -> key <> "offset" ->
     result_attr (heap (world_after (pagedPayload example_base 7 14) example_template.2))
                 example_base key
     = result_attr (heap example_template.2) example_base key) /\
  (forall l key,
     Attr (heap_block (heap example_template.2) (Blocks example_base) "result") <> VMap l ->
     heap_attr (heap (world_after (pagedPayload example_base 7 14) example_template.2)) l key
     = heap_attr (heap example_template.2) l key) /\
  sent (world_after (pagedPayload example_base 7 14) example_template.2)
    = sent example_template.2 /\
  files (world_after (pagedPayload example_base 7 14) example_template.2)
    = files example_template.2 /\
  stdout (world_after (pagedPayload example_base 7 14) example_template.2)
    = stdout example_template.2.
Proof.
  apply (patch_changes_only_paging example_base 7 14 example_template.2 example_base).
  vm_compute. reflexivity.
Defined.

(** The last patch wins: patching after an earlier patch leaves the world
    that the later patch alone would have left.  In particular nothing of
    the template's original limit and offset, or of an earlier page,
    survives. *)
Theorem last_patch_wins (base : Payload) (ps1 off1 ps2 off2 : Z) (w : World)
    (p1 : Payload) (w1 : World) :
  pagedPayload base ps1 off1 w = Done p1 w1 ->
  pagedPayload base ps2 off2 w1 = pagedPayload base ps2 off2 w.
Proof.
  intros H1.
  destruct (pagedPayload_effect _ _ _ _ _ _ H1) as (l & am & Hattr & Ham & -> & ->).
  assert (Hok : template_ok (heap w) base) by (by eapply pagedPayload_done).
  destruct (pagedPayload_ok base ps2 off2 w Hok) as (w2 & H2 & _).
  destruct (pagedPayload_ok base ps1 off1 w Hok) as (w1' & H1' & Hok1).
  rewrite H1 in H1'. simplify_eq.
  destruct (pagedPayload_ok base ps2 off2 _ Hok1) as (w3 & H3 & _).
  rewrite H2, H3. f_equal.
  destruct (pagedPayload_effect _ _ _ _ _ _ H2) as (l2 & am2 & Hattr2 & Ham2 & _ & ->).
  destruct (pagedPayload_effect _ _ _ _ _ _ H3) as (l3 & am3 & Hattr3 & Ham3 & _ & ->).
  unfold heap_block in *. simpl in *.
  rewrite Hattr in Hattr2, Hattr3. simplify_eq.
  rewrite lookup_insert_eq in Ham3. simplify_eq.
  unfold set_heap. simpl. f_equal. f_equal.
  rewrite insert_insert_eq. f_equal.
  apply map_eq. intros k.
  destruct (decide (k = "offset")) as [->|Ho]; [by rewrite !lookup_insert_eq|].
  rewrite !(lookup_insert_ne _ "offset") by done.
  destruct (decide (k = "limit")) as [->|Hl]; [by rewrite !lookup_insert_eq|].
  rewrite !(lookup_insert_ne _ "limit") by done.
  rewrite (lookup_insert_ne _ "offset") by done.
  by rewrite (lookup_insert_ne _ "limit") by done.
Qed.

Lemma last_patch_wins_witness :
  pagedPayload example_base 1000 2000
    (world_after (pagedPayload example_base 7 14) example_template.2)
  = pagedPayload example_base 1000 2000 example_template.2.
Proof.
  apply (last_patch_wins example_base 7 14 1000 2000 example_template.2 example_base).
  vm_compute. reflexivity.
Defined.

(** ** What a request carries *)

Lemma find_map_to_list {A} (m : gmap string A) k v :
  m !! k = Some v ->
  List.find (fun kv => bool_decide (kv.1 = k)) (map_to_list m) = Some (k, v).
Proof.
  intros Hk.
  destruct (List.find (fun kv => bool_decide (kv.1 = k)) (map_to_list m))
    as [[k' v']|] eqn:Hfind.
  - apply List.find_some in Hfind as [Hin Hkey].
    apply bool_decide_eq_true in Hkey. simpl in Hkey. subst k'.
    apply list_elem_of_In, elem_of_map_to_list in Hin. congruence.
  - exfalso. apply List.find_none with (x := (k, v)) in Hfind.
    + by rewrite bool_decide_eq_false in Hfind.
    + by apply list_elem_of_In, elem_of_map_to_list.
Qed.

Lemma find_mapM {A B} (g : A -> option B) (l : list (string * A))
    (l' : list (string * B)) k v :
  mapM (fun kv : string * A => pair kv.1 <$> g kv.2) l = Some l' ->
  List.find (fun kv => bool_decide (kv.1 = k)) l = Some (k, v) ->
  exists u, g v = Some u /\
            List.find (fun kv => bool_decide (kv.1 = k)) l' = Some (k, u).
Proof.
  intros HM%mapM_Some_1. induction HM as [|[k1 a] [k2 b] l l' Hf HM IH]; [done|].
  simpl in Hf. destruct (g a) as [u|] eqn:Hg; simplify_eq/=.
  case_bool_decide.
  - intros [= -> ->]. eauto.
  - apply IH.
Qed.

Lemma wire_field_marshalled {A} (g : A -> option Wire) (m : gmap string A)
    (fields : list (string * Wire)) k v :
  mapM (fun kv : string * A => pair kv.1 <$> g kv.2) (map_to_list m) = Some fields ->
  m !! k = Some v ->
  exists u, g v = Some u /\ wire_field k (WObj fields) = Some u.
Proof.
  intros HM Hk. apply find_map_to_list in Hk.
  destruct (find_mapM g _ _ k v HM Hk) as (u & Hu & Hfind).
  exists u. split; [done|]. simpl. by rewrite Hfind.
Qed.

(** A template that asks for [ps] records from [off] on marshals, if it
    marshals, to a request body whose "result" block carries that limit
    and that offset. *)
Lemma marshal_paging h base ps off wire url :
  template_paging h base ps off ->
  json_Marshal h base = Some wire ->
  request_paging (mkRequest url wire) = Some (WInt ps, WInt off).
Proof.
  intros (bm & b & l & am & Hbm & Hb & Hattr & Ham & Hlimit & Hoffset) Hm.
  unfold json_Marshal in Hm. simpl in Hm. rewrite Hbm in Hm.
  destruct (marshal_map _ _ (Context base)) as [wc|]; simpl in Hm; [|done].
  destruct (marshal_map _ _ (User base)) as [wu|]; simpl in Hm; [|done].
  destruct (marshal_map _ _ (Sys base)) as [ws|]; simpl in Hm; [|done].
  destruct (mapM _ (map_to_list bm)) as [blocks|] eqn:Hblocks; simpl in Hm; [|done].
  simplify_eq.
  destruct (wire_field_marshalled _ _ _ "result" b Hblocks Hb) as (wb & Hwb & Hfield).
  unfold request_paging. simpl. simpl in Hfield. rewrite Hfield. simpl.
  unfold marshal_block in Hwb. rewrite Hattr in Hwb.
  destruct (marshal_value _ _ (Meta_Attr b)) as [wma|]; simpl in Hwb; [|done].
  destruct (mapM _ (Meta_Columns b)) as [wcols|]; simpl in Hwb; [|done].
  destruct (mapM _ (Rows b)) as [wrows|]; simpl in Hwb; [|done].
  rewrite Ham in Hwb. simpl in Hwb.
  match type of Hwb with
  | (WObj <$> ?X) ≫= _ = _ => destruct X as [wattr|] eqn:Hwattr
  end; simpl in Hwb; [|done].
  simplify_eq. cbn [wire_field find fst snd bool_decide].
  destruct (wire_field_marshalled _ _ _ "limit" (VInt ps) Hwattr Hlimit)
    as (u1 & Hu1 & Hf1).
  destruct (wire_field_marshalled _ _ _ "offset" (VInt off) Hwattr Hoffset)
    as (u2 & Hu2 & Hf2).
  rewrite !bool_decide_eq_false_2 by done. rewrite bool_decide_eq_true_2 by done.
  cbn [fmap option_fmap option_map snd mbind option_bind].
  rewrite Hf1, Hf2. cbn [mbind option_bind].
  destruct (size _); simpl in Hu1, Hu2; by simplify_eq.
Qed.

(** After a patch the template asks for the patched limit and offset. *)
Lemma pagedPayload_paging base ps off w p w' :
  pagedPayload base ps off w = Done p w' ->
  p = base /\ template_paging (heap w') base ps off.
Proof.
  intros Hp.
  destruct (pagedPayload_effect _ _ _ _ _ _ Hp) as (l & am & Hattr & Ham & -> & ->).
  pose proof (pagedPayload_done _ _ _ _ _ _ Hp) as (bm & l' & am' & Hbm & Hattr' & _).
  unfold heap_block in Hattr. rewrite Hbm in Hattr. simpl in Hattr.
  rewrite Hattr in Hattr'. simplify_eq.
  destruct (bm !! "result") as [b|] eqn:Hb; simpl in Hattr; [|done].
  split; [done|]. exists bm, b, l', (<["offset" := VInt off]> (<["limit" := VInt ps]> am)).
  simpl. split_and!; try done.
  - apply lookup_insert_eq.
  - rewrite lookup_insert_ne by done. apply lookup_insert_eq.
  - apply lookup_insert_eq.
Qed.

(** The request of a fetch: none, or the marshalled payload to the
    fetcher's URL. *)
Lemma fetchData_request env df payload w r w' :
  fetchData env df payload w = Done r w' ->
  sent w' = sent w \/
  exists wire, json_Marshal (heap w) payload = Some wire /\
               sent w' = (sent w ++ [mkRequest (baseURL df) wire])%list.
Proof.
  unfold fetchData, client_Do. intros H. go_unfold. simpl in H.
  repeat (case_match; go_unfold; simpl in *; simplify_eq); eauto.
Qed.

Lemma request_ok_mono df (good good' : Z -> Prop) r :
  (forall off, good off -> good' off) -> request_ok df good r -> request_ok df good' r.
Proof. intros Hg (Hurl & off & Hp & Hoff). split; [done|]. eauto. Qed.

Lemma dequeued_offset_mono s s' off :
  (received (events s)).*2 ⊆ (received (events s')).*2 ->
  dequeued_offset s off -> dequeued_offset s' off.
Proof. intros Hsub (t & Ht & Hoff). exists t. split; [by apply Hsub|done]. Qed.

Section Requests.
Variable R : Run.
Variable w0 : World.

Lemma request_inv_initial :
  template_paging (heap w0) (run_basePayload R) (pageSize (run_df R)) 0 ->
  request_inv R w0 (initial_state R w0).
Proof.
  intros Hpaging. unfold request_inv. simpl. split_and!.
  - eauto.
  - intros i t p [Hi _]%lookup_replicate_1. done.
  - exists []. by rewrite app_nil_r.
Qed.

(** Steps that leave the store and the requests alone and start no
    fetch. *)
Lemma request_inv_frame s s' :
  request_inv R w0 s ->
  heap (world s') = heap (world s) ->
  sent (world s') = sent (world s) ->
  (forall i t p, workers s' !! i = Some (WFetch t p) ->
                 workers s !! i = Some (WFetch t p)) ->
  (received (events s)).*2 ⊆ (received (events s')).*2 ->
  request_inv R w0 s'.
Proof.
  intros (Htemplate & Hfetch & reqs & Hsent & Hreqs) Hheap Hreq Hworkers Hrecv.
  unfold request_inv. rewrite Hheap, Hreq. split_and!.
  - destruct Htemplate as (off & Hpaging & [->|Hoff]); eauto using dequeued_offset_mono.
  - intros i t p Hi. destruct (Hfetch i t p (Hworkers i t p Hi)) as (-> & off & ? & ?).
    eauto using dequeued_offset_mono.
  - exists reqs. split; [done|]. eapply Forall_impl; [exact Hreqs|].
    intros r. apply request_ok_mono. eauto using dequeued_offset_mono.
Qed.

(** The step of a worker at line 437: its request, if there is one, is the
    template as the store holds it at that moment. *)
Lemma request_inv_fetch s s' i task payload r w1 :
  request_inv R w0 s ->
  workers s !! i = Some (WFetch task payload) ->
  fetchData (run_env R) (run_df R) payload (world s) = Done r w1 ->
  heap (world s') = heap w1 ->
  sent (world s') = sent w1 ->
  (forall j t p, workers s' !! j = Some (WFetch t p) ->
                 workers s !! j = Some (WFetch t p)) ->
  (received (events s)).*2 ⊆ (received (events s')).*2 ->
  request_inv R w0 s'.
Proof.
  intros (Htemplate & Hfetch & reqs & Hsent & Hreqs) Hi Hdata Hheap Hreq Hworkers Hrecv.
  destruct (fetchData_frame _ _ _ _ _ _ Hdata) as (_ & _ & Hheap1).
  destruct (Hfetch i task payload Hi) as (-> & off & Hpaging & Hoff).
  unfold request_inv. rewrite Hheap, Hreq, Hheap1. split_and!.
  - eauto using dequeued_offset_mono.
  - intros j t p Hj. destruct (Hfetch j t p (Hworkers j t p Hj)) as (-> & off' & ? & ?).
    eauto using dequeued_offset_mono.
  - assert (Hold : Forall (request_ok (run_df R) (dequeued_offset s')) reqs).
    { eapply Forall_impl; [exact Hreqs|].
      intros r0. apply request_ok_mono. eauto using dequeued_offset_mono. }
    destruct (fetchData_request _ _ _ _ _ _ Hdata) as [->|(wire & Hwire & ->)].
    + eauto.
    + exists (reqs ++ [mkRequest (baseURL (run_df R)) wire])%list.
      rewrite Hsent, <- (assoc_L (++)). split; [done|].
      apply Forall_app. split; [done|]. apply Forall_singleton.
      split; [done|]. exists off. split; [|eauto using dequeued_offset_mono].
      by eapply marshal_paging.
Qed.

Lemma request_inv_step a s s' :
  page_inv w0 s -> request_inv R w0 s -> step R a s = Moved s' -> request_inv R w0 s'.
Proof.
  intros (Hpages & _ & _) Hinv Hstep.
  step_cases Hstep.
  all: try match goal with
         | H : print _ _ = Done _ _ |- _ => unfold print in H; simplify_eq
         end.
  all: try (eapply request_inv_frame; [exact Hinv|simpl..];
            rewrite ?received_snoc; simpl; rewrite ?fmap_app; simpl;
            [ first [done | by eapply consume_heap]
            | first [done | by eapply consume_sent]
            | first [ done
                    | intros j t' p' Hj;
                      apply list_lookup_insert_Some in Hj as [(? & ? & ?)|[? ?]];
                      [simplify_eq|done] ]
            | first [ done | by apply list_subseteq_app_l
                    | by rewrite app_nil_r ] ]; fail).
  all: try (eapply request_inv_fetch; [exact Hinv|eassumption|eassumption|simpl..];
            rewrite ?received_snoc; simpl; rewrite ?fmap_app; simpl;
            [ done | done
            | intros j t' p' Hj;
              apply list_lookup_insert_Some in Hj as [(? & ? & ?)|[? ?]];
              [simplify_eq|done]
            | by rewrite app_nil_r ]; fail).
  match goal with
  | H : pagedPayload _ _ _ _ = Done _ _ |- _ =>
      destruct (pagedPayload_paging _ _ _ _ _ _ H) as (-> & Hpaging);
      apply pagedPayload_frame in H as (_ & _ & Hsame)
  end.
  assert (Htask : task ∈ (received (events s)).*2).
  { eapply elem_of_submseteq; [|exact Hpages].
    apply elem_of_app. right. apply list_elem_of_bind.
    exists (WPatch task). split; [by apply list_elem_of_here|].
    by eapply list_elem_of_lookup_2. }
  assert (Hoff : dequeued_offset s (offset task)) by (by exists task).
  destruct Hinv as (_ & Hfetch & reqs & Hsent & Hreqs).
  unfold request_inv. simpl. split_and!.
  - eauto.
  - intros j t p Hj.
    apply list_lookup_insert_Some in Hj as [(? & ? & ?)|[? Hj]]; [simplify_eq; eauto|].
    destruct (Hfetch j t p Hj) as (-> & _). eauto.
  - exists reqs. by rewrite Hsame.
Qed.

Lemma request_inv_exec schedule s s' :
  page_inv w0 s -> request_inv R w0 s -> exec R schedule s = Moved s' ->
  request_inv R w0 s'.
Proof.
  revert s. induction schedule as [|a rest IH]; intros s Hpages Hinv Hexec;
    simpl in Hexec.
  - by simplify_eq.
  - destruct (step R a s) as [s1| |] eqn:Hstep; try done.
    eauto using request_inv_step, page_inv_step.
Qed.
End Requests.

(** The priming call: the template then asks for the first page, and the
    request, if one was sent, asked for it. *)
Lemma priming_request env df base w r w1 :
  priming env df base w = Done r w1 ->
  template_paging (heap w1) base (pageSize df) 0 /\
  (sent w1 = sent w \/
   exists req, sent w1 = (sent w ++ [req])%list /\ request_ok df (eq 0%Z) req).
Proof.
  unfold priming, mbind, Go_bind. intros H.
  destruct (pagedPayload base (pageSize df) 0 w) as [p w'|] eqn:Hp; [|done].
  destruct (pagedPayload_paging _ _ _ _ _ _ Hp) as (-> & Hpaging).
  apply pagedPayload_frame in Hp as (_ & _ & Hsent).
  destruct (fetchData_frame _ _ _ _ _ _ H) as (_ & _ & Hheap).
  rewrite Hheap, <- Hsent. split; [done|].
  destruct (fetchData_request _ _ _ _ _ _ H) as [->|(wire & Hwire & ->)]; [by left|].
  right. eexists. split; [done|]. split; [done|].
  exists 0%Z. split; [|done]. by eapply marshal_paging.
Qed.

(** Lines 321-362 leave the store and the requests alone. *)
Lemma plan_run_frame env df file r w h w' :
  plan_run env df file r w = Done h w' -> heap w' = heap w /\ sent w' = sent w.
Proof.
  unfold plan_run. intros H.
  unfold mbind, Go_bind, print, os_Create, file_Write_BOM, writer_Write, mret, Go_ret
    in H.
  destruct r as [response|err]; [|by simplify_eq].
  destruct (Response_Blocks response !! "result") as [rb|]; [|by simplify_eq].
  destruct (decide (Attr_Count rb = 0%Z)); [by simplify_eq|].
  destruct (totalPages_of (Attr_Count rb) (pageSize df)) as [tp|]; [|done].
  simpl in H.
  destruct (os_Create_error env file); [by simplify_eq|]. simpl in H.
  destruct (decide (tp < 0)%Z); [done|].
  destruct (decide (maxWorkers df < 0)%Z); [done|].
  by simplify_eq.
Qed.

Lemma head_request env df base file w h w0 :
  head_of_run env df base file w = Done h w0 ->
  template_paging (heap w0) base (pageSize df) 0 /\
  (sent w0 = sent w \/
   exists req, sent w0 = (sent w ++ [req])%list /\ request_ok df (eq 0%Z) req).
Proof.
  intros Hhead.
  destruct (priming env df base w) as [r w1|reason] eqn:Hprime.
  - rewrite (head_of_run_unfold _ _ _ _ _ _ _ Hprime) in Hhead.
    apply plan_run_frame in Hhead as [-> ->]. simpl.
    by apply priming_request in Hprime.
  - unfold head_of_run, mbind, Go_bind, print in Hhead.
    pose proof (priming_stdout env df base
                  (mkWorld (heap w) (sent w) (files w)
                     (stdout w ++ [LStart (pageSize df) (maxWorkers df)
                                     (output_name env df file)]))
                  (stdout w)) as Hp.
    destruct (priming env df base (mkWorld _ _ _ _)) as [r w1|] eqn:Hprime'; [|done].
    specialize (Hp r w1 eq_refl). unfold set_stdout in Hp. simpl in Hp.
    destruct w. simpl in *. congruence.
Qed.

(** Every request of [FetchAllDataMultithread] goes to the fetcher's URL
    and asks for [pageSize] records at the offset of page 0 or of a page of
    the plan, [page * pageSize] in [int] arithmetic for some
    [page < totalPages]: whichever worker sends it and whatever the template
    held when it was marshalled, no request leaves the plan. *)
Theorem requests_within_plan (env : Env) (df : DataFetcher) (base : Payload)
    (file : string) (w : World) (f : string) (totalPages : Z) (w0 : World)
    (schedule : list Actor) (s : St) :
  head_of_run env df base file w = Done (Started f totalPages) w0 ->
  exec (mkRun env df base f totalPages) schedule
       (initial_state (mkRun env df base f totalPages) w0) = Moved s ->
  exists reqs,
    sent (world s) = (sent w ++ reqs)%list /\
    Forall (request_ok df (fun off =>
              exists page, (0 <= page < Z.max 1 totalPages)%Z /\
                           off = int_mul page (pageSize df))) reqs.
Proof.
  intros Hhead Hexec.
  destruct (head_started _ _ _ _ _ _ _ _ Hhead) as (_ & _ & Htp & _).
  destruct (head_request _ _ _ _ _ _ _ Hhead) as (Hpaging & Hfirst).
  set (R := mkRun env df base f totalPages) in *.
  assert (Hint : (run_totalPages R <= max_int)%Z) by (simpl; lia).
  destruct (task_inv_exec R Hint schedule _ _ (task_inv_initial R w0) Hexec)
    as (k & Hk & Henq & _ & _ & Hq).
  destruct (request_inv_exec R w0 schedule _ _ (page_inv_initial R w0)
              (request_inv_initial R w0 Hpaging) Hexec)
    as (_ & _ & reqs & Hsent & Hreqs).
  assert (Hplanned : forall off, dequeued_offset s off ->
            exists page, (0 <= page < Z.max 1 totalPages)%Z /\
                         off = int_mul page (pageSize df)).
  { intros off (t & Ht & <-).
    assert (Hin : t ∈ page_plan df k).
    { change df with (run_df R). rewrite <- Henq, <- Hq. apply elem_of_app. by left. }
    unfold page_plan in Hin. apply list_elem_of_fmap in Hin as (i & -> & Hi).
    apply elem_of_seq in Hi. simpl in Hk.
    exists (Z.of_nat i). split; [lia|done]. }
  assert (Hzero : exists page, (0 <= page < Z.max 1 totalPages)%Z /\
                               0%Z = int_mul page (pageSize df)).
  { exists 0%Z. split; [lia|]. unfold int_mul. by rewrite Z.mul_0_l. }
  assert (Hrun : Forall (request_ok df (fun off =>
              exists page, (0 <= page < Z.max 1 totalPages)%Z /\
                           off = int_mul page (pageSize df))) reqs).
  { eapply Forall_impl; [exact Hreqs|]. intros r. by apply request_ok_mono. }
  destruct Hfirst as [Hsame|(req & Hreq & Hok)].
  - exists reqs. by rewrite Hsent, Hsame.
  - exists (req :: reqs). rewrite Hsent, Hreq, <- (assoc_L (++)). split; [done|].
    constructor; [|done]. eapply request_ok_mono; [|exact Hok]. by intros ? <-.
Qed.

Lemma requests_within_plan_witness :
  exists reqs,
    sent (world example_final) = (sent example_template.2 ++ reqs)%list /\
    Forall (request_ok example_df (fun off =>
              exists page, (0 <= page < Z.max 1 3)%Z /\
                           off = int_mul page (pageSize example_df))) reqs.
Proof.
  apply (requests_within_plan example_env example_df example_base "out.csv"
           example_template.2 "out.csv" 3 example_world example_schedule).
  - exact example_head.
  - exact example_exec.
Defined.

(** ** A run that is not cancelled *)


Section Live.
Variable R : Run.
Hypothesis totalPages_int : (run_totalPages R <= max_int)%Z.



End Live.



(** ** Edge cases of the head *)

(** When [os.Create] fails the function returns that failure from its
    head: the priming request is the only request sent, no file exists
    that did not exist before, and the channels and goroutines are never
    set up. *)
Theorem create_failure_fails_run (env : Env) (df : DataFetcher) (base : Payload)
    (file : string) (w : World) (response : Response) (w1 : World)
    (resultBlock : ResponseBlock) (detail : string) :
  priming env df base w = Done (inl response) w1 ->
  Response_Blocks response !! "result" = Some resultBlock ->
  Attr_Count resultBlock <> 0%Z ->
  pageSize df <> 0%Z ->
  os_Create_error env (output_name env df file) = Some detail ->
  exists w',
    head_of_run env df base file w
    = Done (Returned 0 (Some (ErrCreateFile detail))) w' /\
    files w' = files w /\
    (exists req, sent w' = sent w ++ [req]) /\
    Returns env df base file w 0 (Some (ErrCreateFile detail)) w' /\
    forall n err w'', Returns env df base file w n err w'' ->
                      n = 0%Z /\ err = Some (ErrCreateFile detail) /\ w'' = w'.
Proof.
  intros Hprime Hblock Hcount Hsize Hcreate.
  pose proof (head_of_run_unfold env df base file w _ _ Hprime) as Hhead.
  unfold plan_run in Hhead. rewrite Hblock in Hhead.
  rewrite decide_False in Hhead by done.
  unfold totalPages_of, int_div in Hhead. rewrite decide_False in Hhead by done.
  unfold mbind, Go_bind, print, os_Create, mret, Go_ret, set_stdout in Hhead.
  simpl in Hhead. rewrite Hcreate in Hhead.
  destruct (priming_frame env df base w _ _ Hprime) as (Hfiles & _ & _ & Hsent).
  destruct (Hsent response eq_refl) as [req Hreq].
  eexists. split; [exact Hhead|]. simpl.
  split; [done|]. split; [by exists req|].
  by apply Returns_of_head.
Qed.

Lemma create_failure_fails_run_witness :
  exists w',
    head_of_run readonly_env example_df example_base "out.csv" example_template.2
    = Done (Returned 0 (Some (ErrCreateFile "permission denied"))) w' /\
    files w' = files example_template.2 /\
    (exists req, sent w' = sent example_template.2 ++ [req]) /\
    Returns readonly_env example_df example_base "out.csv" example_template.2 0
            (Some (ErrCreateFile "permission denied")) w' /\
    forall n err w'',
      Returns readonly_env example_df example_base "out.csv" example_template.2
              n err w'' ->
      n = 0%Z /\ err = Some (ErrCreateFile "permission denied") /\ w'' = w'.
Proof.
  apply (create_failure_fails_run readonly_env example_df example_base "out.csv"
           example_template.2 (example_response 5 2)
           (world_after (priming readonly_env example_df example_base)
                        example_template.2)
           (mkResponseBlock (Some (example_rows 2)) 5) "permission denied").
  - vm_compute. reflexivity.
  - vm_compute. reflexivity.
  - simpl. lia.
  - simpl. lia.
  - reflexivity.
Defined.

(** A fetcher whose page size is zero makes the function panic at the
    division of line 336 as soon as the priming response announces a count
    other than zero. *)
Theorem zero_page_size_panics (env : Env) (df : DataFetcher) (base : Payload)
    (file : string) (w : World) (response : Response) (w1 : World)
    (resultBlock : ResponseBlock) :
  priming env df base w = Done (inl response) w1 ->
  Response_Blocks response !! "result" = Some resultBlock ->
  Attr_Count resultBlock <> 0%Z ->
  pageSize df = 0%Z ->
  head_of_run env df base file w = Panicked "integer divide by zero" /\
  forall n err w', ~ Returns env df base file w n err w'.
Proof.
  intros Hprime Hblock Hcount Hsize.
  pose proof (head_of_run_unfold env df base file w _ _ Hprime) as Hhead.
  unfold plan_run in Hhead. rewrite Hblock in Hhead.
  rewrite decide_False in Hhead by done.
  unfold totalPages_of, int_div in Hhead. rewrite decide_True in Hhead by done.
  split; [done|].
  intros n err w' Hret.
  inversion Hret as [? ? ? H|? ? ? ? ? ? H]; rewrite Hhead in H; done.
Qed.

Lemma zero_page_size_panics_witness :
  head_of_run example_env zero_df example_base "out.csv" example_template.2
  = Panicked "integer divide by zero" /\
  forall n err w',
    ~ Returns example_env zero_df example_base "out.csv" example_template.2 n err w'.
Proof.
  apply (zero_page_size_panics example_env zero_df example_base "out.csv"
           example_template.2 (example_response 5 2)
           (world_after (priming example_env zero_df example_base) example_template.2)
           (mkResponseBlock (Some (example_rows 2)) 5)).
  - vm_compute. reflexivity.
  - vm_compute. reflexivity.
  - simpl. lia.
  - reflexivity.
Defined.

(** ** A negative count *)

(** Go's division truncates toward zero: a negative count above
    [1 - 2 * pageSize] gives a page count of zero, a count at or below it
    a negative page count. *)
Lemma totalPages_of_negative totalCount pageSize :
  (0 < pageSize <= max_int)%Z -> (min_int <= totalCount < 0)%Z ->
  exists totalPages,
    totalPages_of totalCount pageSize = Some totalPages /\
    (min_int <= totalPages <= 0)%Z /\
    (totalPages = 0%Z <-> (1 - 2 * pageSize < totalCount)%Z).
Proof.
  intros Hsize Hcount. unfold totalPages_of, int_div, int_sub, int_add.
  assert (Hmin : min_int = (- 2 ^ 63)%Z) by reflexivity.
  assert (Hmax : max_int = (2 ^ 63 - 1)%Z) by reflexivity.
  rewrite decide_False by lia.
  rewrite (wrap_small (totalCount + pageSize)) by lia.
  rewrite (wrap_small (totalCount + pageSize - 1)) by lia.
  set (a := (totalCount + pageSize - 1)%Z).
  assert (Hquot : (- (2 ^ 63) <= a ÷ pageSize <= 0)%Z /\
                  (a ÷ pageSize = 0 <-> 1 - 2 * pageSize < totalCount)%Z).
  { destruct (decide (0 <= a)%Z) as [Hpos|Hneg].
    - rewrite Z.quot_small by lia. lia.
    - assert (Ha : (a = - (- a))%Z) by lia. rewrite Ha, Z.quot_opp_l by lia.
      pose proof (Z.quot_pos (- a) pageSize ltac:(lia) ltac:(lia)).
      pose proof (Z.quot_le_upper_bound (- a) pageSize (2 ^ 63) ltac:(lia) ltac:(nia)).
      split; [lia|].
      destruct (decide (- a < pageSize)%Z) as [Hsmall|Hbig].
      + rewrite Z.quot_small by lia. lia.
      + pose proof (Z.quot_le_lower_bound (- a) pageSize 1 ltac:(lia) ltac:(lia)). lia. }
  destruct Hquot as [Hrange Hzero].
  eexists. split; [reflexivity|]. rewrite wrap_small by lia. split; [lia|done].
Qed.

(** A priming response that announces a negative count at or below
    [1 - 2 * pageSize] makes the function panic when it creates the task
    channel (line 358), unless [os.Create] has failed before. *)
Theorem negative_count_panics (env : Env) (df : DataFetcher) (base : Payload)
    (file : string) (w : World) (response : Response) (w1 : World)
    (resultBlock : ResponseBlock) :
  priming env df base w = Done (inl response) w1 ->
  Response_Blocks response !! "result" = Some resultBlock ->
  (0 < pageSize df <= max_int)%Z ->
  (min_int <= Attr_Count resultBlock <= 1 - 2 * pageSize df)%Z ->
  os_Create_error env (output_name env df file) = None ->
  head_of_run env df base file w = Panicked "makechan: size out of range" /\
  forall n err w', ~ Returns env df base file w n err w'.
Proof.
  intros Hprime Hblock Hsize Hcount Hcreate.
  destruct (totalPages_of_negative (Attr_Count resultBlock) (pageSize df))
    as (tp & Htp & Hrange & Hzero); [done|lia|].
  assert (Hneg : (tp < 0)%Z) by lia.
  pose proof (head_of_run_unfold env df base file w _ _ Hprime) as Hhead.
  unfold plan_run in Hhead. rewrite Hblock in Hhead.
  rewrite decide_False in Hhead by lia. rewrite Htp in Hhead.
  unfold mbind, Go_bind, print, os_Create, file_Write_BOM, writer_Write, mret, Go_ret,
    set_stdout in Hhead.
  simpl in Hhead. rewrite Hcreate in Hhead. simpl in Hhead.
  rewrite decide_True in Hhead by done.
  split; [done|].
  intros n err w' Hret.
  inversion Hret as [? ? ? H|? ? ? ? ? ? H]; rewrite Hhead in H; done.
Qed.

Lemma negative_count_panics_witness :
  head_of_run (announcing_env (-3)) example_df example_base "out.csv" example_template.2
  = Panicked "makechan: size out of range" /\
  forall n err w',
    ~ Returns (announcing_env (-3)) example_df example_base "out.csv"
        example_template.2 n err w'.
Proof.
  apply (negative_count_panics (announcing_env (-3)) example_df example_base "out.csv"
           example_template.2 (example_response (-3) 0)
           (world_after (priming (announcing_env (-3)) example_df example_base)
                        example_template.2)
           (mkResponseBlock (Some []) (-3))).
  - vm_compute. reflexivity.
  - vm_compute. reflexivity.
  - vm_compute. split; [reflexivity|discriminate].
  - vm_compute. split; discriminate.
  - reflexivity.
Defined.

(** A priming response that announces a negative count above
    [1 - 2 * pageSize] starts, if the function gets as far as its
    goroutines, a run of zero pages: nothing is enqueued, the goroutines
    send no request, the output file keeps the byte-order mark and the
    header row and nothing else, the run can be brought to the return, and
    the function returns 0. *)
Theorem negative_count_empty_run (env : Env) (df : DataFetcher) (base : Payload)
    (file : string) (w : World) (response : Response) (w1 : World)
    (resultBlock : ResponseBlock) (f : string) (totalPages : Z) (w0 : World) :
  priming env df base w = Done (inl response) w1 ->
  Response_Blocks response !! "result" = Some resultBlock ->
  (0 < pageSize df <= max_int)%Z ->
  (min_int <= Attr_Count resultBlock)%Z ->
  (1 - 2 * pageSize df < Attr_Count resultBlock < 0)%Z ->
  head_of_run env df base file w = Done (Started f totalPages) w0 ->
  let R := mkRun env df base f totalPages in
  totalPages = 0%Z /\
  (exists schedule s, exec R schedule (initial_state R w0) = Moved s /\
                      caller s = MReturned 0) /\
  forall schedule s,
    exec R schedule (initial_state R w0) = Moved s ->
    sent (world s) = sent w0 /\
    enqueued (events s) = [] /\
    files (world s) !! f = Some (mkFile true [csvHeaders df]) /\
    forall n, caller s = MReturned n -> n = 0%Z.
Proof.
  intros Hprime Hblock Hsize Hint64 Hcount Hhead R.
  destruct (totalPages_of_negative (Attr_Count resultBlock) (pageSize df))
    as (tp & Htp & Hrange & Hzero); [done|lia|].
  assert (tp = 0%Z) as -> by (apply Hzero; lia).
  assert (Hpages : totalPages = 0%Z).
  { pose proof (head_of_run_unfold env df base file w _ _ Hprime) as Hhead'.
    rewrite Hhead in Hhead'.
    unfold plan_run in Hhead'. rewrite Hblock in Hhead'.
    rewrite decide_False in Hhead' by lia. rewrite Htp in Hhead'.
    unfold mbind, Go_bind, print, os_Create, file_Write_BOM, writer_Write, mret, Go_ret,
      set_stdout in Hhead'.
    simpl in Hhead'.
    destruct (os_Create_error env (output_name env df file)); [done|].
    simpl in Hhead'.
    destruct (decide (maxWorkers df < 0)%Z); [done|]. by simplify_eq. }
  subst totalPages. split; [done|].
  destruct (head_started _ _ _ _ _ _ _ _ Hhead) as (_ & Hok & _ & _ & Hfile & _).
  destruct (head_request _ _ _ _ _ _ _ Hhead) as (Hpaging & _).
  assert (Hint : (run_totalPages R <= max_int)%Z) by (vm_compute; discriminate).
  assert (Hall : forall schedule s,
             exec R schedule (initial_state R w0) = Moved s ->
             sent (world s) = sent w0 /\ enqueued (events s) = [] /\
             files (world s) !! f = Some (mkFile true [csvHeaders df]) /\
             forall n, caller s = MReturned n -> n = 0%Z).
  { intros schedule s Hexec.
    destruct (task_inv_exec R Hint schedule _ _ (task_inv_initial R w0) Hexec)
      as (k & Hk & Henq & _ & _ & Hq).
    simpl in Hk. assert (k = 0%nat) as -> by lia.
    change (page_plan (run_df R) 0) with (@nil Task) in Henq.
    rewrite Henq in Hq. apply app_eq_nil in Hq as [Hrecv _].
    destruct (page_inv_exec R w0 schedule _ _ (page_inv_initial R w0) Hexec)
      as (Hfetch & Hemit & Hlen).
    rewrite Hrecv in Hfetch. apply submseteq_nil_r, app_eq_nil in Hfetch as [Hf _].
    rewrite Hf in Hemit. simpl in Hemit.
    apply Permutation_nil_r, app_eq_nil in Hemit as [Hem _].
    apply fmap_nil_inv in Hem.
    destruct (sink_inv_exec R w0 schedule _ _ (sink_inv_initial R w0) Hexec)
      as (Hrows & _ & Hsink & _ & Hret).
    rewrite Hem in Hsink. symmetry in Hsink. apply app_eq_nil in Hsink as [Hcons _].
    destruct (request_inv_exec R w0 schedule _ _ (page_inv_initial R w0)
                (request_inv_initial R w0 Hpaging) Hexec)
      as (_ & _ & reqs & Hsent & Hreqs).
    destruct (file_inv_exec R w0 schedule _ _ (file_inv_initial R w0) Hexec)
      as [Hfiles _].
    simpl in Hfiles. rewrite Hcons, Hfile in Hfiles. simpl in Hfiles.
    split_and!; try done.
    - rewrite Hsent, Hf, length_app in Hlen. simpl in Hlen.
      assert (reqs = []) as -> by (apply nil_length_inv; lia).
      by rewrite Hsent, app_nil_r.
    - intros n Hn. destruct (Hret n Hn) as [_ ->]. by rewrite Hrows, Hcons.
  }
  split; [|exact Hall].
  pose proof (run_inv_initial R w0 Hok) as Hinv.
  destruct (run_to_end_returns R Hint (steps_left R (initial_state R w0))
              (initial_state R w0) Hinv (le_n _)) as [n Hn].
  pose proof (run_to_end_exec R (steps_left R (initial_state R w0))
                (initial_state R w0)) as Hrun.
  destruct (Hall _ _ Hrun) as (_ & _ & _ & Hzero').
  rewrite (Hzero' n Hn) in Hn. eauto.
Qed.

Lemma negative_count_empty_run_witness :
  (0 = 0)%Z /\
  (exists schedule s,
      exec announced_Run schedule (initial_state announced_Run announced_world)
      = Moved s /\
      caller s = MReturned 0) /\
  forall schedule s,
    exec announced_Run schedule (initial_state announced_Run announced_world)
    = Moved s ->
    sent (world s) = sent announced_world /\
    enqueued (events s) = [] /\
    files (world s) !! "out.csv" = Some (mkFile true [csvHeaders example_df]) /\
    forall n, caller s = MReturned n -> n = 0%Z.
Proof.
  apply (negative_count_empty_run (announcing_env (-2)) example_df example_base
           "out.csv" example_template.2 (example_response (-2) 0)
           (world_after (priming (announcing_env (-2)) example_df example_base)
                        example_template.2)
           (mkResponseBlock (Some []) (-2)) "out.csv" 0 announced_world).
  - vm_compute. reflexivity.
  - vm_compute. reflexivity.
  - vm_compute. split; [reflexivity|discriminate].
  - vm_compute. discriminate.
  - vm_compute. split; reflexivity.
  - vm_compute. reflexivity.
Defined.

(** ** The template of [main] *)

Lemma new_map_bind {B} entries (k : loc -> Go B) ats bms n snt fls out :
  (new_map entries ≫= k) (mkWorld (mkHeap ats bms n) snt fls out) =
  k n (mkWorld (mkHeap (<[n := list_to_map entries]> ats) bms (Pos.succ n)) snt fls out).
Proof. reflexivity. Qed.

Lemma column_bind {B} pos name (k : Value -> Go B) ats bms n snt fls out :
  (column pos name ≫= k) (mkWorld (mkHeap ats bms n) snt fls out) =
  k (VMap n) (mkWorld (mkHeap (<[n := list_to_map [("pos", VInt pos); ("name", VStr name)]]> ats)
                              bms (Pos.succ n)) snt fls out).
Proof. reflexivity. Qed.

Lemma new_blockmap_bind {B} entries (k : loc -> Go B) ats bms n snt fls out :
  (new_blockmap entries ≫= k) (mkWorld (mkHeap ats bms n) snt fls out) =
  k n (mkWorld (mkHeap ats (<[n := list_to_map entries]> bms) (Pos.succ n)) snt fls out).
Proof. reflexivity. Qed.

(** What [buildPayload] leaves in the store, spelled out. *)
Lemma buildPayload_unfold ats bms n snt fls out :
  exists base h,
    buildPayload (mkWorld (mkHeap ats bms n) snt fls out)
    = Done base (mkWorld h snt fls out) /\
    base = mkPayload "PSRM01" "querySupCm" n (Pos.succ n) "2.0"
             (Pos.succ (Pos.succ n)) (Pos.iter Pos.succ n 12) /\
    blockmaps h !! Blocks base
    = Some (list_to_map
              [("result",
                mkPayloadBlock "" VNil [] [[]] (VMap (Pos.iter Pos.succ n 3)));
               ("inqu_status",
                mkPayloadBlock "" (VMap (Pos.iter Pos.succ n 4))
                  ((fun k => VMap (Pos.iter Pos.succ n k)) <$> [5; 6; 7; 8; 9; 10])%positive
                  [[VStr ""; VStr ""; VStr ""; VStr ""; VStr ""; VStr "1"]]
                  (VMap (Pos.iter Pos.succ n 11)))]) /\
    attrs h !! (n : loc) = Some ∅ /\
    attrs h !! (Pos.succ n : loc) = Some ∅ /\
    attrs h !! (Pos.succ (Pos.succ n) : loc)
    = Some (list_to_map [("name", VStr ""); ("descName", VStr ""); ("msg", VStr "");
                         ("msgKey", VStr ""); ("detailMsg", VStr "");
                         ("status", VInt 0); ("traceId", VStr "")]) /\
    attrs h !! (Pos.iter Pos.succ n 3 : loc)
    = Some (list_to_map [("limit", VInt 10); ("offset", VInt 10);
                         ("showCount", VStr "true")]) /\
    attrs h !! (Pos.iter Pos.succ n 4 : loc) = Some ∅ /\
    (forall k, (5 <= k <= 10)%positive ->
               exists pos name,
                 attrs h !! (Pos.iter Pos.succ n k : loc)
                 = Some (list_to_map [("pos", VInt pos); ("name", VStr name)])) /\
    attrs h !! (Pos.iter Pos.succ n 11 : loc) = Some ∅ /\
    (forall l, (l < n)%positive -> attrs h !! (l : loc) = ats !! l).
Proof.
  unfold buildPayload.
  rewrite !new_map_bind. rewrite !column_bind. rewrite new_map_bind, new_blockmap_bind.
  do 2 eexists. split; [reflexivity|]. cbn [Pos.iter attrs blockmaps Blocks].
  split; [reflexivity|].
  split; [by rewrite lookup_insert_eq|].
  split_and!.
  all: try (repeat (rewrite lookup_insert_ne by lia); by rewrite lookup_insert_eq).
  - intros k Hk.
    assert (k = 5 \/ k = 6 \/ k = 7 \/ k = 8 \/ k = 9 \/ k = 10)%positive
      as [->|[->|[->|[->|[->| ->]]]]] by lia.
    all: cbn [Pos.iter]; do 2 eexists.
    all: repeat (rewrite lookup_insert_ne by lia); by rewrite lookup_insert_eq.
  - intros l Hl. by repeat (rewrite lookup_insert_ne by lia).
Qed.

Lemma marshal_scalar fuel h v : scalar v -> is_Some (marshal_value fuel h v).
Proof. destruct v, fuel; simpl; eauto; done. Qed.

Lemma marshal_flat fuel h l m :
  attrs h !! l = Some m -> flat_map m -> is_Some (marshal_value (S fuel) h (VMap l)).
Proof.
  intros Hl Hflat. simpl. rewrite Hl. apply fmap_is_Some, mapM_is_Some_2.
  apply Forall_forall. intros [k v] Hin%elem_of_map_to_list. simpl.
  apply fmap_is_Some, marshal_scalar. by eapply Hflat.
Qed.

Lemma flat_list_to_map (l : list (string * Value)) :
  Forall (fun kv => scalar kv.2) l -> flat_map (list_to_map l).
Proof.
  intros Hl k v Hin%elem_of_list_to_map_2.
  by apply (proj1 (Forall_forall _ _) Hl (k, v)).
Qed.

Lemma flat_empty : flat_map ∅.
Proof. intros k v Hk. by rewrite lookup_empty in Hk. Qed.

Lemma marshal_block_is_Some fuel h b :
  is_Some (marshal_value fuel h (Meta_Attr b)) ->
  Forall (fun v => is_Some (marshal_value fuel h v)) (Meta_Columns b) ->
  Forall (Forall (fun v => is_Some (marshal_value fuel h v))) (Rows b) ->
  is_Some (marshal_value fuel h (Attr b)) ->
  is_Some (marshal_block fuel h b).
Proof.
  intros [ma Hma] Hcols Hrows [at' Hattr]. unfold marshal_block.
  rewrite Hma. cbn [mbind option_bind].
  destruct (mapM_is_Some_2 (marshal_value fuel h) (Meta_Columns b)) as [cols ->].
  { eapply Forall_impl; [exact Hcols|]. done. }
  cbn [mbind option_bind].
  destruct (mapM_is_Some_2 (fun r => WArr <$> mapM (marshal_value fuel h) r) (Rows b))
    as [rows ->].
  { eapply Forall_impl; [exact Hrows|]. intros r Hr. simpl.
    apply fmap_is_Some, mapM_is_Some_2. eapply Forall_impl; [exact Hr|]. done. }
  cbn [mbind option_bind]. rewrite Hattr. cbn [mbind option_bind]. eauto.
Qed.

(** Whatever the store holds, [buildPayload] returns a template that the
    eight patching lines accept and [json.Marshal] encodes: its "result"
    block has a map as Attr, with limit 10, offset 10 and showCount
    "true".  It allocates new maps only: the maps the store held, the
    requests, the files and the log are as before. *)
Theorem built_template_is_ready (w : World) :
  exists base w',
    buildPayload w = Done base w' /\
    sent w' = sent w /\ files w' = files w /\ stdout w' = stdout w /\
    (forall l, (l < next (heap w))%positive ->
               attrs (heap w') !! l = attrs (heap w) !! l) /\
    template_ok (heap w') base /\
    template_paging (heap w') base 10 10 /\
    result_attr (heap w') base "showCount" = Some (VStr "true") /\
    is_Some (json_Marshal (heap w') base) /\
    forall ps off, exists w'', pagedPayload base ps off w' = Done base w''.
Proof.
  destruct w as [[ats bms n] snt fls out].
  destruct (buildPayload_unfold ats bms n snt fls out)
    as (base & h & Hbuild & Hbase & Hblocks & Hctx & Huser & Hsys & Hresult & Hmeta
        & Hcols & Hinqu & Hold).
  exists base, (mkWorld h snt fls out). cbn [heap sent files stdout next].
  set (result := mkPayloadBlock "" VNil [] [[]] (VMap (Pos.iter Pos.succ n 3))) in *.
  set (inqu := mkPayloadBlock "" (VMap (Pos.iter Pos.succ n 4)) _ _ _) in *.
  assert (Hr : (list_to_map [("result", result); ("inqu_status", inqu)]
                : gmap string PayloadBlock) !! "result" = Some result).
  { rewrite list_to_map_cons. apply lookup_insert_eq. }
  assert (Hlimit : (list_to_map [("limit", VInt 10); ("offset", VInt 10);
                                 ("showCount", VStr "true")] : gmap string Value)
                   !! "limit" = Some (VInt 10)).
  { rewrite list_to_map_cons. apply lookup_insert_eq. }
  assert (Hoffset : (list_to_map [("limit", VInt 10); ("offset", VInt 10);
                                  ("showCount", VStr "true")] : gmap string Value)
                    !! "offset" = Some (VInt 10)).
  { rewrite !list_to_map_cons. rewrite lookup_insert_ne by done. apply lookup_insert_eq. }
  assert (Hshow : (list_to_map [("limit", VInt 10); ("offset", VInt 10);
                                ("showCount", VStr "true")] : gmap string Value)
                  !! "showCount" = Some (VStr "true")).
  { rewrite !list_to_map_cons. do 2 (rewrite lookup_insert_ne by discriminate).
    apply lookup_insert_eq. }
  assert (Hok : template_ok h base).
  { eexists _, _, _. split; [exact Hblocks|]. rewrite Hr. split; [reflexivity|exact Hresult]. }
  split; [exact Hbuild|]. split; [reflexivity|]. split; [reflexivity|].
  split; [reflexivity|]. split; [exact Hold|]. split; [exact Hok|].
  split.
  { exists (list_to_map [("result", result); ("inqu_status", inqu)]), result.
    eexists _, _. split; [exact Hblocks|]. split; [exact Hr|]. split; [reflexivity|].
    split; [exact Hresult|]. split; [exact Hlimit|exact Hoffset]. }
  split.
  { unfold result_attr, heap_block, heap_attr. rewrite Hblocks.
    cbn [mbind option_bind]. rewrite Hr. change (Attr _) with (VMap (Pos.iter Pos.succ n 3)).
    cbv beta iota. rewrite Hresult. exact Hshow. }
  split.
  - unfold json_Marshal. rewrite Hbase. cbn [Context User Sys Blocks].
    rewrite Hbase in Hblocks. cbn [Blocks] in Hblocks.
    set (fuel := size (attrs h)).
    assert (Hempty : forall l : loc, attrs h !! l = Some ∅ ->
                                     is_Some (marshal_value (S fuel) h (VMap l))).
    { intros l Hl. eapply marshal_flat; [exact Hl|apply flat_empty]. }
    destruct (Hempty _ Hctx) as [wc Hwc]. destruct (Hempty _ Huser) as [wu Hwu].
    destruct (marshal_flat fuel h _ _ Hsys) as [ws Hws].
    { apply flat_list_to_map. by repeat constructor. }
    unfold marshal_map. rewrite Hwc, Hwu, Hws. cbn [mbind option_bind].
    rewrite Hblocks.
    match goal with
    | |- is_Some ((WObj <$> ?M) ≫= _) => assert (Hm : is_Some M)
    end.
    { apply mapM_is_Some_2, Forall_forall. intros [k b] Hin%elem_of_map_to_list.
      cbn [fst snd compose]. apply fmap_is_Some.
      rewrite !list_to_map_cons in Hin.
      apply lookup_insert_Some in Hin as [[_ <-]|[_ Hin]].
      - apply marshal_block_is_Some; cbn [Meta_Attr Meta_Columns Rows Attr result].
        + by apply marshal_scalar.
        + constructor.
        + by repeat constructor.
        + eapply marshal_flat; [exact Hresult|].
          apply flat_list_to_map. by repeat constructor.
      - apply lookup_insert_Some in Hin as [[_ <-]|[_ Hin]].
        2: { cbn [list_to_map foldr] in Hin. by rewrite lookup_empty in Hin. }
        apply marshal_block_is_Some; cbn [Meta_Attr Meta_Columns Rows Attr inqu].
        + by apply Hempty.
        + cbn [fmap list_fmap]. repeat constructor.
          all: match goal with
               | |- is_Some (marshal_value _ _ (VMap (Pos.iter Pos.succ _ ?k))) =>
                   destruct (Hcols k ltac:(lia)) as (pos & name & Hk);
                   eapply marshal_flat; [exact Hk|];
                   apply flat_list_to_map; by repeat constructor
               end.
        + repeat constructor; by apply marshal_scalar.
        + by apply Hempty. }
    destruct Hm as [blocks ->]. cbn [fmap option_fmap option_map mbind option_bind].
    eauto.
  - intros ps off. destruct (pagedPayload_ok base ps off (mkWorld h snt fls out) Hok)
      as (w'' & ? & _). eauto.
Qed.

(** ** A page without a "result" block *)

Lemma exec_app R l1 l2 s :
  exec R (l1 ++ l2) s =
  match exec R l1 s with
  | Moved s1 => exec R l2 s1
  | other => other
  end.
Proof.
  revert s. induction l1 as [|a l1 IH]; intros s; simpl; [done|].
  destruct (step R a s); auto.
Qed.

Lemma emitted_elem i r evs : EvEmit i r ∈ evs -> r ∈ emitted evs.
Proof.
  intros Hin. unfold emitted. apply list_elem_of_omap. by exists (EvEmit i r).
Qed.

(** A worker at a send stays there until it has sent. *)
Lemma emission_inv_step R a s s' i pc r evs0 :
  pending_result pc = Some r ->
  emission_inv i pc r evs0 s -> step R a s = Moved s' -> emission_inv i pc r evs0 s'.
Proof.
  intros Hpend (new & Hev & Hcase) Hstep.
  step_cases Hstep; unfold emission_inv; simpl; rewrite ?Hev.
  all: first [ exists new; split; [done|]
             | eexists (new ++ [_])%list; split; [by rewrite (assoc_L (++))|] ].
  all: destruct Hcase as [Hpc|Hin]; [|right; first [done | apply elem_of_app; by left]].
  all: try (by left).
  all: match goal with
       | H : workers ?s0 !! ?j = Some ?old |- _ =>
           destruct (decide (j = i)) as [->|Hne];
           [ rewrite Hpc in H; simplify_eq; simpl in Hpend; simplify_eq;
             right; apply elem_of_app; right; apply list_elem_of_here
           | left; by rewrite list_lookup_insert_ne ]
       end.
Qed.

Lemma emission_inv_exec R schedule s s' i pc r evs0 :
  pending_result pc = Some r ->
  emission_inv i pc r evs0 s -> exec R schedule s = Moved s' ->
  emission_inv i pc r evs0 s'.
Proof.
  intros Hpend. revert s.
  induction schedule as [|a rest IH]; intros s Hinv Hexec; simpl in Hexec.
  - by simplify_eq.
  - destruct (step R a s) as [s1| |] eqn:Hstep; try done.
    eauto using emission_inv_step.
Qed.

(** A worker of a run that holds a result to send: the results channel
    is still open; the send goes through as soon as the buffer has room;
    the run can be brought to the function's return; and in whatever way
    the run reaches the return, the worker has emitted the result and the
    consumer has taken it. *)
Lemma pending_result_sent R w0 schedule s1 i pc r :
  template_ok (heap w0) (run_basePayload R) ->
  (run_totalPages R <= max_int)%Z ->
  exec R schedule (initial_state R w0) = Moved s1 ->
  workers s1 !! i = Some pc ->
  pending_result pc = Some r ->
  results_closed s1 = false /\
  ((Z.of_nat (length (results s1)) < maxWorkers (run_df R))%Z ->
   exists s2,
     worker_step R i s1 = Moved s2 /\
     results s2 = results s1 ++ [r] /\
     events s2 = events s1 ++ [EvEmit i r] /\
     workers s2 !! i = Some (match pc with WSendRows _ _ => WSleep | _ => WRange end) /\
     world s2 = world s1) /\
  (exists rest s' n, exec R rest s1 = Moved s' /\ caller s' = MReturned n) /\
  (forall rest s' n,
      exec R rest s1 = Moved s' -> caller s' = MReturned n ->
      (exists new, events s' = events s1 ++ new /\ EvEmit i r ∈ new) /\
      r ∈ consumed (events s')).
Proof.
  intros Hok Hint Hexec Hpc Hpend.
  pose proof (run_inv_exec R Hint schedule _ _ (run_inv_initial R w0 Hok) Hexec)
    as Hinv.
  pose proof (lookup_lt_Some _ _ _ Hpc) as Hi.
  assert (Hopen : results_closed s1 = false).
  { destruct Hinv as (_ & _ & _ & Hclosed & _).
    destruct (results_closed s1) eqn:Hc; [|done].
    pose proof (all_exited_lookup _ _ _ (Hclosed eq_refl) Hpc). by subst pc. }
  split_and!; [done| | |].
  - intros Hroom.
    destruct pc; simpl in Hpend; simplify_eq.
    all: eexists; split;
      [ unfold worker_step, send_result; rewrite Hpc, Hopen;
        rewrite decide_True by done; done
      | simpl; rewrite list_lookup_insert_eq by done; done ].
  - destruct (run_to_end_returns R Hint (steps_left R s1) s1 Hinv (le_n _)) as [n Hn].
    pose proof (run_to_end_exec R (steps_left R s1) s1) as Hrun.
    eauto.
  - intros rest s' n Hrest Hret.
    assert (Hem : emission_inv i pc r (events s1) s').
    { eapply emission_inv_exec; [done| |exact Hrest].
      exists []. rewrite app_nil_r. split; [done|]. by left. }
    pose proof (run_inv_exec R Hint rest _ _ Hinv Hrest)
      as (_ & _ & _ & Hclosed & Hcons & _ & Hcaller & _).
    destruct (Hcons (Hcaller n Hret)) as [Hrc Hres].
    destruct Hem as (new & Hev & [Hstill|Hin]).
    { pose proof (all_exited_lookup _ _ _ (Hclosed Hrc) Hstill). by subst pc. }
    split; [by eauto|].
    assert (Hall : exec R (schedule ++ rest) (initial_state R w0) = Moved s').
    { by rewrite exec_app, Hexec. }
    destruct (sink_inv_exec R w0 _ _ _ (sink_inv_initial R w0) Hall)
      as (_ & _ & Hemit & _).
    rewrite Hres, app_nil_r in Hemit. rewrite <- Hemit.
    apply (emitted_elem i). rewrite Hev. apply elem_of_app. by right.
Qed.

(** C10.  A priming response without a "result" block makes the function
    return the format error from its head, with the priming request sent
    and no file created: the channels and goroutines are never set up.
    In a run, a worker whose response lacks the block prints nothing,
    writes nothing and holds a result with the page number, an empty
    non-nil row list and no error; the results channel is open, so the
    worker sends that result as soon as the buffer has room and is then
    back at the head of its loop without sleeping; the run can always be
    brought to the function's return, and in whatever way it gets there
    the worker has emitted that result and the consumer has taken it.  The
    consumer takes such a result without changing the row counter, the log
    or the file. *)
Theorem missing_result_block (env : Env) (df : DataFetcher) (base : Payload) :
  (forall file w response w1,
      priming env df base w = Done (inl response) w1 ->
      Response_Blocks response !! "result" = None ->
      exists w',
        head_of_run env df base file w
        = Done (Returned 0 (Some ErrResponseFormat)) w' /\
        files w' = files w /\
        (exists req, sent w' = sent w ++ [req]) /\
        forall n err w'', Returns env df base file w n err w'' ->
                          n = 0%Z /\ err = Some ErrResponseFormat /\ w'' = w') /\
  (forall file w f totalPages w0 schedule s i task payload response w1,
      let R := mkRun env df base f totalPages in
      let r := mkPageResult (pageNum task) (Some []) None in
      head_of_run env df base file w = Done (Started f totalPages) w0 ->
      exec R schedule (initial_state R w0) = Moved s ->
      workers s !! i = Some (WFetch task payload) ->
      fetchData env df payload (world s) = Done (inl response) w1 ->
      Response_Blocks response !! "result" = None ->
      exists s1,
        worker_step R i s = Moved s1 /\
        workers s1 !! i = Some (WSendEmpty task) /\
        results s1 = results s /\
        stdout (world s1) = stdout (world s) /\
        files (world s1) = files (world s) /\
        results_closed s1 = false /\
        ((Z.of_nat (length (results s1)) < maxWorkers df)%Z ->
         exists s2,
           worker_step R i s1 = Moved s2 /\
           results s2 = results s1 ++ [r] /\
           events s2 = events s1 ++ [EvEmit i r] /\
           workers s2 !! i = Some WRange /\
           world s2 = world s1) /\
        (exists rest s' n, exec R rest s1 = Moved s' /\ caller s' = MReturned n) /\
        (forall rest s' n,
            exec R rest s1 = Moved s' -> caller s' = MReturned n ->
            (exists new, events s' = events s1 ++ new /\ EvEmit i r ∈ new) /\
            r ∈ consumed (events s'))) /\
  (forall file pn n w,
      consume env file (mkPageResult pn (Some []) None) n w = Done n w).
Proof.
  split_and!.
  - intros file w response w1 Hprime Hblock.
    pose proof (head_of_run_unfold env df base file w _ _ Hprime) as Hhead.
    unfold plan_run in Hhead. rewrite Hblock in Hhead.
    destruct (priming_frame env df base w _ _ Hprime) as (Hfiles & _ & _ & Hsent).
    destruct (Hsent response eq_refl) as [req Hreq].
    eexists. split; [exact Hhead|]. simpl.
    split; [done|]. split; [by exists req|].
    by apply Returns_of_head.
  - intros file w f totalPages w0 schedule s i task payload response w1 R r
      Hhead Hexec Hpc Hfetch Hblock.
    destruct (head_started _ _ _ _ _ _ _ _ Hhead) as (_ & Hok & Htp & _).
    assert (Hint : (run_totalPages R <= max_int)%Z) by (simpl; lia).
    pose proof (lookup_lt_Some _ _ _ Hpc) as Hi.
    assert (Hstep : worker_step R i s
                    = Moved (set_worker i (WSendEmpty task)
                               (log (EvFetch i task) (set_world w1 s)))).
    { unfold worker_step. rewrite Hpc. simpl. by rewrite Hfetch, Hblock. }
    set (s1 := set_worker i (WSendEmpty task) (log (EvFetch i task) (set_world w1 s)))
      in *.
    assert (Hpc1 : workers s1 !! i = Some (WSendEmpty task)).
    { simpl. by rewrite list_lookup_insert_eq. }
    assert (Hexec1 : exec R (schedule ++ [AWorker i]) (initial_state R w0) = Moved s1).
    { rewrite exec_app, Hexec. simpl. by rewrite Hstep. }
    destruct (pending_result_sent R w0 _ s1 i _ r Hok Hint Hexec1 Hpc1 eq_refl)
      as (Hopen & Hsend & Hend & Hsent).
    apply fetchData_frame in Hfetch as (Hout & Hfiles & _).
    exists s1. split_and!; done.
  - done.
Qed.

Lemma missing_result_block_witness :
  (exists w',
      head_of_run blockless_env example_df example_base "out.csv" example_template.2
      = Done (Returned 0 (Some ErrResponseFormat)) w' /\
      files w' = files example_template.2 /\
      (exists req, sent w' = sent example_template.2 ++ [req]) /\
      forall n err w'',
        Returns blockless_env example_df example_base "out.csv" example_template.2
                n err w'' ->
        n = 0%Z /\ err = Some ErrResponseFormat /\ w'' = w') /\
  (exists s1,
      worker_step partial_Run 0 partial_fetching = Moved s1 /\
      workers s1 !! 0%nat = Some (WSendEmpty (mkTask 1 0)) /\
      results s1 = results partial_fetching /\
      stdout (world s1) = stdout (world partial_fetching) /\
      files (world s1) = files (world partial_fetching) /\
      results_closed s1 = false /\
      ((Z.of_nat (length (results s1)) < maxWorkers example_df)%Z ->
       exists s2,
         worker_step partial_Run 0 s1 = Moved s2 /\
         results s2 = results s1 ++ [mkPageResult 1 (Some []) None] /\
         events s2 = events s1 ++ [EvEmit 0 (mkPageResult 1 (Some []) None)] /\
         workers s2 !! 0%nat = Some WRange /\
         world s2 = world s1) /\
      (exists rest s' n, exec partial_Run rest s1 = Moved s' /\ caller s' = MReturned n) /\
      (forall rest s' n,
          exec partial_Run rest s1 = Moved s' -> caller s' = MReturned n ->
          (exists new, events s' = events s1 ++ new /\
                       EvEmit 0 (mkPageResult 1 (Some []) None) ∈ new) /\
          mkPageResult 1 (Some []) None ∈ consumed (events s'))).
Proof.
  destruct (missing_result_block blockless_env example_df example_base)
    as (Hhead & _ & _).
  destruct (missing_result_block partial_env example_df example_base)
    as (_ & Hworker & _).
  split.
  - apply (Hhead "out.csv" example_template.2 (mkResponse ∅)
             (world_after (priming blockless_env example_df example_base)
                          example_template.2)).
    + vm_compute. reflexivity.
    + reflexivity.
  - apply (Hworker "out.csv" example_template.2 "out.csv" 3%Z partial_world
             partial_schedule partial_fetching 0%nat (mkTask 1 0) example_base
             (mkResponse ∅)
             (world_after (fetchData partial_env example_df example_base)
                          (world partial_fetching))).
    + vm_compute. reflexivity.
    + vm_compute. reflexivity.
    + vm_compute. reflexivity.
    + vm_compute. reflexivity.
    + reflexivity.
Defined.

(** ** The result of a fetch *)

(** Whatever [fetchData] returns, a worker of a run that fetches a page
    then holds exactly one result, which carries the page number of the
    descriptor it dequeued and either rows or an error, never both; the
    results channel is open; the worker sends that result as soon as the
    buffer has room; the run can be brought to the function's return, and
    in whatever way it gets there the result has been emitted and
    consumed. *)
Theorem result_tagged_with_page (R : Run) (w : World) (schedule : list Actor)
    (s : St) (i : nat) (task : Task) (payload : Payload) :
  template_ok (heap w) (run_basePayload R) ->
  (run_totalPages R <= max_int)%Z ->
  exec R schedule (initial_state R w) = Moved s ->
  workers s !! i = Some (WFetch task payload) ->
  exists s1 pc r,
    worker_step R i s = Moved s1 /\
    workers s1 !! i = Some pc /\
    pending_result pc = Some r /\
    PageNum r = pageNum task /\
    (Err r = None \/ Result_Rows r = None) /\
    results s1 = results s /\
    results_closed s1 = false /\
    ((Z.of_nat (length (results s1)) < maxWorkers (run_df R))%Z ->
     exists s2,
       worker_step R i s1 = Moved s2 /\
       results s2 = results s1 ++ [r] /\
       events s2 = events s1 ++ [EvEmit i r]) /\
    (exists rest s' n, exec R rest s1 = Moved s' /\ caller s' = MReturned n) /\
    (forall rest s' n,
        exec R rest s1 = Moved s' -> caller s' = MReturned n ->
        (exists new, events s' = events s1 ++ new /\ EvEmit i r ∈ new) /\
        r ∈ consumed (events s')).
Proof.
  intros Hok Hint Hexec Hpc.
  pose proof (lookup_lt_Some _ _ _ Hpc) as Hi.
  pose proof (run_inv_exec R Hint schedule _ _ (run_inv_initial R w Hok) Hexec)
    as Hinv.
  destruct (worker_step R i s) as [s1| |reason] eqn:Hstep.
  - assert (Hexec1 : exec R (schedule ++ [AWorker i]) (initial_state R w) = Moved s1).
    { rewrite exec_app, Hexec. simpl. by rewrite Hstep. }
    assert (Hpend : exists pc r,
               workers s1 !! i = Some pc /\ pending_result pc = Some r /\
               PageNum r = pageNum task /\ (Err r = None \/ Result_Rows r = None) /\
               results s1 = results s).
    { unfold worker_step in Hstep. rewrite Hpc in Hstep.
      repeat case_match; simplify_eq.
      all: do 2 eexists; simpl; rewrite list_lookup_insert_eq by done;
        split; [reflexivity|]; simpl; auto. }
    destruct Hpend as (pc & r & Hpc1 & Hpend & Hnum & Hshape & Hres).
    destruct (pending_result_sent R w _ s1 i pc r Hok Hint Hexec1 Hpc1 Hpend)
      as (Hopen & Hsend & Hend & Hsent).
    exists s1, pc, r. split_and!; try done.
    intros Hroom. destruct (Hsend Hroom) as (s2 & ? & ? & ? & _). eauto.
  - exfalso. unfold worker_step in Hstep. rewrite Hpc in Hstep.
    repeat case_match; simplify_eq.
  - exfalso. by apply (step_never_crashes R (AWorker i) s reason Hinv).
Qed.

Lemma result_tagged_with_page_witness :
  exists s1 pc r,
    worker_step example_Run 0 example_patched = Moved s1 /\
    workers s1 !! 0%nat = Some pc /\
    pending_result pc = Some r /\
    PageNum r = pageNum (mkTask 1 0) /\
    (Err r = None \/ Result_Rows r = None) /\
    results s1 = results example_patched /\
    results_closed s1 = false /\
    ((Z.of_nat (length (results s1)) < maxWorkers (run_df example_Run))%Z ->
     exists s2,
       worker_step example_Run 0 s1 = Moved s2 /\
       results s2 = results s1 ++ [r] /\
       events s2 = events s1 ++ [EvEmit 0 r]) /\
    (exists rest s' n, exec example_Run rest s1 = Moved s' /\ caller s' = MReturned n) /\
    (forall rest s' n,
        exec example_Run rest s1 = Moved s' -> caller s' = MReturned n ->
        (exists new, events s' = events s1 ++ new /\ EvEmit 0 r ∈ new) /\
        r ∈ consumed (events s')).
Proof.
  apply (result_tagged_with_page example_Run example_world partial_schedule
           example_patched 0 (mkTask 1 0) example_base).
  - exact example_template_ok.
  - vm_compute. discriminate.
  - vm_compute. reflexivity.
  - vm_compute. reflexivity.
Defined.
